(** * Pitch Arena: the store, the feedback endpoint, voting, the leaderboard
      and the submission form, embedded from the sources

    - the tables, their constraints and the row policies come from the two
      SQL migrations;
    - [Endpoint] embeds the [Deno.serve] handler of the
      generate-pitch-feedback function as a state and exception monad over
      the store;
    - [SubmissionForm], [PitchDetailView], [DiscoverFeed] and [Leaderboard]
      embed the handlers of the React components of those names;
    - [action], [step] and [reachable] put the statements of all of them
      together into one transition system over the store.

    Identifiers (uuid) are strings, timestamps are milliseconds since the
    epoch.  Columns that no code path reads (the surrogate [id] and
    [created_at] of ai_feedback and votes, [updated_at], the profiles table)
    are left out.  What the runtime and the network supply (environment
    variables, the clock, [JSON.parse], the answer of the AI service) is an
    input of the model, the record [World]. *)

From Stdlib Require Import List String Ascii ZArith Bool Arith Lia DecimalString.
From Stdlib Require Import Permutation Sorted QArith SpecFloat.
Import ListNotations.

Local Open Scope string_scope.
Local Open Scope list_scope.
Local Open Scope nat_scope.

(* ================================================================== *)
(** * Part I. Definitions *)
(* ================================================================== *)

(** ** JavaScript values that cross the wire *)

Definition uuid := string.
Definition timestamptz := Z.

(** Parsed JSON.  [JNum] is a number that is an integer, [JFrac] one that
    is not (7.5, say), given by its value. *)
#[local] Unset Elimination Schemes.
Inductive json : Type :=
| JNull
| JBool (b : bool)
| JNum (n : Z)
| JFrac (q : Q)
| JStr (s : string)
| JArr (items : list json)
| JObj (fields : list (string * json)).
#[local] Set Elimination Schemes.

(** A JavaScript value read from parsed JSON: [None] is [undefined]. *)
Definition jsval := option json.

(** [!v] is [negb (truthy v)]. *)
Definition truthy (v : jsval) : bool :=
  match v with
  | None | Some JNull => false
  | Some (JBool b) => b
  | Some (JNum n) => negb (n =? 0)%Z
  | Some (JFrac q) => negb (Qeq_bool q 0)
  | Some (JStr s) => negb (String.eqb s EmptyString)
  | Some (JArr _) | Some (JObj _) => true
  end.

(** Thrown values.  [Error] stands for [new Error(msg)] and for the runtime's
    own SyntaxError and TypeError; [PostgrestError] is the error object the
    store client returns (and the handler rethrows). *)
Inductive exn : Type :=
| Error (msg : string)
| PostgrestError (msg : string) (code : string).

Definition message (e : exn) : string :=
  match e with
  | Error m => m
  | PostgrestError m _ => m
  end.

(** A name or a value between double quotes, as PostgreSQL's messages
    have them. *)
Definition quoted (s : string) : string :=
  String (ascii_of_nat 34) (String.append s (String (ascii_of_nat 34) EmptyString)).

(** The errors of PostgreSQL that the statements of the code can meet, with
    the message and the SQLSTATE the store client hands over. *)
Definition unique_violation (constraint : string) : exn :=
  PostgrestError
    (String.append "duplicate key value violates unique constraint " (quoted constraint))
    "23505".

Definition foreign_key_violation (table constraint : string) : exn :=
  PostgrestError
    (String.concat EmptyString
       [ "insert or update on table "; quoted table;
         " violates foreign key constraint "; quoted constraint ])
    "23503".

Definition check_violation (relation constraint : string) : exn :=
  PostgrestError
    (String.concat EmptyString
       [ "new row for relation "; quoted relation;
         " violates check constraint "; quoted constraint ])
    "23514".

Definition rls_violation (table : string) : exn :=
  PostgrestError
    (String.append "new row violates row-level security policy for table " (quoted table))
    "42501".

Definition integer_out_of_range (text : string) : exn :=
  PostgrestError
    (String.concat EmptyString [ "value "; quoted text; " is out of range for type integer" ])
    "22003".

Definition invalid_integer (text : string) : exn :=
  PostgrestError
    (String.append "invalid input syntax for type integer: " (quoted text))
    "22P02".

Fixpoint assoc (key : string) (fields : list (string * json)) : jsval :=
  match fields with
  | [] => None
  | (k, v) :: rest => if String.eqb k key then Some v else assoc key rest
  end.

(** [v.key]: a TypeError on [undefined] and [null], [undefined] on the other
    values that have no such property. *)
Definition member (v : jsval) (key : string) : exn + jsval :=
  match v with
  | None => inl (Error ("Cannot read properties of undefined (reading '" ++ key ++ "')")%string)
  | Some JNull => inl (Error ("Cannot read properties of null (reading '" ++ key ++ "')")%string)
  | Some (JObj fields) => inr (assoc key fields)
  | Some _ => inr None
  end.

(** [v[0]]. *)
Definition index0 (v : jsval) : exn + jsval :=
  match v with
  | None => inl (Error "Cannot read properties of undefined (reading '0')")
  | Some JNull => inl (Error "Cannot read properties of null (reading '0')")
  | Some (JArr items) => inr (nth_error items 0)
  | Some (JObj fields) => inr (assoc "0" fields)
  | Some (JStr (String c _)) => inr (Some (JStr (String c EmptyString)))
  | Some _ => inr None
  end.

(** ** The tables (migrations create_pitch_arena_schema and
       add_ai_processing_status) *)

Inductive pitch_status : Type := draft | published.
Inductive processing_status : Type := pending | processing | completed | failed.
Inductive vote_type_t : Type := interesting | needs_work.

Definition pitch_status_eqb (a b : pitch_status) : bool :=
  match a, b with
  | draft, draft | published, published => true
  | _, _ => false
  end.

Definition processing_status_eqb (a b : processing_status) : bool :=
  match a, b with
  | pending, pending | processing, processing
  | completed, completed | failed, failed => true
  | _, _ => false
  end.

Definition vote_type_eqb (a b : vote_type_t) : bool :=
  match a, b with
  | interesting, interesting | needs_work, needs_work => true
  | _, _ => false
  end.

(** The five text fields of a pitch (interfaces PitchData, PitchFormData). *)
Record PitchFormData : Type := {
  title : string;
  target_audience : string;
  pain_point : string;
  product_description : string;
  elevator_pitch : string
}.

Module Pitches.
Record row : Type := {
  id : uuid;
  user_id : uuid;
  content : PitchFormData;
  status : pitch_status;
  created_at : timestamptz;
  ai_processing_status : processing_status;
  ai_processing_started_at : option timestamptz;
  ai_processing_completed_at : option timestamptz;
  ai_processing_error : option string
}.
End Pitches.

Module AiFeedback.
Record row : Type := {
  pitch_id : uuid;
  strengths : json;
  weaknesses : json;
  recommendations : json;
  overall_score : option Z
}.
End AiFeedback.

Module Votes.
Record row : Type := {
  pitch_id : uuid;
  user_id : uuid;
  vote_type : vote_type_t
}.
End Votes.

Record database : Type := {
  pitches : list Pitches.row;
  ai_feedback : list AiFeedback.row;
  votes : list Votes.row
}.

Definition empty_database : database :=
  {| pitches := []; ai_feedback := []; votes := [] |}.

(** ** What the outside world supplies to one run of the code *)

Inductive fetch_result : Type :=
| fetch_rejected (msg : string)
| fetch_response (status : nat) (text : string).

Record World : Type := {
  (** [Deno.env.get('OPENAI_API_KEY')] *)
  OPENAI_API_KEY : option string;
  (** [JSON.parse]; [inl] is the message of the SyntaxError *)
  JSON_parse : string -> string + json;
  (** [String(v)] on a value that is not a string *)
  ToString : jsval -> string;
  (** [JSON.stringify(v)]: the text in which a value reaches the store *)
  JSON_stringify : json -> string;
  (** the chat completion call, from the credential and the prompt *)
  fetch_openai : string -> string -> fetch_result;
  (** the readings of [new Date()] when processing starts and when it ends *)
  now_started : timestamptz;
  now_completed : timestamptz;
  (** the integer a text denotes in PostgreSQL's integer syntax, whatever
      its size; [None] when the text is not in that syntax *)
  int4_in : string -> option Z
}.

(** ** The store: statements and constraints *)

Definition has_pitch (pid : uuid) (db : database) : bool :=
  existsb (fun p => String.eqb (Pitches.id p) pid) (pitches db).

Definition has_feedback (pid : uuid) (db : database) : bool :=
  existsb (fun f => String.eqb (AiFeedback.pitch_id f) pid) (ai_feedback db).

(** [UPDATE pitches SET ... WHERE cond]. *)
Definition update_pitches (cond : Pitches.row -> bool)
    (set : Pitches.row -> Pitches.row) (db : database) : database :=
  {| pitches := map (fun p => if cond p then set p else p) (pitches db);
     ai_feedback := ai_feedback db;
     votes := votes db |}.

(** [.select('*').eq('id', pid).single()]: the row when exactly one matches. *)
Definition select_pitch_single (pid : uuid) (db : database) : option Pitches.row :=
  match filter (fun p => String.eqb (Pitches.id p) pid) (pitches db) with
  | [p] => Some p
  | _ => None
  end.

(** The object handed to [.from('ai_feedback').insert]; a field that is
    [undefined] is dropped by the serialisation and takes the column
    default. *)
Record FeedbackInsert : Type := {
  ins_pitch_id : uuid;
  ins_strengths : jsval;
  ins_weaknesses : jsval;
  ins_recommendations : jsval;
  ins_overall_score : jsval
}.

Definition jsonb_or_default (v : jsval) : json :=
  match v with
  | None => JArr []
  | Some j => j
  end.

Definition string_of_Z (n : Z) : string :=
  NilZero.string_of_int (Z.to_int n).

(** The range of PostgreSQL's type [integer]. *)
Definition int4_min : Z := (-2147483648)%Z.
Definition int4_max : Z := 2147483647%Z.

(** The integer column with [DEFAULT 5] and
    [CHECK (overall_score >= 1 AND overall_score <= 10)]; a NULL passes the
    check.  The value arrives as JSON text: an integer number in decimal
    digits (below 10^21; from there on JavaScript writes an exponent, which
    is not integer syntax), a string by its content.  PostgreSQL first reads
    the text as an [integer], which fails on a text that is not one
    (22P02) and on one outside the type's range (22003), and then applies
    the check. *)
Definition score_of_integer (text : string) (n : Z) : exn + option Z :=
  if negb ((int4_min <=? n) && (n <=? int4_max))%Z then
    inl (integer_out_of_range text)
  else if ((1 <=? n) && (n <=? 10))%Z then inr (Some n)
  else inl (check_violation "ai_feedback" "ai_feedback_overall_score_check").

Definition score_column (w : World) (v : jsval) : exn + option Z :=
  match v with
  | None => inr (Some 5%Z)
  | Some JNull => inr None
  | Some (JNum n) =>
      if (Z.abs n <? 10 ^ 21)%Z then score_of_integer (string_of_Z n) n
      else inl (invalid_integer (JSON_stringify w (JNum n)))
  | Some (JStr s) =>
      match int4_in w s with
      | Some n => score_of_integer s n
      | None => inl (invalid_integer s)
      end
  | Some j => inl (invalid_integer (JSON_stringify w j))
  end.

(** [INSERT INTO ai_feedback]: the columns' input and check, then
    [UNIQUE(pitch_id)], then the foreign key to pitches.  Returns the error
    of the statement, if any, and the store after it. *)
Definition insert_ai_feedback (w : World) (r : FeedbackInsert) (db : database)
  : option exn * database :=
  match score_column w (ins_overall_score r) with
  | inl e => (Some e, db)
  | inr score =>
      if has_feedback (ins_pitch_id r) db then
        (Some (unique_violation "ai_feedback_pitch_id_key"), db)
      else if negb (has_pitch (ins_pitch_id r) db) then
        (Some (foreign_key_violation "ai_feedback" "ai_feedback_pitch_id_fkey"), db)
      else
        (None,
         {| pitches := pitches db;
            ai_feedback := ai_feedback db ++
              [ {| AiFeedback.pitch_id := ins_pitch_id r;
                   AiFeedback.strengths := jsonb_or_default (ins_strengths r);
                   AiFeedback.weaknesses := jsonb_or_default (ins_weaknesses r);
                   AiFeedback.recommendations := jsonb_or_default (ins_recommendations r);
                   AiFeedback.overall_score := score |} ];
            votes := votes db |})
  end.

(* ------------------------------------------------------------------ *)
(** ** The feedback generation endpoint (generate-pitch-feedback) *)
(* ------------------------------------------------------------------ *)

Module Endpoint.

(** The handler threads the store, may throw, and leaves a journal: the
    state of the store after each write statement, oldest first. *)
Definition M (A : Type) : Type :=
  database -> (exn + A) * database * list database.

Definition ret {A : Type} (a : A) : M A :=
  fun db => (inr a, db, []).

Definition bind {A B : Type} (m : M A) (k : A -> M B) : M B :=
  fun db =>
    match m db with
    | (inl e, db1, j1) => (inl e, db1, j1)
    | (inr a, db1, j1) =>
        match k a db1 with
        | (r, db2, j2) => (r, db2, j1 ++ j2)
        end
    end.

Definition throw {A : Type} (e : exn) : M A :=
  fun db => (inl e, db, []).

(** [try { body } catch (error) { handler }] *)
Definition try_catch {A : Type} (body : M A) (handler : exn -> M A) : M A :=
  fun db =>
    match body db with
    | (inl e, db1, j1) =>
        match handler e db1 with
        | (r, db2, j2) => (r, db2, j1 ++ j2)
        end
    | (inr a, db1, j1) => (inr a, db1, j1)
    end.

Definition lift {A : Type} (r : exn + A) : M A :=
  match r with
  | inl e => throw e
  | inr a => ret a
  end.

Definition read {A : Type} (q : database -> A) : M A :=
  fun db => (inr (q db), db, []).

Definition write (f : database -> database) : M unit :=
  fun db => (inr tt, f db, [f db]).

Definition statement {A : Type} (f : database -> A * database) : M A :=
  fun db => match f db with (a, db1) => (inr a, db1, [db1]) end.

Notation "x <- m ;; k" := (bind m (fun x => k))
  (at level 61, m at next level, right associativity).
Notation "m ;;; k" := (bind m (fun _ => k))
  (at level 61, right associativity).

Record Request : Type := {
  method : string;
  text : string
}.

Inductive payload : Type :=
| no_body
| error_body (error : string)
| success_body (feedback : json).

Record Response : Type := {
  status : nat;
  body : payload
}.

Definition respond (code : nat) (b : payload) : M Response :=
  ret {| status := code; body := b |}.

Definition mockFields : list (string * json) :=
    [ ("strengths", JArr
         [ JStr "Clear problem identification and target audience definition";
           JStr "Well-articulated value proposition";
           JStr "Demonstrates understanding of market need" ]);
      ("weaknesses", JArr
         [ JStr "Could benefit from more specific metrics and data";
           JStr "Competitive landscape analysis is limited";
           JStr "Monetization strategy could be more detailed" ]);
      ("recommendations", JArr
         [ JStr "Include market size data and growth projections";
           JStr "Add more details about competitive advantages";
           JStr "Clarify go-to-market strategy and customer acquisition plan" ]);
      ("overall_score", JNum 7) ].

Definition mockFeedback : json := JObj mockFields.

(** [!openaiApiKey] holds when the variable is unset or empty. *)
Definition credential (w : World) : option string :=
  match OPENAI_API_KEY w with
  | Some (String c s) => Some (String c s)
  | Some EmptyString | None => None
  end.

Definition nl : string := String (ascii_of_nat 10) EmptyString.
Definition dq : string := String (ascii_of_nat 34) EmptyString.

Definition prompt (pitch : PitchFormData) : string :=
  String.concat EmptyString
    [ "You are an expert startup advisor and investor. Analyze the following elevator pitch and provide structured feedback.";
      nl; nl;
      "Pitch Title: "; title pitch; nl;
      "Target Audience: "; target_audience pitch; nl;
      "Problem: "; pain_point pitch; nl;
      "Solution: "; product_description pitch; nl;
      "Full Pitch: "; elevator_pitch pitch; nl; nl;
      "Please provide your feedback in the following JSON format:"; nl;
      "{"; nl;
      "  "; dq; "strengths"; dq; ": [3 specific strengths as strings],"; nl;
      "  "; dq; "weaknesses"; dq; ": [3 specific areas for improvement as strings],"; nl;
      "  "; dq; "recommendations"; dq; ": [2-3 actionable recommendations as strings],"; nl;
      "  "; dq; "overall_score"; dq; ": number from 1-10"; nl;
      "}"; nl; nl;
      "Be constructive, specific, and actionable in your feedback." ].

Definition string_of_nat (n : nat) : string :=
  NilEmpty.string_of_uint (Nat.to_uint n).

(** [String(v)]: the text a value becomes where a string is expected, as
    the filter value of [.eq('id', pitch_id)] and as the argument of
    [JSON.parse]. *)
Definition text_of (w : World) (pitch_id : jsval) : uuid :=
  match pitch_id with
  | Some (JStr s) => s
  | v => ToString w v
  end.

Definition id_is (pid : uuid) (p : Pitches.row) : bool :=
  String.eqb (Pitches.id p) pid.

Definition set_processing (w : World) (p : Pitches.row) : Pitches.row :=
  {| Pitches.id := Pitches.id p;
     Pitches.user_id := Pitches.user_id p;
     Pitches.content := Pitches.content p;
     Pitches.status := Pitches.status p;
     Pitches.created_at := Pitches.created_at p;
     Pitches.ai_processing_status := processing;
     Pitches.ai_processing_started_at := Some (now_started w);
     Pitches.ai_processing_completed_at := Pitches.ai_processing_completed_at p;
     Pitches.ai_processing_error := Pitches.ai_processing_error p |}.

Definition set_completed (w : World) (p : Pitches.row) : Pitches.row :=
  {| Pitches.id := Pitches.id p;
     Pitches.user_id := Pitches.user_id p;
     Pitches.content := Pitches.content p;
     Pitches.status := Pitches.status p;
     Pitches.created_at := Pitches.created_at p;
     Pitches.ai_processing_status := completed;
     Pitches.ai_processing_started_at := Pitches.ai_processing_started_at p;
     Pitches.ai_processing_completed_at := Some (now_completed w);
     Pitches.ai_processing_error := None |}.

(** [error.message || 'Failed to generate feedback'] *)
Definition message_or_default (error : exn) : string :=
  if String.eqb (message error) EmptyString
  then "Failed to generate feedback"
  else message error.

Definition set_failed (w : World) (error : exn) (p : Pitches.row) : Pitches.row :=
  {| Pitches.id := Pitches.id p;
     Pitches.user_id := Pitches.user_id p;
     Pitches.content := Pitches.content p;
     Pitches.status := Pitches.status p;
     Pitches.created_at := Pitches.created_at p;
     Pitches.ai_processing_status := failed;
     Pitches.ai_processing_started_at := Pitches.ai_processing_started_at p;
     Pitches.ai_processing_completed_at := Some (now_completed w);
     Pitches.ai_processing_error := Some (message_or_default error) |}.

(** Lines 94-118 and 174-201: insert the row, rethrow the insert error,
    otherwise mark the pitch completed and answer 200. *)
Definition store_feedback (w : World) (pid : uuid) (row : FeedbackInsert)
    (feedback : json) : M Response :=
  insertError <- statement (insert_ai_feedback w row) ;;
  match insertError with
  | Some e => throw e
  | None =>
      write (update_pitches (id_is pid) (set_completed w)) ;;;
      respond 200 (success_body feedback)
  end.

(** [openaiData.choices[0].message.content] (line 170). *)
Definition content_of (openaiData : json) : exn + jsval :=
  match member (Some openaiData) "choices" with
  | inl e => inl e
  | inr choices =>
      match index0 choices with
      | inl e => inl e
      | inr choice =>
          match member choice "message" with
          | inl e => inl e
          | inr msg => member msg "content"
          end
      end
  end.

(** Lines 139-172: the chat completion call and the two parses. *)
Definition ask_openai (w : World) (openaiApiKey : string) (pitch : Pitches.row)
  : M json :=
  match fetch_openai w openaiApiKey (prompt (Pitches.content pitch)) with
  | fetch_rejected msg => throw (Error msg)
  | fetch_response code responseText =>
      if negb ((200 <=? code) && (code <=? 299)) then
        throw (Error (String.concat EmptyString
                 [ "OpenAI API error: "; string_of_nat code; " - "; responseText ]))
      else
        match JSON_parse w responseText with
        | inl msg => throw (Error msg)
        | inr openaiData =>
            feedbackText <- lift (content_of openaiData) ;;
            match JSON_parse w (text_of w feedbackText) with
            | inl err => throw (Error err)
            | inr feedback => ret feedback
            end
        end
  end.

(** The object the mock branch spreads into the insert (lines 96-99). *)
Definition mock_insert (pid : uuid) : FeedbackInsert :=
  {| ins_pitch_id := pid;
     ins_strengths := assoc "strengths" mockFields;
     ins_weaknesses := assoc "weaknesses" mockFields;
     ins_recommendations := assoc "recommendations" mockFields;
     ins_overall_score := assoc "overall_score" mockFields |}.

(** The object built from the parsed feedback (lines 176-182). *)
Definition insert_of (pid : uuid) (feedback : json) : exn + FeedbackInsert :=
  match member (Some feedback) "strengths" with
  | inl e => inl e
  | inr strengths =>
      match member (Some feedback) "weaknesses" with
      | inl e => inl e
      | inr weaknesses =>
          match member (Some feedback) "recommendations" with
          | inl e => inl e
          | inr recommendations =>
              match member (Some feedback) "overall_score" with
              | inl e => inl e
              | inr overall_score =>
                  inr {| ins_pitch_id := pid;
                         ins_strengths := strengths;
                         ins_weaknesses := weaknesses;
                         ins_recommendations := recommendations;
                         ins_overall_score := overall_score |}
              end
          end
      end
  end.

(** Lines 70-201: what the handler does once the pitch is found. *)
Definition analyse (w : World) (pid : uuid) (pitch : Pitches.row) : M Response :=
  match credential w with
  | None => store_feedback w pid (mock_insert pid) mockFeedback
  | Some openaiApiKey =>
      feedback <- ask_openai w openaiApiKey pitch ;;
      row <- lift (insert_of pid feedback) ;;
      store_feedback w pid row feedback
  end.

(** The body of the [try], from the test of [pitch_id] on (lines 36-201). *)
Definition generate (w : World) (pitch_id : jsval) : M Response :=
  if negb (truthy pitch_id) then
    respond 400 (error_body "pitch_id is required")
  else
    let pid := text_of w pitch_id in
    write (update_pitches (id_is pid) (set_processing w)) ;;;
    pitch <- read (select_pitch_single pid) ;;
    match pitch with
    | None => respond 404 (error_body "Pitch not found")
    | Some pitch => analyse w pid pitch
    end.

(** The [catch] block (lines 202-232), with the value [pitch_id] holds when
    the error is caught. *)
Definition on_error (w : World) (pitch_id : jsval) (error : exn) : M Response :=
  (if truthy pitch_id
   then write (update_pitches (id_is (text_of w pitch_id)) (set_failed w error))
   else ret tt) ;;;
  respond 500 (error_body (message_or_default error)).

(** Lines 33-34: [body = await req.json(); pitch_id = body.pitch_id]. *)
Definition read_pitch_id (w : World) (req : Request) : exn + jsval :=
  match JSON_parse w (text req) with
  | inl msg => inl (Error msg)
  | inr body => member (Some body) "pitch_id"
  end.

(** The handler given to [Deno.serve]. *)
Definition serve (w : World) (req : Request) : M Response :=
  if String.eqb (method req) "OPTIONS" then respond 200 no_body
  else
    match read_pitch_id w req with
    | inl e => on_error w None e
    | inr pitch_id => try_catch (generate w pitch_id) (on_error w pitch_id)
    end.

(** What a caller observes: the response and the store afterwards. *)
Definition response_of {A : Type} (r : (exn + A) * database * list database) : exn + A :=
  fst (fst r).
Definition store_of {A : Type} (r : (exn + A) * database * list database) : database :=
  snd (fst r).
Definition journal_of {A : Type} (r : (exn + A) * database * list database) : list database :=
  snd r.

End Endpoint.

(* ------------------------------------------------------------------ *)
(** ** Store statements issued by the client, under the row policies *)
(* ------------------------------------------------------------------ *)

(** [INSERT INTO pitches] by the authenticated user [uid]: policy
    [auth.uid() = user_id], primary key on [id], the AI columns at their
    defaults.  [new_id] is what [gen_random_uuid()] returns and [created]
    what [now()] returns. *)
Definition insert_pitch (uid : uuid) (new_id : uuid) (created : timestamptz)
    (owner : uuid) (formData : PitchFormData) (st : pitch_status)
    (db : database) : option exn * database :=
  if negb (String.eqb uid owner) then (Some (rls_violation "pitches"), db)
  else if has_pitch new_id db then
    (Some (unique_violation "pitches_pkey"), db)
  else
    (None,
     {| pitches := pitches db ++
          [ {| Pitches.id := new_id;
               Pitches.user_id := owner;
               Pitches.content := formData;
               Pitches.status := st;
               Pitches.created_at := created;
               Pitches.ai_processing_status := pending;
               Pitches.ai_processing_started_at := None;
               Pitches.ai_processing_completed_at := None;
               Pitches.ai_processing_error := None |} ];
        ai_feedback := ai_feedback db;
        votes := votes db |}).

Definition set_content (formData : PitchFormData) (st : pitch_status)
    (p : Pitches.row) : Pitches.row :=
  {| Pitches.id := Pitches.id p;
     Pitches.user_id := Pitches.user_id p;
     Pitches.content := formData;
     Pitches.status := st;
     Pitches.created_at := Pitches.created_at p;
     Pitches.ai_processing_status := Pitches.ai_processing_status p;
     Pitches.ai_processing_started_at := Pitches.ai_processing_started_at p;
     Pitches.ai_processing_completed_at := Pitches.ai_processing_completed_at p;
     Pitches.ai_processing_error := Pitches.ai_processing_error p |}.

(** [.update({ ...formData, status }).eq('id', draftId)] by [uid]: the policy
    [USING (auth.uid() = user_id)] hides the rows of other users. *)
Definition update_pitch (uid : uuid) (draftId : uuid) (formData : PitchFormData)
    (st : pitch_status) (db : database) : database :=
  update_pitches
    (fun p => String.eqb (Pitches.id p) draftId && String.eqb (Pitches.user_id p) uid)
    (set_content formData st) db.

Definition vote_is (pid uid : uuid) (v : Votes.row) : bool :=
  String.eqb (Votes.pitch_id v) pid && String.eqb (Votes.user_id v) uid.

Definition has_vote (pid uid : uuid) (db : database) : bool :=
  existsb (vote_is pid uid) (votes db).

Definition owns (uid pid : uuid) (db : database) : bool :=
  existsb
    (fun p => String.eqb (Pitches.id p) pid && String.eqb (Pitches.user_id p) uid)
    (pitches db).

(** [INSERT INTO votes] by [uid]: policy "Users can insert votes on others'
    pitches", then [UNIQUE(pitch_id, user_id)], then the foreign key. *)
Definition insert_vote (uid : uuid) (v : Votes.row) (db : database)
  : option exn * database :=
  if negb (String.eqb uid (Votes.user_id v) && negb (owns uid (Votes.pitch_id v) db))
  then (Some (rls_violation "votes"), db)
  else if has_vote (Votes.pitch_id v) (Votes.user_id v) db then
    (Some (unique_violation "votes_pitch_id_user_id_key"), db)
  else if negb (has_pitch (Votes.pitch_id v) db) then
    (Some (foreign_key_violation "votes" "votes_pitch_id_fkey"), db)
  else
    (None,
     {| pitches := pitches db;
        ai_feedback := ai_feedback db;
        votes := votes db ++ [v] |}).

(** [.update({ vote_type }).eq('pitch_id', pid).eq('user_id', uid)] by [uid]. *)
Definition update_vote (uid : uuid) (pid : uuid) (vote_user : uuid)
    (voteType : vote_type_t) (db : database) : database :=
  {| pitches := pitches db;
     ai_feedback := ai_feedback db;
     votes :=
       map (fun v =>
              if vote_is pid vote_user v && String.eqb (Votes.user_id v) uid
              then {| Votes.pitch_id := Votes.pitch_id v;
                      Votes.user_id := Votes.user_id v;
                      Votes.vote_type := voteType |}
              else v)
           (votes db) |}.

(** The two data UPDATEs of the add_ai_processing_status migration. *)
Definition status_migration (db : database) : database :=
  let with_status (s : processing_status) (completed_at : option timestamptz)
      (err : option string) (p : Pitches.row) : Pitches.row :=
    {| Pitches.id := Pitches.id p;
       Pitches.user_id := Pitches.user_id p;
       Pitches.content := Pitches.content p;
       Pitches.status := Pitches.status p;
       Pitches.created_at := Pitches.created_at p;
       Pitches.ai_processing_status := s;
       Pitches.ai_processing_started_at := Pitches.ai_processing_started_at p;
       Pitches.ai_processing_completed_at := completed_at;
       Pitches.ai_processing_error := err |} in
  let db1 :=
    update_pitches
      (fun p => pitch_status_eqb (Pitches.status p) published
                && has_feedback (Pitches.id p) db
                && processing_status_eqb (Pitches.ai_processing_status p) pending)
      (fun p => with_status completed (Some (Pitches.created_at p))
                  (Pitches.ai_processing_error p) p)
      db in
  update_pitches
    (fun p => pitch_status_eqb (Pitches.status p) published
              && negb (has_feedback (Pitches.id p) db1)
              && processing_status_eqb (Pitches.ai_processing_status p) pending)
    (fun p => with_status failed (Pitches.ai_processing_completed_at p)
                (Some "AI feedback generation was not completed. Please retry.") p)
    db1.

(* ------------------------------------------------------------------ *)
(** ** PitchSubmissionForm *)
(* ------------------------------------------------------------------ *)

Module SubmissionForm.

(** Text is taken as a sequence of 8-bit code units; [is_ws] is the
    ECMAScript WhiteSpace and LineTerminator set below 256, the set both
    [trim()] and the regular expression class [\s] use. *)
Definition is_ws (c : ascii) : bool :=
  let n := nat_of_ascii c in
  (n =? 9) || (n =? 10) || (n =? 11) || (n =? 12) || (n =? 13)
  || (n =? 32) || (n =? 160).

Fixpoint drop_ws (s : list ascii) : list ascii :=
  match s with
  | [] => []
  | c :: rest => if is_ws c then drop_ws rest else s
  end.

(** [s.trim()] *)
Definition trim (s : list ascii) : list ascii :=
  rev (drop_ws (rev (drop_ws s))).

(** [s.split(/\s+/)]: the pieces between the maximal runs of white space;
    a run at either end leaves an empty piece there, and the empty string
    gives one empty piece. *)
Fixpoint split_ws (s : list ascii) : list (list ascii) :=
  match s with
  | [] => [[]]
  | c :: rest =>
      if is_ws c then
        match rest with
        | c' :: _ => if is_ws c' then split_ws rest else [] :: split_ws rest
        | [] => [] :: split_ws rest
        end
      else
        match split_ws rest with
        | piece :: pieces => (c :: piece) :: pieces
        | [] => [[c]]
        end
  end.

Record state : Type := {
  step : nat;
  loading : bool;
  draftId : option uuid;
  formData : PitchFormData
}.

Definition totalSteps : nat := 5.

Definition filled (field : string) : bool :=
  0 <? List.length (trim (list_ascii_of_string field)).

Definition isStepValid (s : state) : bool :=
  match step s with
  | 1 => filled (title (formData s))
  | 2 => filled (target_audience (formData s))
  | 3 => filled (pain_point (formData s))
  | 4 => filled (product_description (formData s))
  | 5 =>
      let wordCount :=
        List.length (split_ws (trim (list_ascii_of_string (elevator_pitch (formData s))))) in
      (250 <=? wordCount) && (wordCount <=? 500)
  | _ => false
  end.

Definition getWordCount (s : state) : nat :=
  List.length
    (filter (fun word => 0 <? List.length word)
       (split_ws (trim (list_ascii_of_string (elevator_pitch (formData s)))))).

(** What a handler of the form starts. *)
Inductive effect : Type :=
| call_saveDraft (current : option uuid) (data : PitchFormData)
| call_handleSubmit (current : option uuid) (data : PitchFormData).

Definition handleNext (s : state) : list effect * state :=
  if step s <? totalSteps then
    ([call_saveDraft (draftId s) (formData s)],
     {| step := step s + 1; loading := loading s;
        draftId := draftId s; formData := formData s |})
  else
    ([call_saveDraft (draftId s) (formData s);
      call_handleSubmit (draftId s) (formData s)],
     {| step := step s; loading := true;
        draftId := draftId s; formData := formData s |}).

(** [disabled={!isStepValid() || loading}] *)
Definition button_disabled (s : state) : bool :=
  negb (isStepValid s) || loading s.

(** A click on the button at the bottom of the form: a disabled button
    does not fire [onClick]. *)
Definition click (s : state) : list effect * state :=
  if button_disabled s then ([], s) else handleNext s.

(** [saveDraft] on the store (lines 71-102), for the signed-in user. *)
Definition saveDraft (uid new_id : uuid) (created : timestamptz)
    (current : option uuid) (data : PitchFormData) (db : database) : database :=
  match current with
  | Some d => update_pitch uid d data draft db
  | None => snd (insert_pitch uid new_id created uid data draft db)
  end.

(** The store part of [handleSubmit] (lines 109-134): publish the draft, or
    insert the pitch as published.  The pitch id it yields is then posted to
    the feedback endpoint. *)
Definition publish (uid new_id : uuid) (created : timestamptz)
    (current : option uuid) (data : PitchFormData) (db : database)
  : option uuid * database :=
  match current with
  | Some d => (Some d, update_pitch uid d data published db)
  | None =>
      match insert_pitch uid new_id created uid data published db with
      | (Some _, db1) => (None, db1)
      | (None, db1) => (Some new_id, db1)
      end
  end.

End SubmissionForm.

(* ------------------------------------------------------------------ *)
(** ** Reading votes and feedback (shared by the views) *)
(* ------------------------------------------------------------------ *)

Module VoteCounts.
Record t : Type := {
  interesting : nat;
  needs_work : nat
}.
End VoteCounts.

(** [supabase.from('votes').select('vote_type').eq('pitch_id', pid)] and the
    two [filter(...).length]. *)
Definition count_votes (pid : uuid) (db : database) : VoteCounts.t :=
  let votes_of_pitch :=
    filter (fun v => String.eqb (Votes.pitch_id v) pid) (votes db) in
  {| VoteCounts.interesting :=
       List.length (filter (fun v => vote_type_eqb (Votes.vote_type v) interesting) votes_of_pitch);
     VoteCounts.needs_work :=
       List.length (filter (fun v => vote_type_eqb (Votes.vote_type v) needs_work) votes_of_pitch) |}.

(** [.maybeSingle()]: the row when exactly one matches, no data otherwise. *)
Definition maybeSingle {A : Type} (rows : list A) : option A :=
  match rows with
  | [r] => Some r
  | _ => None
  end.

Definition feedback_of (pid : uuid) (db : database) : option AiFeedback.row :=
  maybeSingle (filter (fun f => String.eqb (AiFeedback.pitch_id f) pid) (ai_feedback db)).

(** The policies "Users can view published pitches" and "Users can view own
    drafts". *)
Definition can_view (user : uuid) (p : Pitches.row) : bool :=
  pitch_status_eqb (Pitches.status p) published || String.eqb (Pitches.user_id p) user.

(* ------------------------------------------------------------------ *)
(** ** PitchDetailView *)
(* ------------------------------------------------------------------ *)

Module PitchDetailView.

(** The [ai_feedback] of the view. *)
Record AiFeedbackView : Type := {
  strengths : list json;
  weaknesses : list json;
  recommendations : list json;
  overall_score : option Z
}.

(** [Array.isArray(v) ? v : []] *)
Definition array_or_empty (v : json) : list json :=
  match v with
  | JArr items => items
  | _ => []
  end.

(** Lines 110-117: what the view keeps of a feedback row. *)
Definition aiFeedback (data : AiFeedback.row) : AiFeedbackView :=
  {| strengths := array_or_empty (AiFeedback.strengths data);
     weaknesses := array_or_empty (AiFeedback.weaknesses data);
     recommendations := array_or_empty (AiFeedback.recommendations data);
     overall_score := AiFeedback.overall_score data |}.

Record PitchDetail : Type := {
  pitchData : Pitches.row;
  vote_counts : VoteCounts.t;
  ai_feedback : option AiFeedbackView;
  user_vote : option vote_type_t
}.

(** [loadPitchDetail]: [None] when the pitch query fails, in which case the
    view keeps what it showed before. *)
Definition loadPitchDetail (user : uuid) (pitchId : uuid) (db : database)
  : option PitchDetail :=
  match filter (fun p => String.eqb (Pitches.id p) pitchId && can_view user p) (pitches db) with
  | [p] =>
      Some {| pitchData := p;
              vote_counts := count_votes pitchId db;
              ai_feedback := option_map aiFeedback (feedback_of pitchId db);
              user_vote :=
                option_map Votes.vote_type
                  (maybeSingle (filter (vote_is pitchId user) (votes db))) |}
  | _ => None
  end.

(** [handleVote] (lines 132-157) on the store; the view it decides on is the
    component's [pitch] state. *)
Definition handleVote (user : option uuid) (pitch : option PitchDetail)
    (voting : bool) (pitchId : uuid) (voteType : vote_type_t) (db : database)
  : database :=
  match user, pitch with
  | Some u, Some p =>
      if String.eqb (Pitches.user_id (pitchData p)) u || voting then db
      else
        match user_vote p with
        | Some _ => update_vote u pitchId u voteType db
        | None =>
            snd (insert_vote u
                   {| Votes.pitch_id := pitchId;
                      Votes.user_id := u;
                      Votes.vote_type := voteType |} db)
        end
  | _, _ => db
  end.

End PitchDetailView.

(* ------------------------------------------------------------------ *)
(** ** DiscoverFeed *)
(* ------------------------------------------------------------------ *)

Module DiscoverFeed.

(** [handleVote] (lines 274-301) on the store: an insert, whose error is only
    logged. *)
Definition handleVote (user : option uuid) (feed : list Pitches.row)
    (currentIndex : nat) (voting : bool) (voteType : vote_type_t)
    (db : database) : database :=
  match user with
  | None => db
  | Some u =>
      if (List.length feed <=? currentIndex) || voting then db
      else
        match nth_error feed currentIndex with
        | None => db
        | Some currentPitch =>
            snd (insert_vote u
                   {| Votes.pitch_id := Pitches.id currentPitch;
                      Votes.user_id := u;
                      Votes.vote_type := voteType |} db)
        end
  end.

End DiscoverFeed.

(* ------------------------------------------------------------------ *)
(** ** Leaderboard *)
(* ------------------------------------------------------------------ *)

(** [Array.prototype.sort(compare)]: a stable sort; [x] goes before [y]
    unless [compare x y > 0]. *)
Fixpoint sort_insert {A : Type} (compare : A -> A -> Z) (x : A) (l : list A)
  : list A :=
  match l with
  | [] => [x]
  | y :: rest =>
      if (compare x y <=? 0)%Z then x :: l
      else y :: sort_insert compare x rest
  end.

Definition array_sort {A : Type} (compare : A -> A -> Z) (l : list A) : list A :=
  fold_right (sort_insert compare) [] l.

(** [pitch.title] and [pitch.product_description] of a row. *)
Definition pitch_title (pitch : Pitches.row) : string :=
  title (Pitches.content pitch).
Definition pitch_product_description (pitch : Pitches.row) : string :=
  product_description (Pitches.content pitch).

Module Leaderboard.

Inductive filter_t : Type := all | today | week.

(** The two dates the filters compute in the browser's time zone: [today]
    after [setHours(0, 0, 0, 0)] and [weekAgo] after
    [setDate(getDate() - 7)]. *)
Record Dates : Type := {
  today_midnight : timestamptz;
  week_ago : timestamptz
}.

Record LeaderboardPitch : Type := {
  id : uuid;
  title : string;
  product_description : string;
  vote_counts : VoteCounts.t;
  ai_score : option Z;
  rank : nat
}.

(** The condition of the query of lines 465-478. *)
Definition passes (d : Dates) (f : filter_t) (p : Pitches.row) : bool :=
  pitch_status_eqb (Pitches.status p) published
  && match f with
     | all => true
     | today => (today_midnight d <=? Pitches.created_at p)%Z
     | week => (week_ago d <=? Pitches.created_at p)%Z
     end.

Definition with_data (db : database) (pitch : Pitches.row) : LeaderboardPitch :=
  {| id := Pitches.id pitch;
     title := pitch_title pitch;
     product_description := pitch_product_description pitch;
     vote_counts := count_votes (Pitches.id pitch) db;
     ai_score :=
       match feedback_of (Pitches.id pitch) db with
       | Some f => AiFeedback.overall_score f
       | None => None
       end;
     rank := 0 |}.

Definition by_interesting (a b : LeaderboardPitch) : Z :=
  (Z.of_nat (VoteCounts.interesting (vote_counts b))
   - Z.of_nat (VoteCounts.interesting (vote_counts a)))%Z.

(** [.map((pitch, index) => ({ ...pitch, rank: index + 1 }))], from [index]. *)
Fixpoint with_ranks (index : nat) (l : list LeaderboardPitch)
  : list LeaderboardPitch :=
  match l with
  | [] => []
  | pitch :: rest =>
      {| id := id pitch;
         title := title pitch;
         product_description := product_description pitch;
         vote_counts := vote_counts pitch;
         ai_score := ai_score pitch;
         rank := index + 1 |} :: with_ranks (S index) rest
  end.

(** The query has no ORDER BY: its answer holds the rows that pass, in an
    order of the database's choice. *)
Definition query_answer (d : Dates) (f : filter_t) (db : database)
    (pitchData : list Pitches.row) : Prop :=
  Permutation pitchData (filter (passes d f) (pitches db)).

(** One such answer: the rows as the store lists them. *)
Definition query (d : Dates) (f : filter_t) (db : database) : list Pitches.row :=
  filter (passes d f) (pitches db).

(** [loadLeaderboard]: the list given to [setPitches], from the answer
    [pitchData] of the query. *)
Definition loadLeaderboard (pitchData : list Pitches.row) (db : database)
  : list LeaderboardPitch :=
  let pitchesWithData := map (with_data db) pitchData in
  firstn 20 (with_ranks 0 (array_sort by_interesting pitchesWithData)).

(** JavaScript numbers are IEEE 754 doubles: [spec_float] with 53 bits of
    precision and the exponent bound 1024, operations rounded to the
    nearest, ties to even. *)
Definition number : Type := spec_float.
Definition divide (x y : number) : number := SFdiv 53 1024 x y.
Definition times (x y : number) : number := SFmul 53 1024 x y.

(** The number that a count or an integer literal is. *)
Definition of_integer (n : Z) : number := binary_normalize 53 1024 n 0 false.

(** What [Math.round] returns: an integer (the sign of a zero is dropped),
    NaN, or an infinity. *)
Inductive rounded : Type :=
| Integer (n : Z)
| NaN
| Infinite (negative : bool).

(** [Math.round]: the integer closest to the value of the double, the
    larger one of two that are equally close; that is the floor of the
    value plus one half, taken exactly. *)
Definition Math_round (x : number) : rounded :=
  match x with
  | S754_zero _ => Integer 0
  | S754_nan => NaN
  | S754_infinity s => Infinite s
  | S754_finite s m e =>
      let v := if s then Zneg m else Zpos m in
      match e with
      | Zneg k => Integer ((2 * v + 2 ^ Zpos k) / (2 * 2 ^ Zpos k))
      | _ => Integer (v * 2 ^ e)
      end
  end.

(** [interesting + needs_work || 1] *)
Definition denominator (c : VoteCounts.t) : nat :=
  match VoteCounts.interesting c + VoteCounts.needs_work c with
  | 0 => 1
  | S n => S n
  end.

(** [Math.round((interesting / divisor) * 100)] *)
Definition percent (interesting divisor : nat) : rounded :=
  Math_round
    (times (divide (of_integer (Z.of_nat interesting)) (of_integer (Z.of_nat divisor)))
       (of_integer 100)).

(** The number shown before "% positive" (lines 635-639). *)
Definition percent_positive (pitch : LeaderboardPitch) : rounded :=
  percent (VoteCounts.interesting (vote_counts pitch)) (denominator (vote_counts pitch)).

End Leaderboard.

(* ------------------------------------------------------------------ *)
(** ** The system: every statement the code sends to the store *)
(* ------------------------------------------------------------------ *)

(** One action is one call of a handler, with the inputs it reads from the
    component state and from the world.  A call runs to its end before the
    next one starts.  The view state a voting handler acts on is an
    argument of its own, so that it may be older than the store. *)

Inductive action : Type :=
| SaveDraft (uid new_id : uuid) (created : timestamptz)
    (current : option uuid) (data : PitchFormData)
| Publish (uid new_id : uuid) (created : timestamptz)
    (current : option uuid) (data : PitchFormData)
| InvokeEndpoint (w : World) (req : Endpoint.Request)
| DetailVote (user : option uuid) (pitch : option PitchDetailView.PitchDetail)
    (voting : bool) (pitchId : uuid) (voteType : vote_type_t)
| FeedVote (user : option uuid) (feed : list Pitches.row) (currentIndex : nat)
    (voting : bool) (voteType : vote_type_t)
| StatusMigration.

Definition step (a : action) (db : database) : database :=
  match a with
  | SaveDraft uid new_id created current data =>
      SubmissionForm.saveDraft uid new_id created current data db
  | Publish uid new_id created current data =>
      snd (SubmissionForm.publish uid new_id created current data db)
  | InvokeEndpoint w req => Endpoint.store_of (Endpoint.serve w req db)
  | DetailVote user pitch voting pitchId voteType =>
      PitchDetailView.handleVote user pitch voting pitchId voteType db
  | FeedVote user feed currentIndex voting voteType =>
      DiscoverFeed.handleVote user feed currentIndex voting voteType db
  | StatusMigration => status_migration db
  end.

Definition run (trace : list action) (db : database) : database :=
  fold_left (fun d a => step a d) trace db.

(** The stores the code can produce, starting from empty tables. *)
Definition reachable (db : database) : Prop :=
  exists trace, db = run trace empty_database.

Definition count_feedback (pid : uuid) (db : database) : nat :=
  List.length
    (filter (fun f => String.eqb (AiFeedback.pitch_id f) pid) (ai_feedback db)).

Definition count_vote_rows (pid uid : uuid) (db : database) : nat :=
  List.length (filter (vote_is pid uid) (votes db)).

(** The AI-processing status of the pitch [pid], when the store has it. *)
Definition ai_status_of (pid : uuid) (db : database) : option processing_status :=
  option_map Pitches.ai_processing_status (select_pitch_single pid db).

(* ------------------------------------------------------------------ *)
(** ** Sample worlds and stores *)
(* ------------------------------------------------------------------ *)

Module Sample.

(** The text [JSON.stringify({ pitch_id })] of the callers. *)
Definition body_with (pid : string) : string :=
  String.concat EmptyString
    [ "{"; Endpoint.dq; "pitch_id"; Endpoint.dq; ":";
      Endpoint.dq; pid; Endpoint.dq; "}" ].

Definition completion (content : json) : json :=
  JObj [ ("choices", JArr [ JObj [ ("message", JObj [ ("content", content) ]) ] ]) ].

Definition good_feedback : json :=
  JObj [ ("strengths", JArr [ JStr "a"; JStr "b"; JStr "c" ]);
         ("weaknesses", JArr [ JStr "d"; JStr "e"; JStr "f" ]);
         ("recommendations", JArr [ JStr "g"; JStr "h" ]);
         ("overall_score", JNum 8) ].

(** A parser that knows the few texts the samples use. *)
Definition parse (s : string) : string + json :=
  if String.eqb s (body_with "p1") then inr (JObj [ ("pitch_id", JStr "p1") ])
  else if String.eqb s (body_with "p9") then inr (JObj [ ("pitch_id", JStr "p9") ])
  else if String.eqb s "{}" then inr (JObj [])
  else if String.eqb s "completion" then inr (completion (JStr "feedback"))
  else if String.eqb s "garbled completion" then inr (completion (JStr "not json"))
  else if String.eqb s "feedback" then inr good_feedback
  else inl "Unexpected token in JSON".

Definition world (key : option string) (reply : fetch_result) : World :=
  {| OPENAI_API_KEY := key;
     JSON_parse := parse;
     ToString := fun _ => "undefined";
     JSON_stringify := fun _ => "null";
     fetch_openai := fun _ _ => reply;
     now_started := 1000%Z;
     now_completed := 2000%Z;
     int4_in := fun _ => None |}.

Definition offline : World := world None (fetch_rejected "no network").

Definition post (pid : string) : Endpoint.Request :=
  {| Endpoint.method := "POST"; Endpoint.text := body_with pid |}.

Definition data1 : PitchFormData :=
  {| title := "EcoTrack";
     target_audience := "shoppers";
     pain_point := "research takes time";
     product_description := "a scanner";
     elevator_pitch := "Imagine" |}.

Definition pitch1 (s : processing_status) : Pitches.row :=
  {| Pitches.id := "p1";
     Pitches.user_id := "u1";
     Pitches.content := data1;
     Pitches.status := published;
     Pitches.created_at := 500%Z;
     Pitches.ai_processing_status := s;
     Pitches.ai_processing_started_at := None;
     Pitches.ai_processing_completed_at := None;
     Pitches.ai_processing_error := None |}.

Definition feedback1 : AiFeedback.row :=
  {| AiFeedback.pitch_id := "p1";
     AiFeedback.strengths := JArr [ JStr "a" ];
     AiFeedback.weaknesses := JArr [ JStr "b" ];
     AiFeedback.recommendations := JArr [ JStr "c" ];
     AiFeedback.overall_score := Some 6%Z |}.

(** One published pitch, not yet analysed. *)
Definition fresh : database :=
  {| pitches := [ pitch1 pending ]; ai_feedback := []; votes := [] |}.

(** The same pitch after a successful analysis. *)
Definition analysed : database :=
  {| pitches := [ pitch1 completed ]; ai_feedback := [ feedback1 ]; votes := [] |}.

Definition vote1 (t : vote_type_t) : Votes.row :=
  {| Votes.pitch_id := "p1"; Votes.user_id := "u2"; Votes.vote_type := t |}.

(** The pitch of u1 with one vote of u2. *)
Definition voted : database :=
  {| pitches := [ pitch1 pending ]; ai_feedback := []; votes := [ vote1 interesting ] |}.

End Sample.

(* ------------------------------------------------------------------ *)
(** ** Specification vocabulary *)
(* ------------------------------------------------------------------ *)

(** Hoare triples for the handler's monad: from a store satisfying [P],
    every store the run passes through (its journal) satisfies [J], a
    normal return with [a] leaves a store satisfying [Q a], and a throw of
    [e] leaves one satisfying [E e]. *)
Definition triple {A : Type} (J P : database -> Prop) (m : Endpoint.M A)
    (Q : A -> database -> Prop) (E : exn -> database -> Prop) : Prop :=
  forall db, P db ->
    match m db with
    | (inr a, db1, j) => Forall J j /\ Q a db1
    | (inl e, db1, j) => Forall J j /\ E e db1
    end.

(** The stores the system passes through: the ones the code can produce,
    and, between two of them, the ones a run of the handler leaves after
    each of its write statements. *)
Definition visited (db : database) : Prop :=
  reachable db
  \/ exists db0 w req,
       reachable db0 /\ In db (Endpoint.journal_of (Endpoint.serve w req db0)).

(** No AI credential is configured: the variable is unset or empty. *)
Definition credential_absent (w : World) : Prop :=
  Endpoint.credential w = None.

(** What the caller and the store see when a run for the pitch [pid] has
    failed with [e]: a 500 carrying the error text, the pitch marked failed
    with the same text recorded. *)
Definition failed_outcome (w : World) (req : Endpoint.Request) (db : database)
    (pid : uuid) (e : exn) : Prop :=
  Endpoint.response_of (Endpoint.serve w req db)
  = inr {| Endpoint.status := 500;
           Endpoint.body := Endpoint.error_body (Endpoint.message_or_default e) |}
  /\ exists p,
       select_pitch_single pid (Endpoint.store_of (Endpoint.serve w req db)) = Some p
       /\ Pitches.ai_processing_status p = failed
       /\ Pitches.ai_processing_error p = Some (Endpoint.message_or_default e).

(** The same with the text written out: the caller gets a 500 whose body is
    [{ error: text }], and the pitch [pid] is marked failed with [text] in
    [ai_processing_error] and the time of the failure in
    [ai_processing_completed_at]. *)
Definition reported_failure (w : World) (req : Endpoint.Request) (db : database)
    (pid : uuid) (text : string) : Prop :=
  Endpoint.response_of (Endpoint.serve w req db)
  = inr {| Endpoint.status := 500; Endpoint.body := Endpoint.error_body text |}
  /\ exists p,
       select_pitch_single pid (Endpoint.store_of (Endpoint.serve w req db)) = Some p
       /\ Pitches.ai_processing_status p = failed
       /\ Pitches.ai_processing_error p = Some text
       /\ Pitches.ai_processing_completed_at p = Some (now_completed w).

(** [UNIQUE(pitch_id)] on ai_feedback, and a feedback row behind every
    completed pitch. *)
Definition feedback_ok (db : database) : Prop :=
  NoDup (map AiFeedback.pitch_id (ai_feedback db))
  /\ forall p, In p (pitches db) ->
       Pitches.ai_processing_status p = completed ->
       has_feedback (Pitches.id p) db = true.

Definition vote_key (v : Votes.row) : uuid * uuid :=
  (Votes.pitch_id v, Votes.user_id v).

Definition owner_key (p : Pitches.row) : uuid * uuid :=
  (Pitches.id p, Pitches.user_id p).

(** [UNIQUE(pitch_id, user_id)] on votes, no vote whose voter owns the pitch,
    and the foreign key from votes to pitches. *)
Definition votes_ok (db : database) : Prop :=
  NoDup (map vote_key (votes db))
  /\ (forall v, In v (votes db) ->
        ~ In (vote_key v) (map owner_key (pitches db)))
  /\ (forall v, In v (votes db) ->
        In (Votes.pitch_id v) (map fst (map owner_key (pitches db)))).

Definition keeps_id (set : Pitches.row -> Pitches.row) : Prop :=
  forall p, Pitches.id (set p) = Pitches.id p.

(** The row the mock branch inserts for the pitch [pid]. *)
Definition mock_row (pid : uuid) : AiFeedback.row :=
  {| AiFeedback.pitch_id := pid;
     AiFeedback.strengths := JArr
       [ JStr "Clear problem identification and target audience definition";
         JStr "Well-articulated value proposition";
         JStr "Demonstrates understanding of market need" ];
     AiFeedback.weaknesses := JArr
       [ JStr "Could benefit from more specific metrics and data";
         JStr "Competitive landscape analysis is limited";
         JStr "Monetization strategy could be more detailed" ];
     AiFeedback.recommendations := JArr
       [ JStr "Include market size data and growth projections";
         JStr "Add more details about competitive advantages";
         JStr "Clarify go-to-market strategy and customer acquisition plan" ];
     AiFeedback.overall_score := Some 7%Z |}.

Definition add_feedback (r : AiFeedback.row) (db : database) : database :=
  {| pitches := pitches db;
     ai_feedback := ai_feedback db ++ [r];
     votes := votes db |}.

Definition mark (pid : uuid) (set : Pitches.row -> Pitches.row) (db : database)
  : database :=
  update_pitches (Endpoint.id_is pid) set db.

(** The completion is malformed when the response text is not JSON, or the
    content it carries is not JSON. *)
Definition malformed (w : World) (txt : string) (msg : string) : Prop :=
  JSON_parse w txt = inl msg
  \/ exists data content,
       JSON_parse w txt = inr data
       /\ Endpoint.content_of data = inr content
       /\ JSON_parse w (Endpoint.text_of w content) = inl msg.

(** The insert the run performs, when it gets that far. *)
Definition reaches_insert (w : World) (pid : uuid) (pitch : Pitches.row)
    (db : database) (row : FeedbackInsert) : Prop :=
  (Endpoint.credential w = None /\ row = Endpoint.mock_insert pid)
  \/ exists key feedback,
       Endpoint.credential w = Some key
       /\ Endpoint.ask_openai w key pitch db = (inr feedback, db, [])
       /\ Endpoint.insert_of pid feedback = inr row.

(** The id and the AI-processing status of a row. *)
Definition id_status (p : Pitches.row) : uuid * processing_status :=
  (Pitches.id p, Pitches.ai_processing_status p).

(** The statements the React components send to the store themselves. *)
Definition client_statement (a : action) : Prop :=
  match a with
  | SaveDraft _ _ _ _ _ | Publish _ _ _ _ _
  | DetailVote _ _ _ _ _ | FeedVote _ _ _ _ _ => True
  | InvokeEndpoint _ _ | StatusMigration => False
  end.

(** The two voting operations. *)
Definition vote_action (a : action) : Prop :=
  match a with
  | DetailVote _ _ _ _ _ | FeedVote _ _ _ _ _ => True
  | _ => False
  end.

Definition add_vote (v : Votes.row) (db : database) : database :=
  {| pitches := pitches db; ai_feedback := ai_feedback db; votes := votes db ++ [v] |}.

(** The vote rows of [db] with the type of the row of ([pid], [uid]) set. *)
Definition retyped (pid uid : uuid) (voteType : vote_type_t) (db : database)
  : list Votes.row :=
  map (fun v =>
         if vote_is pid uid v
         then {| Votes.pitch_id := Votes.pitch_id v;
                 Votes.user_id := Votes.user_id v;
                 Votes.vote_type := voteType |}
         else v)
      (votes db).

(** The "interesting" count of a leaderboard entry, and the order the
    leaderboard promises: no entry before one with more interesting votes. *)
Definition interesting_votes (e : Leaderboard.LeaderboardPitch) : nat :=
  VoteCounts.interesting (Leaderboard.vote_counts e).



(** A text that starts, and one that ends, with a character that is not
    white space. *)
Definition starts_nonws (s : list ascii) : Prop :=
  match s with
  | c :: _ => SubmissionForm.is_ws c = false
  | [] => False
  end.

Fixpoint ends_nonws (s : list ascii) : Prop :=
  match s with
  | [] => False
  | c :: rest =>
      match rest with
      | [] => SubmissionForm.is_ws c = false
      | _ :: _ => ends_nonws rest
      end
  end.

Definition nonempty (word : list ascii) : bool := 0 <? List.length word.

(* ------------------------------------------------------------------ *)
(** ** Scenarios *)
(* ------------------------------------------------------------------ *)

Module Scenario.

(** u1 submits a pitch while no credential is configured. *)
Definition submit_offline : list action :=
  [ Publish "u1" "p1" 500%Z None Sample.data1;
    InvokeEndpoint Sample.offline (Sample.post "p1") ].

Definition after_submit : database := run submit_offline empty_database.

(** u2 then swipes right on it in the feed. *)
Definition swipe : list action :=
  submit_offline
  ++ [ FeedVote (Some "u2") [ Sample.pitch1 completed ] 0 false interesting ].

Definition after_swipe : database := run swipe empty_database.

(** The form on its last step, with a pitch of one word. *)
Definition short_form : SubmissionForm.state :=
  {| SubmissionForm.step := 5;
     SubmissionForm.loading := false;
     SubmissionForm.draftId := None;
     SubmissionForm.formData := Sample.data1 |}.

(** The same form with a pitch of [n] words. *)
Definition form_with_words (n : nat) : SubmissionForm.state :=
  {| SubmissionForm.step := 5;
     SubmissionForm.loading := false;
     SubmissionForm.draftId := Some "p1";
     SubmissionForm.formData :=
       {| title := "EcoTrack";
          target_audience := "shoppers";
          pain_point := "research takes time";
          product_description := "a scanner";
          elevator_pitch := String.concat " " (repeat "word" n) |} |}.

(** Three published pitches and five votes. *)
Definition pitch_of (pid owner : uuid) (created : timestamptz) : Pitches.row :=
  {| Pitches.id := pid;
     Pitches.user_id := owner;
     Pitches.content := Sample.data1;
     Pitches.status := published;
     Pitches.created_at := created;
     Pitches.ai_processing_status := pending;
     Pitches.ai_processing_started_at := None;
     Pitches.ai_processing_completed_at := None;
     Pitches.ai_processing_error := None |}.

Definition vote_of (pid voter : uuid) (t : vote_type_t) : Votes.row :=
  {| Votes.pitch_id := pid; Votes.user_id := voter; Votes.vote_type := t |}.

Definition arena : database :=
  {| pitches := [ pitch_of "a" "u1" 100%Z; pitch_of "b" "u2" 900%Z; pitch_of "c" "u3" 950%Z ];
     ai_feedback := [];
     votes := [ vote_of "a" "u2" interesting; vote_of "b" "u1" interesting;
                vote_of "b" "u3" interesting; vote_of "b" "u4" needs_work;
                vote_of "a" "u3" needs_work ] |}.

Definition dates : Leaderboard.Dates :=
  {| Leaderboard.today_midnight := 800%Z; Leaderboard.week_ago := 50%Z |}.

(** The same three pitches before anyone has voted. *)
Definition quiet : database :=
  {| pitches := pitches arena; ai_feedback := []; votes := [] |}.

(** The endpoint is invoked once more for the same pitch. *)
Definition invoke_again : action :=
  InvokeEndpoint Sample.offline (Sample.post "p1").

End Scenario.

(* ------------------------------------------------------------------ *)
(** ** Further vocabulary: what the handler leaves alone, and what the
       AI service has to answer for a run to succeed *)
(* ------------------------------------------------------------------ *)

(** The columns of a pitch that are not about AI processing. *)
Definition pitch_data (p : Pitches.row)
  : uuid * uuid * PitchFormData * pitch_status * timestamptz :=
  (Pitches.id p, Pitches.user_id p, Pitches.content p, Pitches.status p,
   Pitches.created_at p).

(** An update that only touches the AI-processing columns. *)
Definition ai_columns_only (set : Pitches.row -> Pitches.row) : Prop :=
  forall p, pitch_data (set p) = pitch_data p.

(** The chat completion call answers 2xx with a body that parses and whose
    [choices[0].message.content] parses to [feedback]. *)
Definition completion_gives (w : World) (key : string) (pitch : Pitches.row)
    (feedback : json) : Prop :=
  exists code txt data content,
    fetch_openai w key (Endpoint.prompt (Pitches.content pitch)) = fetch_response code txt
    /\ 200 <= code <= 299
    /\ JSON_parse w txt = inr data
    /\ Endpoint.content_of data = inr content
    /\ JSON_parse w (Endpoint.text_of w content) = inr feedback.

(** The row an accepted insert adds. *)
Definition stored_row (ins : FeedbackInsert) (score : option Z) : AiFeedback.row :=
  {| AiFeedback.pitch_id := ins_pitch_id ins;
     AiFeedback.strengths := jsonb_or_default (ins_strengths ins);
     AiFeedback.weaknesses := jsonb_or_default (ins_weaknesses ins);
     AiFeedback.recommendations := jsonb_or_default (ins_recommendations ins);
     AiFeedback.overall_score := score |}.

(** [CHECK (overall_score >= 1 AND overall_score <= 10)] on a stored row. *)
Definition score_in_range (r : AiFeedback.row) : Prop :=
  match AiFeedback.overall_score r with
  | None => True
  | Some n => (1 <= n <= 10)%Z
  end.

(** The primary key of pitches. *)
Definition pitch_ids_unique (db : database) : Prop :=
  NoDup (map Pitches.id (pitches db)).

(** The check constraint and the foreign key of ai_feedback. *)
Definition feedback_rows_ok (db : database) : Prop :=
  forall r, In r (ai_feedback db) ->
    score_in_range r /\ has_pitch (AiFeedback.pitch_id r) db = true.

(** The id a request asks about, when its body yields one. *)
Definition requested (w : World) (req : Endpoint.Request) (pid : uuid) : Prop :=
  exists pitch_id,
    Endpoint.read_pitch_id w req = inr pitch_id
    /\ truthy pitch_id = true
    /\ Endpoint.text_of w pitch_id = pid.

(** Where the object given to the insert comes from, with the feedback the
    answer will carry. *)
Definition insert_source (w : World) (pid : uuid) (pitch : Pitches.row)
    (db : database) (ins : FeedbackInsert) (fb : json) : Prop :=
  (Endpoint.credential w = None
   /\ ins = Endpoint.mock_insert pid /\ fb = Endpoint.mockFeedback)
  \/ exists key,
       Endpoint.credential w = Some key
       /\ Endpoint.ask_openai w key pitch db = (inr fb, db, [])
       /\ Endpoint.insert_of pid fb = inr ins.

(* ------------------------------------------------------------------ *)
(** ** More sample answers of the AI service *)
(* ------------------------------------------------------------------ *)

Module Answers.

(** The text [{"pitch_id":value}]. *)
Definition body_of (value : string) : string :=
  String.concat EmptyString
    [ "{"; Endpoint.dq; "pitch_id"; Endpoint.dq; ":"; value; "}" ].

Definition parse (s : string) : string + json :=
  if String.eqb s "null" then inr JNull
  else if String.eqb s "5" then inr (JNum 5)
  else if String.eqb s (body_of "null") then inr (JObj [ ("pitch_id", JNull) ])
  else if String.eqb s (body_of "0") then inr (JObj [ ("pitch_id", JNum 0) ])
  else if String.eqb s (body_of "false") then inr (JObj [ ("pitch_id", JBool false) ])
  else if String.eqb s (body_of (String.append Endpoint.dq Endpoint.dq))
  then inr (JObj [ ("pitch_id", JStr EmptyString) ])
  else if String.eqb s "empty completion" then inr (Sample.completion (JStr "{}"))
  else if String.eqb s "eleven completion" then inr (Sample.completion (JStr "eleven"))
  else if String.eqb s "eleven" then inr (JObj [ ("overall_score", JNum 11) ])
  else if String.eqb s "large completion" then inr (Sample.completion (JStr "large"))
  else if String.eqb s "large" then inr (JObj [ ("overall_score", JNum 4294967303) ])
  else if String.eqb s "half completion" then inr (Sample.completion (JStr "half"))
  else if String.eqb s "half" then inr (JObj [ ("overall_score", JFrac (15 # 2)) ])
  else Sample.parse s.

(** [JSON.stringify] on the one value the samples need it for. *)
Definition stringify (j : json) : string :=
  match j with
  | JFrac q => if Qeq_bool q (15 # 2) then "7.5" else "null"
  | _ => "null"
  end.

Definition world (key : option string) (reply : fetch_result) : World :=
  {| OPENAI_API_KEY := key;
     JSON_parse := parse;
     ToString := fun _ => "undefined";
     JSON_stringify := stringify;
     fetch_openai := fun _ _ => reply;
     now_started := 3000%Z;
     now_completed := 4000%Z;
     int4_in := fun _ => None |}.

Definition offline : World := world None (fetch_rejected "no network").

Definition post (text : string) : Endpoint.Request :=
  {| Endpoint.method := "POST"; Endpoint.text := text |}.

End Answers.

(** A published pitch whose AI-processing status is still the column
    default: the rows the two UPDATEs of the status migration select. *)
Definition awaiting (p : Pitches.row) : bool :=
  pitch_status_eqb (Pitches.status p) published
  && processing_status_eqb (Pitches.ai_processing_status p) pending.

(** What the status migration makes of the row [p] of the store [db]. *)
Definition migrated (db : database) (p q : Pitches.row) : Prop :=
  if awaiting p then
    pitch_data q = pitch_data p
    /\ Pitches.ai_processing_started_at q = Pitches.ai_processing_started_at p
    /\ if has_feedback (Pitches.id p) db then
         Pitches.ai_processing_status q = completed
         /\ Pitches.ai_processing_completed_at q = Some (Pitches.created_at p)
         /\ Pitches.ai_processing_error q = Pitches.ai_processing_error p
       else
         Pitches.ai_processing_status q = failed
         /\ Pitches.ai_processing_completed_at q = Pitches.ai_processing_completed_at p
         /\ Pitches.ai_processing_error q
            = Some "AI feedback generation was not completed. Please retry."
  else q = p.

(** The figure a view shows for the vote type [t]. *)
Definition count_of (t : vote_type_t) (c : VoteCounts.t) : nat :=
  match t with
  | interesting => VoteCounts.interesting c
  | needs_work => VoteCounts.needs_work c
  end.

(** 1 when the vote type [t] is [t'], 0 otherwise. *)
Definition one_if (t t' : vote_type_t) : nat :=
  if vote_type_eqb t t' then 1 else 0.

(* ------------------------------------------------------------------ *)
(** ** DiscoverFeed: loading the feed *)
(* ------------------------------------------------------------------ *)

(** [.from('ai_feedback').select(...).eq('pitch_id', pid).maybeSingle()] by
    [user], under the policy "Users can view feedback for published
    pitches": a row is visible when its pitch is published or the user's
    own. *)
Definition select_feedback (user pid : uuid) (db : database) : option AiFeedback.row :=
  maybeSingle
    (filter
       (fun f =>
          String.eqb (AiFeedback.pitch_id f) pid
          && existsb
               (fun p => String.eqb (Pitches.id p) (AiFeedback.pitch_id f) && can_view user p)
               (pitches db))
       (ai_feedback db)).

Module Feed.

Record Pitch : Type := {
  pitchData : Pitches.row;
  vote_counts : VoteCounts.t;
  ai_score : option Z
}.

(** [.eq('status', 'published').neq('user_id', user.id)] *)
Definition candidate (user : uuid) (p : Pitches.row) : bool :=
  pitch_status_eqb (Pitches.status p) published
  && negb (String.eqb (Pitches.user_id p) user).

Definition newest_first (a b : Pitches.row) : Prop :=
  (Pitches.created_at b <= Pitches.created_at a)%Z.

(** [.order('created_at', { ascending: false }).limit(20)]: the first 20 of
    the candidates in an order of non-increasing [created_at].  The order
    among pitches created at the same time is the database's choice, so the
    answer is given by a relation. *)
Definition query_answer (user : uuid) (db : database) (pitchData : list Pitches.row)
  : Prop :=
  exists ordered,
    Permutation ordered (filter (candidate user) (pitches db))
    /\ StronglySorted newest_first ordered
    /\ pitchData = firstn 20 ordered.

(** One such answer: equal times in store order. *)
Definition by_created_at (a b : Pitches.row) : Z :=
  (Pitches.created_at b - Pitches.created_at a)%Z.

Definition query (user : uuid) (db : database) : list Pitches.row :=
  firstn 20 (array_sort by_created_at (filter (candidate user) (pitches db))).

(** [votedPitchIds?.map((v) => v.pitch_id) || []] *)
Definition votedIds (user : uuid) (db : database) : list uuid :=
  map Votes.pitch_id (filter (fun v => String.eqb (Votes.user_id v) user) (votes db)).

(** [Array.prototype.includes] on strings. *)
Definition includes (ids : list uuid) (id : uuid) : bool :=
  existsb (fun x => String.eqb x id) ids.

Definition with_data (user : uuid) (db : database) (pitch : Pitches.row) : Pitch :=
  {| pitchData := pitch;
     vote_counts := count_votes (Pitches.id pitch) db;
     ai_score :=
       match select_feedback user (Pitches.id pitch) db with
       | Some f => AiFeedback.overall_score f
       | None => None
       end |}.

(** [loadPitches] (lines 218-272): the new value of the [pitches] state,
    given the answer [pitchData] of the pitch query; without a user the
    state keeps its value [old]. *)
Definition loadPitches (user : option uuid) (pitchData : list Pitches.row)
    (db : database) (old : list Pitch) : list Pitch :=
  match user with
  | None => old
  | Some u =>
      let votedIds := votedIds u db in
      let unvotedPitches :=
        filter (fun p => negb (includes votedIds (Pitches.id p))) pitchData in
      map (with_data u db) unvotedPitches
  end.

(** [currentIndex] once [handleVote] (lines 274-301) and its timeout are
    over: the next card when the insert succeeded, the same card when the
    handler returned early or the insert failed. *)
Definition next_index (user : option uuid) (feed : list Pitches.row)
    (currentIndex : nat) (voting : bool) (voteType : vote_type_t)
    (db : database) : nat :=
  match user with
  | None => currentIndex
  | Some u =>
      if (List.length feed <=? currentIndex) || voting then currentIndex
      else
        match nth_error feed currentIndex with
        | None => currentIndex
        | Some currentPitch =>
            match fst (insert_vote u
                         {| Votes.pitch_id := Pitches.id currentPitch;
                            Votes.user_id := u;
                            Votes.vote_type := voteType |} db) with
            | Some error => currentIndex
            | None => currentIndex + 1
            end
        end
  end.

(** The user swipes once per entry of [choices], each swipe after the
    previous one is over: the card shown and the store at the end. *)
Fixpoint swipes (user : uuid) (feed : list Pitches.row) (currentIndex : nat)
    (choices : list vote_type_t) (db : database) : nat * database :=
  match choices with
  | [] => (currentIndex, db)
  | voteType :: rest =>
      swipes user feed
        (next_index (Some user) feed currentIndex false voteType db) rest
        (DiscoverFeed.handleVote (Some user) feed currentIndex false voteType db)
  end.

End Feed.

(* ------------------------------------------------------------------ *)
(** ** PitchSubmissionForm: the handlers of a whole session *)
(* ------------------------------------------------------------------ *)

Module Field.
(** [keyof PitchFormData] *)
Inductive t : Type :=
| title | target_audience | pain_point | product_description | elevator_pitch.
End Field.

Module PitchSubmissionForm.

(** [updateField] (lines 185-187): [setFormData({ ...formData, [field]: value })]. *)
Definition updateField (field : Field.t) (value : string)
    (s : SubmissionForm.state) : SubmissionForm.state :=
  let formData := SubmissionForm.formData s in
  {| SubmissionForm.step := SubmissionForm.step s;
     SubmissionForm.loading := SubmissionForm.loading s;
     SubmissionForm.draftId := SubmissionForm.draftId s;
     SubmissionForm.formData :=
       {| title :=
            match field with Field.title => value | _ => title formData end;
          target_audience :=
            match field with
            | Field.target_audience => value
            | _ => target_audience formData
            end;
          pain_point :=
            match field with Field.pain_point => value | _ => pain_point formData end;
          product_description :=
            match field with
            | Field.product_description => value
            | _ => product_description formData
            end;
          elevator_pitch :=
            match field with
            | Field.elevator_pitch => value
            | _ => elevator_pitch formData
            end |} |}.

(** [handleBack] (lines 178-183). *)
Definition handleBack (s : SubmissionForm.state)
  : list SubmissionForm.effect * SubmissionForm.state :=
  ([SubmissionForm.call_saveDraft (SubmissionForm.draftId s) (SubmissionForm.formData s)],
   if 1 <? SubmissionForm.step s then
     {| SubmissionForm.step := SubmissionForm.step s - 1;
        SubmissionForm.loading := SubmissionForm.loading s;
        SubmissionForm.draftId := SubmissionForm.draftId s;
        SubmissionForm.formData := SubmissionForm.formData s |}
   else s).

(** The input the form renders at a step ([step === 1 && ...] and so on). *)
Definition shown (step : nat) : option Field.t :=
  match step with
  | 1 => Some Field.title
  | 2 => Some Field.target_audience
  | 3 => Some Field.pain_point
  | 4 => Some Field.product_description
  | 5 => Some Field.elevator_pitch
  | _ => None
  end.

(** What happens to a mounted form once [loadDraft] has settled. *)
Inductive event : Type :=
| Change (value : string)       (* onChange of the input shown *)
| ClickNext                     (* the button at the bottom *)
| ClickBack                     (* the button at the top *)
| DraftInserted (id : uuid)     (* saveDraft: setDraftId(data.id) *)
| SubmitSettled.                (* handleSubmit: finally setLoading(false) *)

Definition handle (e : event) (s : SubmissionForm.state)
  : list SubmissionForm.effect * SubmissionForm.state :=
  match e with
  | Change value =>
      match shown (SubmissionForm.step s) with
      | Some field => ([], updateField field value s)
      | None => ([], s)
      end
  | ClickNext => SubmissionForm.click s
  | ClickBack =>
      (* onClick={step === 1 ? onCancel : handleBack}; onCancel is the
         parent's and leaves the form as it is *)
      if SubmissionForm.step s =? 1 then ([], s) else handleBack s
  | DraftInserted id =>
      ([], {| SubmissionForm.step := SubmissionForm.step s;
              SubmissionForm.loading := SubmissionForm.loading s;
              SubmissionForm.draftId := Some id;
              SubmissionForm.formData := SubmissionForm.formData s |})
  | SubmitSettled =>
      ([], {| SubmissionForm.step := SubmissionForm.step s;
              SubmissionForm.loading := false;
              SubmissionForm.draftId := SubmissionForm.draftId s;
              SubmissionForm.formData := SubmissionForm.formData s |})
  end.

(** A session: the calls the handlers start, in order, and the last state. *)
Fixpoint session (events : list event) (s : SubmissionForm.state)
  : list SubmissionForm.effect * SubmissionForm.state :=
  match events with
  | [] => ([], s)
  | e :: rest =>
      let (started, s1) := handle e s in
      let (later, s2) := session rest s1 in
      (started ++ later, s2)
  end.

(** The form as it is mounted (lines 23-33). *)
Definition mounted : SubmissionForm.state :=
  {| SubmissionForm.step := 1;
     SubmissionForm.loading := false;
     SubmissionForm.draftId := None;
     SubmissionForm.formData :=
       {| title := EmptyString;
          target_audience := EmptyString;
          pain_point := EmptyString;
          product_description := EmptyString;
          elevator_pitch := EmptyString |} |}.

(** [isStepValid] on the form data [data] shown at step [k]. *)
Definition valid_at (k : nat) (data : PitchFormData) : bool :=
  SubmissionForm.isStepValid
    {| SubmissionForm.step := k;
       SubmissionForm.loading := false;
       SubmissionForm.draftId := None;
       SubmissionForm.formData := data |}.

End PitchSubmissionForm.

(** The form is at one of its five steps, and the inputs of the steps
    before the current one pass their check. *)
Definition form_inv (s : SubmissionForm.state) : Prop :=
  1 <= SubmissionForm.step s <= 5
  /\ forall k, 1 <= k -> k < SubmissionForm.step s ->
       PitchSubmissionForm.valid_at k (SubmissionForm.formData s) = true.

(** The calls of [handleSubmit] in a list of started calls carry complete
    form data. *)
Definition submits_complete (started : list SubmissionForm.effect) : Prop :=
  forall cur data,
    In (SubmissionForm.call_handleSubmit cur data) started ->
    forall k, 1 <= k <= 5 -> PitchSubmissionForm.valid_at k data = true.

(** A user fills in the five steps, the last with a pitch of [n] words,
    and presses the button at the bottom after each. *)
Definition whole_session (n : nat) : list PitchSubmissionForm.event :=
  let data := SubmissionForm.formData (Scenario.form_with_words n) in
  [ PitchSubmissionForm.Change (title data); PitchSubmissionForm.ClickNext;
    PitchSubmissionForm.Change (target_audience data); PitchSubmissionForm.ClickNext;
    PitchSubmissionForm.Change (pain_point data); PitchSubmissionForm.ClickNext;
    PitchSubmissionForm.Change (product_description data); PitchSubmissionForm.ClickNext;
    PitchSubmissionForm.Change (elevator_pitch data); PitchSubmissionForm.ClickNext ].

(* ------------------------------------------------------------------ *)
(** ** Who may change what *)
(* ------------------------------------------------------------------ *)

(** The client statement [a] is sent with the session of the user [u]. *)
Definition signed_in_as (u : uuid) (a : action) : Prop :=
  match a with
  | SaveDraft uid _ _ _ _ | Publish uid _ _ _ _ => uid = u
  | DetailVote user _ _ _ _ | FeedVote user _ _ _ _ => user = Some u
  | InvokeEndpoint _ _ | StatusMigration => False
  end.

Definition pitch_of_other (u : uuid) (p : Pitches.row) : bool :=
  negb (String.eqb (Pitches.user_id p) u).

Definition vote_of_other (u : uuid) (v : Votes.row) : bool :=
  negb (String.eqb (Votes.user_id v) u).

(* ------------------------------------------------------------------ *)
(** ** EntrepreneurDashboard: the list and the three figures *)
(* ------------------------------------------------------------------ *)

Module EntrepreneurDashboard.

(** A row of the list: the pitch, its vote counts, and [{ overall_score }]
    when the feedback query returned a row ([Some None] is a row whose
    score is NULL). *)
Record Pitch : Type := {
  pitchData : Pitches.row;
  vote_counts : VoteCounts.t;
  ai_feedback : option (option Z)
}.

(** [.eq('user_id', user.id).order('created_at', { ascending: false })]:
    the user's pitches, drafts included, newest first; the order among
    equal times is the database's choice. *)
Definition query_answer (user : uuid) (db : database) (pitchData : list Pitches.row)
  : Prop :=
  Permutation pitchData
    (filter (fun p => String.eqb (Pitches.user_id p) user) (pitches db))
  /\ StronglySorted Feed.newest_first pitchData.

(** One such answer: equal times in store order. *)
Definition query (user : uuid) (db : database) : list Pitches.row :=
  array_sort Feed.by_created_at
    (filter (fun p => String.eqb (Pitches.user_id p) user) (pitches db)).

Definition with_data (user : uuid) (db : database) (pitch : Pitches.row) : Pitch :=
  {| pitchData := pitch;
     vote_counts := count_votes (Pitches.id pitch) db;
     ai_feedback :=
       option_map AiFeedback.overall_score
         (select_feedback user (Pitches.id pitch) db) |}.

(** [pitchesWithData] of [loadPitches] (lines 455-515). *)
Definition loadPitches (user : uuid) (pitchData : list Pitches.row) (db : database)
  : list Pitch :=
  map (with_data user db) pitchData.

Definition totalPitches (pitchesWithData : list Pitch) : nat :=
  List.length
    (filter (fun p => pitch_status_eqb (Pitches.status (pitchData p)) published)
       pitchesWithData).

Definition totalVotes (pitchesWithData : list Pitch) : nat :=
  fold_left
    (fun sum p =>
       sum + VoteCounts.interesting (vote_counts p) + VoteCounts.needs_work (vote_counts p))
    pitchesWithData 0.

Definition scoresWithFeedback (pitchesWithData : list Pitch) : list Pitch :=
  filter (fun p => match ai_feedback p with Some _ => true | None => false end)
    pitchesWithData.

(** [p.ai_feedback?.overall_score || 0] *)
Definition score_or_0 (p : Pitch) : Z :=
  match ai_feedback p with
  | Some (Some score) => score
  | _ => 0%Z
  end.

(** The sum that [avgScore] divides by [scoresWithFeedback.length]; the
    division is done in floating point and is not part of this model. *)
Definition score_sum (pitchesWithData : list Pitch) : Z :=
  fold_left (fun sum p => (sum + score_or_0 p)%Z) (scoresWithFeedback pitchesWithData) 0%Z.

End EntrepreneurDashboard.

(** [uid] has a pitch with the id of the vote [v]. *)
Definition on_pitch_of (uid : uuid) (db : database) (v : Votes.row) : bool :=
  owns uid (Votes.pitch_id v) db.

(** The leaderboard entry has [n] interesting votes. *)
Definition has_votes (n : nat) (e : Leaderboard.LeaderboardPitch) : bool :=
  interesting_votes e =? n.

(* ------------------------------------------------------------------ *)
(** ** Texts made of words *)
(* ------------------------------------------------------------------ *)

(** A word: at least one character, none of them white space. *)
Definition word (w : list ascii) : Prop :=
  w <> [] /\ Forall (fun c => SubmissionForm.is_ws c = false) w.

(** White space only. *)
Definition blank (g : list ascii) : Prop :=
  Forall (fun c => SubmissionForm.is_ws c = true) g.

(** A gap between two words: at least one character, all white space. *)
Definition gap (g : list ascii) : Prop := g <> [] /\ blank g.

(** The text [lead w g1 w1 g2 w2 ... trail]. *)
Definition text_of_words (lead w : list ascii)
    (rest : list (list ascii * list ascii)) (trail : list ascii) : list ascii :=
  lead ++ (w ++ flat_map (fun gw => fst gw ++ snd gw) rest) ++ trail.

(** The form on its last step with the pitch text [text]. *)
Definition last_step_with (text : list ascii) : SubmissionForm.state :=
  {| SubmissionForm.step := 5;
     SubmissionForm.loading := false;
     SubmissionForm.draftId := None;
     SubmissionForm.formData :=
       {| title := "EcoTrack";
          target_audience := "shoppers";
          pain_point := "research takes time";
          product_description := "a scanner";
          elevator_pitch := string_of_list_ascii text |} |}.

(** [formData[field]] *)
Definition field_value (field : Field.t) (formData : PitchFormData) : string :=
  match field with
  | Field.title => title formData
  | Field.target_audience => target_audience formData
  | Field.pain_point => pain_point formData
  | Field.product_description => product_description formData
  | Field.elevator_pitch => elevator_pitch formData
  end.

(* ------------------------------------------------------------------ *)
(** ** SubmissionSuccessScreen *)
(* ------------------------------------------------------------------ *)

Module Stage.
(** The [status] of a [ProcessingStage]. *)
Inductive status : Type := pending | active | completed | failed.
End Stage.

Module SubmissionSuccessScreen.

Record ProcessingStage : Type := {
  id : string;
  label : string;
  status : Stage.status
}.

(** [updateStages] (lines 73-93): the list given to [setStages]. *)
Definition updateStages (status : processing_status) : list ProcessingStage :=
  [ {| id := "submitted"; label := "Pitch Submitted"; status := Stage.completed |};
    {| id := "analyzing";
       label := "AI Analysis In Progress";
       status :=
         match status with
         | pending => Stage.active
         | processing => Stage.active
         | completed => Stage.completed
         | failed => Stage.failed
         end |};
    {| id := "evaluating";
       label := "Evaluating Strengths & Weaknesses";
       status :=
         match status with
         | processing => Stage.active
         | completed => Stage.completed
         | failed => Stage.failed
         | pending => Stage.pending
         end |};
    {| id := "scoring";
       label := "Calculating Score";
       status :=
         match status with
         | completed => Stage.completed
         | failed => Stage.failed
         | _ => Stage.pending
         end |} ].

(** What one call of [checkAIStatus] does to the component. *)
Record Checked : Type := {
  aiStatus : processing_status;           (* setAiStatus(status) *)
  stages : list ProcessingStage;          (* updateStages(status) *)
  cleared : option nat                    (* clearInterval(pollingInterval) *)
}.

(** [checkAIStatus] (lines 46-71) for the signed-in [user], in a render in
    which the state [pollingInterval] has the value [pollingInterval] (an
    interval id, or null): what the call does, or nothing when the query
    fails.  The interval is cleared when the status is completed or failed
    and [pollingInterval] is not null. *)
Definition checkAIStatus (pollingInterval : option nat) (user pitchId : uuid)
    (db : database) : option Checked :=
  match filter (fun p => String.eqb (Pitches.id p) pitchId && can_view user p) (pitches db) with
  | [pitch] =>
      let status := Pitches.ai_processing_status pitch in
      Some {| aiStatus := status;
              stages := updateStages status;
              cleared :=
                if processing_status_eqb status completed
                   || processing_status_eqb status failed
                then pollingInterval
                else None |}
  | _ => None
  end.

(** The effect of lines 37-44 runs after the first render, in which
    [pollingInterval] is still the [null] of [useState]: the call it makes
    and the function it hands to [setInterval] are the [checkAIStatus] of
    that render, whatever [setPollingInterval] stores afterwards. *)
Definition poll (user pitchId : uuid) (db : database) : option Checked :=
  checkAIStatus None user pitchId db.

End SubmissionSuccessScreen.

(* ------------------------------------------------------------------ *)
(** ** The AI-processing status between two runs *)
(* ------------------------------------------------------------------ *)

(** No pitch is left in [processing], and a pitch that is still [pending]
    has no feedback row. *)
Definition status_settled (db : database) : Prop :=
  forall p, In p (pitches db) ->
    Pitches.ai_processing_status p <> processing
    /\ (Pitches.ai_processing_status p = pending ->
        has_feedback (Pitches.id p) db = false).

(* ================================================================== *)
(** * Part II. Properties *)
(* ================================================================== *)

(** ** The samples run as the deployed code does *)

Example sample_mock_run :
  Endpoint.response_of (Endpoint.serve Sample.offline (Sample.post "p1") Sample.fresh)
  = inr {| Endpoint.status := 200;
           Endpoint.body := Endpoint.success_body Endpoint.mockFeedback |}.
Proof. reflexivity. Qed.

Example sample_openai_run :
  Endpoint.response_of
    (Endpoint.serve (Sample.world (Some "sk") (fetch_response 200 "completion"))
       (Sample.post "p1") Sample.fresh)
  = inr {| Endpoint.status := 200;
           Endpoint.body := Endpoint.success_body Sample.good_feedback |}.
Proof. reflexivity. Qed.

Example sample_http_error :
  Endpoint.response_of
    (Endpoint.serve (Sample.world (Some "sk") (fetch_response 503 "busy"))
       (Sample.post "p1") Sample.fresh)
  = inr {| Endpoint.status := 500;
           Endpoint.body := Endpoint.error_body "OpenAI API error: 503 - busy" |}.
Proof. reflexivity. Qed.

Example sample_bad_body :
  Endpoint.serve Sample.offline
    {| Endpoint.method := "POST"; Endpoint.text := "zzz" |} Sample.fresh
  = (inr {| Endpoint.status := 500;
            Endpoint.body := Endpoint.error_body "Unexpected token in JSON" |},
     Sample.fresh, []).
Proof. reflexivity. Qed.

(** ** Store statements: basic facts *)

Lemma update_pitches_no_match :
  forall cond set db,
    (forall p, In p (pitches db) -> cond p = false) ->
    update_pitches cond set db = db.
Proof.
  intros cond set [ps fs vs] H. unfold update_pitches. simpl in *. f_equal.
  induction ps as [|p ps IH]; simpl; [reflexivity|].
  rewrite (H p (or_introl eq_refl)). f_equal. apply IH.
  intros q Hq. apply H. now right.
Qed.

Lemma has_pitch_false :
  forall pid db, has_pitch pid db = false ->
    forall p, In p (pitches db) -> Endpoint.id_is pid p = false.
Proof.
  intros pid db H p Hp. unfold has_pitch in H.
  destruct (Endpoint.id_is pid p) eqn:E; [|reflexivity].
  assert (existsb (fun q => String.eqb (Pitches.id q) pid) (pitches db) = true) as Hex
    by (apply existsb_exists; exists p; split; assumption).
  congruence.
Qed.

Lemma select_absent :
  forall pid db, has_pitch pid db = false -> select_pitch_single pid db = None.
Proof.
  intros pid db H. unfold select_pitch_single.
  replace (filter (fun p => String.eqb (Pitches.id p) pid) (pitches db)) with (@nil Pitches.row);
    [reflexivity|].
  symmetry. pose proof (has_pitch_false pid db H) as Hno.
  induction (pitches db) as [|p ps IH]; simpl; [reflexivity|].
  pose proof (Hno p (or_introl eq_refl)) as Hp. unfold Endpoint.id_is in Hp.
  rewrite Hp. apply IH. intros q Hq. apply Hno. now right.
Qed.

Lemma not_options :
  forall req, Endpoint.method req <> "OPTIONS" ->
    String.eqb (Endpoint.method req) "OPTIONS" = false.
Proof. intros req H. now apply String.eqb_neq. Qed.

(** ** Updates of pitches keep ids, and what follows *)


Lemma set_processing_keeps_id : forall w, keeps_id (Endpoint.set_processing w).
Proof. intros w p. reflexivity. Qed.

Lemma set_completed_keeps_id : forall w, keeps_id (Endpoint.set_completed w).
Proof. intros w p. reflexivity. Qed.

Lemma set_failed_keeps_id : forall w e, keeps_id (Endpoint.set_failed w e).
Proof. intros w e p. reflexivity. Qed.

Lemma filter_id_update :
  forall pid set (l : list Pitches.row),
    keeps_id set ->
    filter (fun p => String.eqb (Pitches.id p) pid)
      (map (fun p => if Endpoint.id_is pid p then set p else p) l)
    = map set (filter (fun p => String.eqb (Pitches.id p) pid) l).
Proof.
  intros pid set l Hk. unfold Endpoint.id_is.
  induction l as [|p l IH]; simpl; [reflexivity|].
  destruct (String.eqb (Pitches.id p) pid) eqn:E; simpl.
  - rewrite Hk, E. f_equal. exact IH.
  - rewrite E. exact IH.
Qed.

Lemma select_update :
  forall pid set db,
    keeps_id set ->
    select_pitch_single pid (update_pitches (Endpoint.id_is pid) set db)
    = option_map set (select_pitch_single pid db).
Proof.
  intros pid set db Hk. unfold select_pitch_single, update_pitches. simpl.
  rewrite (filter_id_update pid set (pitches db) Hk).
  destruct (filter (fun p => String.eqb (Pitches.id p) pid) (pitches db)) as [|p [|q r]];
    reflexivity.
Qed.

Lemma has_pitch_update :
  forall pid cond set db,
    keeps_id set ->
    has_pitch pid (update_pitches cond set db) = has_pitch pid db.
Proof.
  intros pid cond set db Hk. unfold has_pitch, update_pitches. simpl.
  induction (pitches db) as [|p l IH]; simpl; [reflexivity|].
  rewrite IH. destruct (cond p); [rewrite Hk|]; reflexivity.
Qed.

Lemma has_feedback_update :
  forall pid cond set db,
    has_feedback pid (update_pitches cond set db) = has_feedback pid db.
Proof. reflexivity. Qed.

Lemma select_some_has_pitch :
  forall pid db p, select_pitch_single pid db = Some p -> has_pitch pid db = true.
Proof.
  intros pid db p H. unfold select_pitch_single in H. unfold has_pitch.
  destruct (filter (fun q => String.eqb (Pitches.id q) pid) (pitches db))
    as [|q [|q' r]] eqn:E; try discriminate.
  assert (In q (filter (fun q => String.eqb (Pitches.id q) pid) (pitches db))) as Hin
    by (rewrite E; now left).
  apply filter_In in Hin. apply existsb_exists. exists q. exact Hin.
Qed.


(** ** The handler's monad: equations and Hoare rules *)

Section MonadFacts.
Import Endpoint.
Context {A B : Type}.


Lemma bind_inl :
  forall (m : M A) (k : A -> M B) db e db1 j1,
    m db = (inl e, db1, j1) ->
    bind m k db = (inl e, db1, j1).
Proof. intros m k db e db1 j1 Hm. unfold bind. now rewrite Hm. Qed.

Lemma bind_pure :
  forall (m : M A) (k : A -> M B) db a,
    m db = (inr a, db, []) ->
    bind m k db = k a db.
Proof.
  intros m k db a Hm. unfold bind. rewrite Hm.
  destruct (k a db) as [[r db2] j2]. reflexivity.
Qed.

Lemma try_catch_inr :
  forall (m : M A) (h : exn -> M A) db a db1 j1,
    m db = (inr a, db1, j1) ->
    try_catch m h db = (inr a, db1, j1).
Proof. intros m h db a db1 j1 Hm. unfold try_catch. now rewrite Hm. Qed.

Lemma try_catch_inl :
  forall (m : M A) (h : exn -> M A) db e db1 j1 r db2 j2,
    m db = (inl e, db1, j1) ->
    h e db1 = (r, db2, j2) ->
    try_catch m h db = (r, db2, j1 ++ j2).
Proof. intros m h db e db1 j1 r db2 j2 Hm Hh. unfold try_catch. now rewrite Hm, Hh. Qed.

Variable J : database -> Prop.

Lemma triple_ret :
  forall (P : database -> Prop) (a : A) Q E,
    (forall db, P db -> Q a db) -> triple J P (ret a) Q E.
Proof. intros P a Q E H db HP. simpl. auto. Qed.

Lemma triple_throw :
  forall (P : database -> Prop) (e : exn) (Q : A -> database -> Prop) E,
    (forall db, P db -> E e db) -> triple J P (throw e) Q E.
Proof. intros P e Q E H db HP. simpl. auto. Qed.

Lemma triple_read :
  forall (P : database -> Prop) (q : database -> A) Q E,
    (forall db, P db -> Q (q db) db) -> triple J P (read q) Q E.
Proof. intros P q Q E H db HP. simpl. auto. Qed.

Lemma triple_statement :
  forall (P : database -> Prop) (f : database -> A * database) Q E,
    (forall db, P db -> J (snd (f db)) /\ Q (fst (f db)) (snd (f db))) ->
    triple J P (statement f) Q E.
Proof.
  intros P f Q E H db HP. unfold statement.
  specialize (H db HP). destruct (f db) as [a db1]. destruct H as [HJ HQ].
  split; [repeat constructor; exact HJ|exact HQ].
Qed.

Lemma triple_bind :
  forall (P : database -> Prop) (m : M A) (k : A -> M B) Q1 Q E,
    triple J P m Q1 E ->
    (forall a, triple J (Q1 a) (k a) Q E) ->
    triple J P (bind m k) Q E.
Proof.
  intros P m k Q1 Q E Hm Hk db HP. unfold bind.
  specialize (Hm db HP). destruct (m db) as [[[e|a] db1] j1]; [exact Hm|].
  destruct Hm as [Hj1 Hm].
  specialize (Hk a db1 Hm). destruct (k a db1) as [[[e|b] db2] j2];
    (split; [apply Forall_app; split; [exact Hj1|apply Hk]|apply Hk]).
Qed.

Lemma triple_catch :
  forall (P : database -> Prop) (m : M A) (h : exn -> M A) Q E1 E,
    triple J P m Q E1 ->
    (forall e, triple J (E1 e) (h e) Q E) ->
    triple J P (try_catch m h) Q E.
Proof.
  intros P m h Q E1 E Hm Hh db HP. unfold try_catch.
  specialize (Hm db HP). destruct (m db) as [[[e|a] db1] j1]; [|exact Hm].
  destruct Hm as [Hj1 Hm].
  specialize (Hh e db1 Hm). destruct (h e db1) as [[[e'|b] db2] j2];
    (split; [apply Forall_app; split; [exact Hj1|apply Hh]|apply Hh]).
Qed.

End MonadFacts.

Lemma triple_bind_lift :
  forall {A B : Type} (J P : database -> Prop) (r : exn + A) (k : A -> Endpoint.M B) Q E,
    (forall a, r = inr a -> triple J P (k a) Q E) ->
    (forall e, r = inl e -> forall db, P db -> E e db) ->
    triple J P (Endpoint.bind (Endpoint.lift r) k) Q E.
Proof.
  intros A B J P [e|a] k Q E Hk He db HP; unfold Endpoint.bind; simpl.
  - split; [constructor|now apply (He e)].
  - specialize (Hk a eq_refl db HP). destruct (k a db) as [[r db2] j2]. exact Hk.
Qed.

Lemma insert_of_pid :
  forall pid feedback row,
    Endpoint.insert_of pid feedback = inr row -> ins_pitch_id row = pid.
Proof.
  intros pid feedback row H. unfold Endpoint.insert_of in H.
  repeat (destruct (member _ _); [discriminate|]).
  injection H as <-. reflexivity.
Qed.

Lemma triple_write :
  forall (J P : database -> Prop) (f : database -> database) Q E,
    (forall db, P db -> J (f db) /\ Q tt (f db)) -> triple J P (Endpoint.write f) Q E.
Proof.
  intros J P f Q E H db HP. simpl. destruct (H db HP) as [HJ HQ].
  split; [repeat constructor; exact HJ|exact HQ].
Qed.

(** The chat completion call reads and writes nothing in the store. *)
Lemma ask_openai_pure :
  forall w key pitch db,
    exists r, Endpoint.ask_openai w key pitch db = (r, db, []).
Proof.
  intros w key pitch db. unfold Endpoint.ask_openai.
  destruct (fetch_openai w key _) as [msg|code txt]; [eexists; reflexivity|].
  destruct (negb _); [eexists; reflexivity|].
  destruct (JSON_parse w txt) as [msg|data]; [eexists; reflexivity|].
  unfold Endpoint.bind.
  destruct (Endpoint.content_of data) as [e|content]; [eexists; reflexivity|]. simpl.
  destruct (JSON_parse w _) as [e|fb]; eexists; reflexivity.
Qed.

Lemma triple_ask_openai :
  forall (J P : database -> Prop) w key pitch,
    triple J P (Endpoint.ask_openai w key pitch) (fun _ => P) (fun _ => P).
Proof.
  intros J P w key pitch db HP.
  destruct (ask_openai_pure w key pitch db) as [r Hr]. rewrite Hr.
  destruct r; (split; [constructor|exact HP]).
Qed.

(** ** The insert of a feedback row *)

Lemma has_feedback_add :
  forall pid r db,
    has_feedback pid (add_feedback r db)
    = has_feedback pid db || String.eqb (AiFeedback.pitch_id r) pid.
Proof.
  intros pid r db. unfold has_feedback, add_feedback. simpl.
  rewrite existsb_app. simpl. now rewrite orb_false_r.
Qed.

(** The statement either leaves the store as it was and reports an error,
    or appends one row for the pitch, which had none and exists. *)
Lemma insert_ai_feedback_cases :
  forall w r db,
    (exists e, insert_ai_feedback w r db = (Some e, db))
    \/ (exists row,
          insert_ai_feedback w r db = (None, add_feedback row db)
          /\ AiFeedback.pitch_id row = ins_pitch_id r
          /\ has_feedback (ins_pitch_id r) db = false
          /\ has_pitch (ins_pitch_id r) db = true).
Proof.
  intros w r db. unfold insert_ai_feedback.
  destruct (score_column w (ins_overall_score r)) as [e|score]; [left; eauto|].
  destruct (has_feedback (ins_pitch_id r) db) eqn:Hf; [left; eauto|].
  destruct (has_pitch (ins_pitch_id r) db) eqn:Hp; simpl; [|left; eauto].
  right. eexists. split; [reflexivity|]. simpl. auto.
Qed.

(** ** A proof rule for invariants of the handler *)

Section HandlerInvariant.
Import Endpoint.

Variable Inv : database -> Prop.

(** The three kinds of write the handler performs. *)
Hypothesis Inv_leave :
  forall pid set db,
    keeps_id set ->
    (forall p, Pitches.user_id (set p) = Pitches.user_id p) ->
    (forall p, Pitches.ai_processing_status (set p) <> completed) ->
    Inv db -> Inv (mark pid set db).
Hypothesis Inv_insert :
  forall row db,
    has_feedback (AiFeedback.pitch_id row) db = false ->
    has_pitch (AiFeedback.pitch_id row) db = true ->
    Inv db -> Inv (add_feedback row db).
Hypothesis Inv_complete :
  forall w pid db,
    has_feedback pid db = true ->
    Inv db -> Inv (mark pid (set_completed w) db).

Lemma store_feedback_keeps :
  forall w pid row fb,
    ins_pitch_id row = pid ->
    triple Inv Inv (store_feedback w pid row fb) (fun _ => Inv) (fun _ => Inv).
Proof.
  intros w pid row fb Hrow. unfold store_feedback.
  apply triple_bind
    with (Q1 := fun err db =>
                  Inv db /\ (err = None -> has_feedback pid db = true)).
  - apply triple_statement. intros db HI.
    destruct (insert_ai_feedback_cases w row db)
      as [[e He]|[r [He [Hr [Hnf Hhp]]]]]; rewrite He; simpl.
    + split; [exact HI|]. split; [exact HI|discriminate].
    + rewrite Hrow in *.
      assert (Inv (add_feedback r db)) as HI'
        by (apply Inv_insert; rewrite ?Hr; assumption).
      split; [exact HI'|]. split; [exact HI'|].
      intros _. rewrite has_feedback_add, Hr, String.eqb_refl. apply orb_true_r.
  - intros [e|].
    + apply triple_throw. intros db [HI _]. exact HI.
    + apply triple_bind with (Q1 := fun _ => Inv).
      * apply triple_write. intros db [HI Hf].
        assert (Inv (update_pitches (id_is pid) (set_completed w) db)) as HI'
          by (apply Inv_complete; auto).
        split; exact HI'.
      * intros _. apply triple_ret. auto.
Qed.

Lemma analyse_keeps :
  forall w pid pitch,
    triple Inv Inv (analyse w pid pitch) (fun _ => Inv) (fun _ => Inv).
Proof.
  intros w pid pitch. unfold analyse.
  destruct (credential w) as [key|].
  - apply triple_bind with (Q1 := fun _ => Inv); [apply triple_ask_openai|].
    intros feedback. apply triple_bind_lift.
    + intros row Hrow. apply store_feedback_keeps.
      now apply insert_of_pid in Hrow.
    + auto.
  - now apply store_feedback_keeps.
Qed.

Lemma generate_keeps :
  forall w pitch_id,
    triple Inv Inv (generate w pitch_id) (fun _ => Inv) (fun _ => Inv).
Proof.
  intros w pitch_id. unfold generate.
  destruct (negb (truthy pitch_id)); [apply triple_ret; auto|].
  apply triple_bind with (Q1 := fun _ => Inv).
  - apply triple_write. intros db HI.
    assert (Inv (mark (text_of w pitch_id) (set_processing w) db)) as HI'.
    { apply (Inv_leave (text_of w pitch_id) (set_processing w) db); auto.
      - apply set_processing_keeps_id.
      - intros p. discriminate. }
    split; exact HI'.
  - intros _. apply triple_bind with (Q1 := fun _ => Inv).
    + apply triple_read. auto.
    + intros [pitch|]; [apply analyse_keeps|apply triple_ret; auto].
Qed.

Lemma on_error_keeps :
  forall w pitch_id e,
    triple Inv Inv (on_error w pitch_id e) (fun _ => Inv) (fun _ => Inv).
Proof.
  intros w pitch_id e. unfold on_error.
  apply triple_bind with (Q1 := fun _ => Inv).
  - destruct (truthy pitch_id); [|apply triple_ret; auto].
    apply triple_write. intros db HI.
    assert (Inv (mark (text_of w pitch_id) (set_failed w e) db)) as HI'.
    { apply (Inv_leave (text_of w pitch_id) (set_failed w e) db); auto.
      - apply set_failed_keeps_id.
      - intros p. discriminate. }
    split; exact HI'.
  - intros _. apply triple_ret. auto.
Qed.

Lemma serve_triple :
  forall w req, triple Inv Inv (serve w req) (fun _ => Inv) (fun _ => Inv).
Proof.
  intros w req. unfold serve. destruct (String.eqb (method req) "OPTIONS").
  - apply triple_ret. auto.
  - destruct (read_pitch_id w req) as [e|pitch_id].
    + apply on_error_keeps.
    + apply triple_catch with (E1 := fun _ => Inv).
      * apply generate_keeps.
      * intros e. apply on_error_keeps.
Qed.

Lemma serve_keeps :
  forall w req db, Inv db -> Inv (store_of (serve w req db)).
Proof.
  intros w req db HI. pose proof (serve_triple w req db HI) as H. unfold store_of.
  destruct (serve w req db) as [[[e|a] db1] j]; apply H.
Qed.

(** The same for the stores between the writes of a run. *)
Lemma serve_journal_keeps :
  forall w req db, Inv db -> Forall Inv (journal_of (serve w req db)).
Proof.
  intros w req db HI. pose proof (serve_triple w req db HI) as H. unfold journal_of.
  destruct (serve w req db) as [[[e|a] db1] j]; apply H.
Qed.
End HandlerInvariant.

(** ** C1: one feedback row per pitch, and one behind every completed pitch *)

Lemma feedback_ok_empty : feedback_ok empty_database.
Proof. split; [constructor|intros p []]. Qed.

Lemma feedback_ok_frame :
  forall db db',
    pitches db' = pitches db ->
    ai_feedback db' = ai_feedback db ->
    feedback_ok db -> feedback_ok db'.
Proof.
  intros db db' Hp Hf [Hnd Hc]. unfold feedback_ok, has_feedback in *.
  rewrite Hp, Hf. split; assumption.
Qed.

Lemma feedback_ok_update :
  forall cond set db,
    keeps_id set ->
    (forall p, In p (pitches db) -> cond p = true ->
       Pitches.ai_processing_status (set p) = completed ->
       has_feedback (Pitches.id p) db = true) ->
    feedback_ok db -> feedback_ok (update_pitches cond set db).
Proof.
  intros cond set db Hk Hset [Hnd Hc]. split; [exact Hnd|].
  intros p' Hin Hst. rewrite has_feedback_update.
  unfold update_pitches in Hin. simpl in Hin. apply in_map_iff in Hin.
  destruct Hin as [p [Hp' Hp]]. destruct (cond p) eqn:Ec; subst p'.
  - rewrite Hk. now apply Hset.
  - now apply Hc.
Qed.

Lemma feedback_ok_add :
  forall row db,
    has_feedback (AiFeedback.pitch_id row) db = false ->
    feedback_ok db -> feedback_ok (add_feedback row db).
Proof.
  intros row db Hnew [Hnd Hc]. split.
  - unfold add_feedback. simpl. rewrite map_app. simpl.
    apply NoDup_app; [exact Hnd|repeat constructor; intros []|].
    intros k Hk [<-|[]]. unfold has_feedback in Hnew.
    apply in_map_iff in Hk. destruct Hk as [f [Hf Hin]].
    assert (existsb (fun g => String.eqb (AiFeedback.pitch_id g) (AiFeedback.pitch_id row))
              (ai_feedback db) = true) as Hex.
    { apply existsb_exists. exists f. split; [exact Hin|]. rewrite Hf. apply String.eqb_refl. }
    congruence.
  - intros p Hin Hst. rewrite has_feedback_add. rewrite (Hc p Hin Hst). reflexivity.
Qed.

Lemma feedback_ok_insert_pitch :
  forall uid new_id created owner data st db,
    feedback_ok db ->
    feedback_ok (snd (insert_pitch uid new_id created owner data st db)).
Proof.
  intros uid new_id created owner data st db [Hnd Hc]. unfold insert_pitch.
  destruct (negb (String.eqb uid owner)); [split; assumption|].
  destruct (has_pitch new_id db); [split; assumption|]. simpl.
  split; [exact Hnd|]. intros p Hin Hst. simpl in Hin.
  apply in_app_or in Hin. destruct Hin as [Hin|[<-|[]]].
  - exact (Hc p Hin Hst).
  - discriminate.
Qed.

Lemma feedback_ok_update_pitch :
  forall uid d data st db,
    feedback_ok db -> feedback_ok (update_pitch uid d data st db).
Proof.
  intros uid d data st db H. unfold update_pitch.
  apply feedback_ok_update; [intros p; reflexivity| |exact H].
  intros p Hin _ Hst. destruct H as [_ Hc]. now apply Hc.
Qed.

Lemma feedback_ok_insert_vote :
  forall uid v db,
    feedback_ok db -> feedback_ok (snd (insert_vote uid v db)).
Proof.
  intros uid v db H. unfold insert_vote.
  repeat match goal with |- context [if ?c then _ else _] => destruct c end;
    simpl; exact H.
Qed.

Lemma feedback_ok_migration :
  forall db, feedback_ok db -> feedback_ok (status_migration db).
Proof.
  intros db H. unfold status_migration.
  apply feedback_ok_update; [intros p; reflexivity| |].
  - intros p _ _ Hst. discriminate.
  - apply feedback_ok_update; [intros p; reflexivity| |exact H].
    intros p _ Hc _. apply andb_prop in Hc. destruct Hc as [Hc _].
    apply andb_prop in Hc. now destruct Hc as [_ Hc].
Qed.

Lemma step_keeps_feedback_ok :
  forall a db, feedback_ok db -> feedback_ok (step a db).
Proof.
  intros [uid nid c cur data|uid nid c cur data|w req|user pitch voting pid vt
         |user feed i voting vt|] db H; simpl.
  - unfold SubmissionForm.saveDraft. destruct cur.
    + now apply feedback_ok_update_pitch.
    + now apply feedback_ok_insert_pitch.
  - unfold SubmissionForm.publish. destruct cur; simpl.
    + now apply feedback_ok_update_pitch.
    + pose proof (feedback_ok_insert_pitch uid nid c uid data published db H) as H'.
      destruct (insert_pitch uid nid c uid data published db) as [[e|] db1]; exact H'.
  - apply serve_keeps; [| | |exact H].
    + intros pid set d Hk _ Hnc Hd. apply feedback_ok_update; [exact Hk| |exact Hd].
      intros p _ _ Hst. now apply Hnc in Hst.
    + intros row d Hnf _ Hd. now apply feedback_ok_add.
    + intros w' pid d Hf Hd. apply feedback_ok_update;
        [apply set_completed_keeps_id| |exact Hd].
      intros p _ Hid _. unfold Endpoint.id_is in Hid.
      apply String.eqb_eq in Hid. now rewrite Hid.
  - unfold PitchDetailView.handleVote.
    destruct user as [u|]; [|exact H]. destruct pitch as [p|]; [|exact H].
    destruct (_ || _); [exact H|]. destruct (PitchDetailView.user_vote p).
    + now apply (feedback_ok_frame db).
    + now apply feedback_ok_insert_vote.
  - unfold DiscoverFeed.handleVote.
    destruct user as [u|]; [|exact H]. destruct (_ || _); [exact H|].
    destruct (nth_error feed i); [|exact H]. now apply feedback_ok_insert_vote.
  - now apply feedback_ok_migration.
Qed.

Lemma run_keeps :
  forall (Inv : database -> Prop),
    (forall a db, Inv db -> Inv (step a db)) ->
    forall trace db, Inv db -> Inv (run trace db).
Proof.
  intros Inv Hstep trace. induction trace as [|a trace IH]; intros db H; simpl.
  - exact H.
  - apply IH. now apply Hstep.
Qed.

Lemma unique_key_count :
  forall {A K : Type} (key : A -> K) (test : A -> bool) (k : K) (l : list A),
    (forall x, test x = true -> key x = k) ->
    NoDup (map key l) ->
    List.length (filter test l) <= 1.
Proof.
  intros A K key test k l Htest. induction l as [|x l IH]; intros Hnd; simpl; [lia|].
  inversion Hnd as [|k' ks Hnotin Hnd' Heq]; subst.
  destruct (test x) eqn:E; [|now apply IH].
  simpl. replace (filter test l) with (@nil A); [simpl; lia|].
  symmetry. clear IH Hnd Hnd'. induction l as [|y l IH]; simpl; [reflexivity|].
  destruct (test y) eqn:Ey.
  - exfalso. apply Hnotin. simpl. left.
    rewrite (Htest x E), (Htest y Ey). reflexivity.
  - apply IH. intros Hin. apply Hnotin. simpl. now right.
Qed.

Lemma has_feedback_count :
  forall pid db, has_feedback pid db = true -> 1 <= count_feedback pid db.
Proof.
  intros pid db H. unfold has_feedback in H. unfold count_feedback.
  apply existsb_exists in H. destruct H as [f [Hin Hf]].
  assert (In f (filter (fun g => String.eqb (AiFeedback.pitch_id g) pid) (ai_feedback db))) as Hin'
    by (apply filter_In; split; assumption).
  destruct (filter _ _); [destruct Hin'|simpl; lia].
Qed.

Lemma feedback_ok_leave :
  forall pid set db,
    keeps_id set ->
    (forall p, Pitches.ai_processing_status (set p) <> completed) ->
    feedback_ok db -> feedback_ok (mark pid set db).
Proof.
  intros pid set db Hk Hnc Hd. apply feedback_ok_update; [exact Hk| |exact Hd].
  intros p _ _ Hst. now apply Hnc in Hst.
Qed.

Lemma feedback_ok_complete :
  forall w pid db,
    has_feedback pid db = true ->
    feedback_ok db -> feedback_ok (mark pid (Endpoint.set_completed w) db).
Proof.
  intros w pid db Hf Hd.
  apply feedback_ok_update; [apply set_completed_keeps_id| |exact Hd].
  intros p _ Hid _. unfold Endpoint.id_is in Hid.
  apply String.eqb_eq in Hid. now rewrite Hid.
Qed.

Lemma visited_feedback_ok :
  forall db, visited db -> feedback_ok db.
Proof.
  assert (forall db, reachable db -> feedback_ok db) as Hreach.
  { intros db [trace ->].
    apply run_keeps; [apply step_keeps_feedback_ok|apply feedback_ok_empty]. }
  intros db [Hr|[db0 [w [req [Hr Hin]]]]]; [now apply Hreach|].
  assert (Forall feedback_ok (Endpoint.journal_of (Endpoint.serve w req db0))) as Hall.
  { apply serve_journal_keeps.
    - intros pid set d Hk _ Hnc Hd. now apply feedback_ok_leave.
    - intros row d Hnf _ Hd. now apply feedback_ok_add.
    - intros w' pid d Hf Hd. now apply feedback_ok_complete.
    - now apply Hreach. }
  rewrite Forall_forall in Hall. now apply Hall.
Qed.

(** C1.  In every store the system passes through - the stores the code can
    produce and the ones a run of the endpoint leaves after each of its
    write statements - a pitch id has at most one ai_feedback row, and a
    pitch whose AI-processing status is completed has exactly one: the row
    is there before the status is. *)
Theorem C1_feedback_unique_and_present_when_completed :
  forall db, visited db ->
    (forall pid, count_feedback pid db <= 1)
    /\ (forall p, In p (pitches db) ->
          Pitches.ai_processing_status p = completed ->
          count_feedback (Pitches.id p) db = 1).
Proof.
  intros db Hv. destruct (visited_feedback_ok db Hv) as [Hnd Hc].
  assert (forall pid, count_feedback pid db <= 1) as Hle
    by (intros pid; apply (unique_key_count AiFeedback.pitch_id _ pid);
        [intros f Hf; now apply String.eqb_eq|exact Hnd]).
  split; [exact Hle|]. intros p Hin Hst.
  pose proof (Hle (Pitches.id p)).
  pose proof (has_feedback_count _ _ (Hc p Hin Hst)). lia.
Qed.

(** The stores of the first submission's run: the pitch is processing with
    no row, processing with its row, then completed with its row. *)
Example submission_journal :
  map (fun db => (ai_status_of "p1" db, count_feedback "p1" db))
    (Endpoint.journal_of
       (Endpoint.serve Sample.offline (Sample.post "p1")
          (run [ Publish "u1" "p1" 500%Z None Sample.data1 ] empty_database)))
  = [ (Some processing, 0); (Some processing, 1); (Some completed, 1) ].
Proof. reflexivity. Qed.

Lemma C1_witness :
  let between :=
    add_feedback (mock_row "p1")
      (mark "p1" (Endpoint.set_processing Sample.offline)
         (run [ Publish "u1" "p1" 500%Z None Sample.data1 ] empty_database)) in
  visited Scenario.after_submit
  /\ visited between
  /\ count_feedback "p1" between <= 1
  /\ count_feedback "p1" Scenario.after_submit = 1.
Proof.
  cbv zeta.
  assert (visited Scenario.after_submit) as Hv
    by (left; exists Scenario.submit_offline; reflexivity).
  assert (visited
            (add_feedback (mock_row "p1")
               (mark "p1" (Endpoint.set_processing Sample.offline)
                  (run [ Publish "u1" "p1" 500%Z None Sample.data1 ] empty_database))))
    as Hb.
  { right. exists (run [ Publish "u1" "p1" 500%Z None Sample.data1 ] empty_database),
      Sample.offline, (Sample.post "p1").
    split; [eexists; reflexivity|]. right. left. reflexivity. }
  split; [exact Hv|]. split; [exact Hb|]. split.
  - exact (proj1 (C1_feedback_unique_and_present_when_completed _ Hb) "p1").
  - apply (proj2 (C1_feedback_unique_and_present_when_completed Scenario.after_submit Hv)
             (Endpoint.set_completed Sample.offline
                (Endpoint.set_processing Sample.offline (Sample.pitch1 pending)))).
    + left. reflexivity.
    + reflexivity.
Defined.

(** ** The run of the handler, step by step *)

Lemma credential_dec :
  forall w, (exists key, Endpoint.credential w = Some key) \/ Endpoint.credential w = None.
Proof. intros w. destruct (Endpoint.credential w); eauto. Qed.

Lemma serve_post :
  forall w req pitch_id db,
    Endpoint.method req <> "OPTIONS" ->
    Endpoint.read_pitch_id w req = inr pitch_id ->
    Endpoint.serve w req db
    = Endpoint.try_catch (Endpoint.generate w pitch_id)
        (Endpoint.on_error w pitch_id) db.
Proof.
  intros w req v db Hm Hv. unfold Endpoint.serve.
  now rewrite (not_options req Hm), Hv.
Qed.

Lemma on_error_truthy :
  forall w pitch_id e db,
    truthy pitch_id = true ->
    Endpoint.on_error w pitch_id e db
    = (inr {| Endpoint.status := 500;
              Endpoint.body := Endpoint.error_body (Endpoint.message_or_default e) |},
       mark (Endpoint.text_of w pitch_id) (Endpoint.set_failed w e) db,
       [ mark (Endpoint.text_of w pitch_id) (Endpoint.set_failed w e) db ]).
Proof. intros w v e db Hv. unfold Endpoint.on_error. rewrite Hv. reflexivity. Qed.

Lemma store_feedback_ok :
  forall w pid row fb db db1,
    insert_ai_feedback w row db = (None, db1) ->
    Endpoint.store_feedback w pid row fb db
    = (inr {| Endpoint.status := 200; Endpoint.body := Endpoint.success_body fb |},
       mark pid (Endpoint.set_completed w) db1,
       [ db1; mark pid (Endpoint.set_completed w) db1 ]).
Proof.
  intros w pid row fb db db1 H.
  unfold Endpoint.store_feedback, Endpoint.bind at 1, Endpoint.statement.
  rewrite H. reflexivity.
Qed.

Lemma store_feedback_err :
  forall w pid row fb db e db1,
    insert_ai_feedback w row db = (Some e, db1) ->
    Endpoint.store_feedback w pid row fb db = (inl e, db1, [ db1 ]).
Proof.
  intros w pid row fb db e db1 H.
  unfold Endpoint.store_feedback, Endpoint.bind at 1, Endpoint.statement.
  rewrite H. reflexivity.
Qed.

Lemma generate_found :
  forall w pitch_id db p,
    truthy pitch_id = true ->
    select_pitch_single (Endpoint.text_of w pitch_id) db = Some p ->
    Endpoint.generate w pitch_id db
    = match Endpoint.analyse w (Endpoint.text_of w pitch_id) (Endpoint.set_processing w p)
              (mark (Endpoint.text_of w pitch_id) (Endpoint.set_processing w) db) with
      | (r, db2, j) =>
          (r, db2, mark (Endpoint.text_of w pitch_id) (Endpoint.set_processing w) db :: j)
      end.
Proof.
  intros w v db p Hv Hsel. unfold Endpoint.generate. rewrite Hv.
  change (negb true) with false. cbv beta iota zeta.
  unfold Endpoint.bind, Endpoint.write, Endpoint.read, mark.
  rewrite (select_update _ _ db (set_processing_keeps_id w)), Hsel.
  cbn [option_map].
  destruct (Endpoint.analyse _ _ _ _) as [[r db2] j]. reflexivity.
Qed.

Lemma generate_not_found :
  forall w pitch_id db,
    truthy pitch_id = true ->
    select_pitch_single (Endpoint.text_of w pitch_id) db = None ->
    Endpoint.generate w pitch_id db
    = (inr {| Endpoint.status := 404;
              Endpoint.body := Endpoint.error_body "Pitch not found" |},
       mark (Endpoint.text_of w pitch_id) (Endpoint.set_processing w) db,
       [ mark (Endpoint.text_of w pitch_id) (Endpoint.set_processing w) db ]).
Proof.
  intros w v db Hv Hsel. unfold Endpoint.generate. rewrite Hv.
  change (negb true) with false. cbv beta iota zeta.
  unfold Endpoint.bind, Endpoint.write, Endpoint.read, mark.
  rewrite (select_update _ _ db (set_processing_keeps_id w)), Hsel.
  reflexivity.
Qed.

Lemma mark_other_pitches :
  forall pid set db p,
    In p (pitches db) -> Pitches.id p <> pid -> In p (pitches (mark pid set db)).
Proof.
  intros pid set db p Hin Hne. unfold mark, update_pitches. simpl.
  apply in_map_iff. exists p. split; [|exact Hin].
  unfold Endpoint.id_is. now rewrite (proj2 (String.eqb_neq _ _) Hne).
Qed.

(** Once the pitch is found, the run either stores one row for the pitch,
    which had none, and completes, or throws with the store as it was. *)
Lemma analyse_cases :
  forall w pid pitch db,
    (exists fb row,
        Endpoint.analyse w pid pitch db
        = (inr {| Endpoint.status := 200; Endpoint.body := Endpoint.success_body fb |},
           mark pid (Endpoint.set_completed w) (add_feedback row db),
           [ add_feedback row db;
             mark pid (Endpoint.set_completed w) (add_feedback row db) ])
        /\ AiFeedback.pitch_id row = pid
        /\ has_feedback pid db = false)
    \/ (exists e j,
        Endpoint.analyse w pid pitch db = (inl e, db, j)
        /\ (j = [] \/ j = [db])).
Proof.
  intros w pid pitch db.
  assert (forall row fb, ins_pitch_id row = pid ->
            (exists r,
                Endpoint.store_feedback w pid row fb db
                = (inr {| Endpoint.status := 200; Endpoint.body := Endpoint.success_body fb |},
                   mark pid (Endpoint.set_completed w) (add_feedback r db),
                   [ add_feedback r db;
                     mark pid (Endpoint.set_completed w) (add_feedback r db) ])
                /\ AiFeedback.pitch_id r = pid /\ has_feedback pid db = false)
            \/ (exists e, Endpoint.store_feedback w pid row fb db = (inl e, db, [db])))
    as Hstore.
  { intros row fb Hrow.
    destruct (insert_ai_feedback_cases w row db) as [[e He]|[r [He [Hr [Hnf _]]]]].
    - right. exists e. now apply store_feedback_err.
    - left. exists r. rewrite Hrow in *. split; [now apply store_feedback_ok|auto]. }
  unfold Endpoint.analyse. destruct (credential_dec w) as [[key Hk]|Hk]; rewrite Hk.
  - destruct (ask_openai_pure w key pitch db) as [[e|fb] Hask].
    + right. exists e, []. split; [|now left]. now apply bind_inl.
    + destruct (Endpoint.insert_of pid fb) as [e|row] eqn:Hins.
      * right. exists e, []. split; [|now left].
        rewrite (bind_pure _ _ db fb Hask).
        apply bind_inl. rewrite Hins. reflexivity.
      * destruct (Hstore row fb (insert_of_pid pid fb row Hins))
          as [[r [Hs Hr]]|[e Hs]].
        -- left. exists fb, r. split; [|exact Hr].
           rewrite (bind_pure _ _ db fb Hask).
           rewrite (bind_pure _ _ db row); [exact Hs|now rewrite Hins].
        -- right. exists e, [db]. split; [|now right].
           rewrite (bind_pure _ _ db fb Hask).
           rewrite (bind_pure _ _ db row); [exact Hs|now rewrite Hins].
  - destruct (Hstore (Endpoint.mock_insert pid) Endpoint.mockFeedback eq_refl)
      as [[r [Hs Hr]]|[e Hs]].
    + left. exists Endpoint.mockFeedback, r. split; assumption.
    + right. exists e, [db]. split; [exact Hs|now right].
Qed.

Section FoundPitch.
Import Endpoint.

Variables (w : World) (req : Request) (db : database)
          (pitch_id : jsval) (p : Pitches.row).
Hypothesis Hpost : method req <> "OPTIONS".
Hypothesis Hbody : read_pitch_id w req = inr pitch_id.
Hypothesis Htruthy : truthy pitch_id = true.
Hypothesis Hfound : select_pitch_single (text_of w pitch_id) db = Some p.

Let pid : uuid := text_of w pitch_id.
Let started : database := mark pid (set_processing w) db.

Lemma serve_success :
  forall resp d j,
    analyse w pid (set_processing w p) started = (inr resp, d, j) ->
    serve w req db = (inr resp, d, started :: j).
Proof.
  intros resp d j Ha. rewrite (serve_post w req pitch_id db Hpost Hbody).
  apply try_catch_inr. rewrite (generate_found w pitch_id db p Htruthy Hfound).
  fold pid. fold started. now rewrite Ha.
Qed.

Lemma serve_failure :
  forall e d j,
    analyse w pid (set_processing w p) started = (inl e, d, j) ->
    serve w req db
    = (inr {| status := 500; body := error_body (message_or_default e) |},
       mark pid (set_failed w e) d,
       (started :: j) ++ [ mark pid (set_failed w e) d ]).
Proof.
  intros e d j Ha. rewrite (serve_post w req pitch_id db Hpost Hbody).
  eapply try_catch_inl.
  - rewrite (generate_found w pitch_id db p Htruthy Hfound).
    fold pid. fold started. rewrite Ha. reflexivity.
  - apply on_error_truthy. exact Htruthy.
Qed.

Lemma started_select :
  select_pitch_single pid started = Some (set_processing w p).
Proof.
  unfold started, mark.
  rewrite (select_update pid _ db (set_processing_keeps_id w)).
  unfold pid. now rewrite Hfound.
Qed.

Lemma failure_is_recorded :
  forall e d j,
    analyse w pid (set_processing w p) started = (inl e, d, j) ->
    failed_outcome w req db pid e.
Proof.
  intros e d j Ha.
  assert (d = started) as ->.
  { destruct (analyse_cases w pid (set_processing w p) started)
      as [[fb [row [Hs _]]]|[e' [j' [Hs _]]]]; congruence. }
  unfold failed_outcome, response_of, store_of.
  rewrite (serve_failure e started j Ha). simpl. split; [reflexivity|].
  exists (set_failed w e (set_processing w p)). split; [|split; reflexivity].
  unfold mark. rewrite (select_update pid _ started (set_failed_keeps_id w e)).
  now rewrite started_select.
Qed.
End FoundPitch.

(** ** The three named causes of failure *)

Lemma ask_openai_http_error :
  forall w key pitch db code txt,
    fetch_openai w key (Endpoint.prompt (Pitches.content pitch)) = fetch_response code txt ->
    code < 200 \/ 299 < code ->
    Endpoint.ask_openai w key pitch db
    = (inl (Error (String.concat EmptyString
                     [ "OpenAI API error: "; Endpoint.string_of_nat code; " - "; txt ])),
       db, []).
Proof.
  intros w key pitch db code txt Hf Hcode. unfold Endpoint.ask_openai. rewrite Hf.
  replace ((200 <=? code) && (code <=? 299)) with false; [reflexivity|].
  symmetry. apply andb_false_iff. destruct Hcode.
  - left. apply Nat.leb_gt. lia.
  - right. apply Nat.leb_gt. lia.
Qed.


Lemma ask_openai_malformed :
  forall w key pitch db code txt msg,
    fetch_openai w key (Endpoint.prompt (Pitches.content pitch)) = fetch_response code txt ->
    200 <= code <= 299 ->
    malformed w txt msg ->
    Endpoint.ask_openai w key pitch db = (inl (Error msg), db, []).
Proof.
  intros w key pitch db code txt msg Hf Hcode Hbad. unfold Endpoint.ask_openai. rewrite Hf.
  replace ((200 <=? code) && (code <=? 299)) with true
    by (symmetry; apply andb_true_iff; split; apply Nat.leb_le; lia).
  simpl negb. cbv iota.
  destruct Hbad as [Hp|[data [content [Hp [Hc Hq]]]]]; rewrite Hp; [reflexivity|].
  unfold Endpoint.bind. rewrite Hc. simpl. rewrite Hq. reflexivity.
Qed.


Lemma analyse_insert_error :
  forall w pid pitch db row e d,
    reaches_insert w pid pitch db row ->
    insert_ai_feedback w row db = (Some e, d) ->
    Endpoint.analyse w pid pitch db = (inl e, d, [d]).
Proof.
  intros w pid pitch db row e d Hreach Hins. unfold Endpoint.analyse.
  destruct Hreach as [[Hk ->]|[key [fb [Hk [Hask Hrow]]]]]; rewrite Hk.
  - now apply store_feedback_err.
  - rewrite (bind_pure _ _ db fb Hask).
    rewrite (bind_pure _ _ db row); [|now rewrite Hrow].
    now apply store_feedback_err.
Qed.

(** ** The text of a failure *)

Lemma message_or_default_nonempty :
  forall e, message e <> EmptyString -> Endpoint.message_or_default e = message e.
Proof.
  intros e H. unfold Endpoint.message_or_default.
  now rewrite (proj2 (String.eqb_neq _ _) H).
Qed.

Lemma score_of_integer_message :
  forall text n e, score_of_integer text n = inl e -> message e <> EmptyString.
Proof.
  intros text n e H. unfold score_of_integer in H.
  destruct (negb _); [injection H as <-; discriminate|].
  destruct (_ && _)%Z; [discriminate|]. injection H as <-. discriminate.
Qed.

Lemma score_column_message :
  forall w v e, score_column w v = inl e -> message e <> EmptyString.
Proof.
  intros w v e H. unfold score_column in H.
  destruct v as [[| b | n | q | s | l | f]|]; try discriminate;
    try (injection H as <-; discriminate).
  - destruct (Z.abs n <? 10 ^ 21)%Z; [exact (score_of_integer_message _ n e H)|].
    injection H as <-. discriminate.
  - destruct (int4_in w s) as [n|]; [exact (score_of_integer_message s n e H)|].
    injection H as <-. discriminate.
Qed.

Lemma failed_outcome_reported :
  forall w req db pitch_id p e d j,
    Endpoint.method req <> "OPTIONS" ->
    Endpoint.read_pitch_id w req = inr pitch_id ->
    truthy pitch_id = true ->
    select_pitch_single (Endpoint.text_of w pitch_id) db = Some p ->
    Endpoint.analyse w (Endpoint.text_of w pitch_id) (Endpoint.set_processing w p)
      (mark (Endpoint.text_of w pitch_id) (Endpoint.set_processing w) db) = (inl e, d, j) ->
    reported_failure w req db (Endpoint.text_of w pitch_id) (Endpoint.message_or_default e).
Proof.
  intros w req db v p e d j Hpost Hbody Htruthy Hfound Ha.
  set (pid := Endpoint.text_of w v) in *.
  set (started := mark pid (Endpoint.set_processing w) db) in *.
  assert (d = started) as ->.
  { destruct (analyse_cases w pid (Endpoint.set_processing w p) started)
      as [[fb [row [Hs _]]]|[e' [j' [Hs _]]]]; congruence. }
  unfold reported_failure, Endpoint.response_of, Endpoint.store_of.
  rewrite (serve_failure w req db v p Hpost Hbody Htruthy Hfound e started j Ha).
  cbn [fst snd]. split; [reflexivity|].
  exists (Endpoint.set_failed w e (Endpoint.set_processing w p)).
  split; [|repeat split].
  fold pid. unfold mark.
  rewrite (select_update pid _ started (set_failed_keeps_id w e)).
  unfold started, mark. rewrite (select_update pid _ db (set_processing_keeps_id w)).
  now rewrite Hfound.
Qed.

(** ** C9: validation and not-found answers *)

(** C9, as first stated, fails: a body that is the JSON [null], and a body
    that is not JSON at all, carry no [pitch_id], and are answered 500 with
    the text of the error, not 400. *)
Lemma C9_counterexample :
  JSON_parse Answers.offline "null" = inr JNull
  /\ Endpoint.serve Answers.offline (Answers.post "null") Sample.fresh
     = (inr {| Endpoint.status := 500;
               Endpoint.body :=
                 Endpoint.error_body "Cannot read properties of null (reading 'pitch_id')" |},
        Sample.fresh, [])
  /\ JSON_parse Answers.offline "not json" = inl "Unexpected token in JSON"
  /\ Endpoint.serve Answers.offline (Answers.post "not json") Sample.fresh
     = (inr {| Endpoint.status := 500;
               Endpoint.body := Endpoint.error_body "Unexpected token in JSON" |},
        Sample.fresh, []).
Proof. repeat split. Qed.

(** The four ways a run can end, by what the body yields. *)
Lemma serve_response_cases :
  forall w req db,
    Endpoint.method req <> "OPTIONS" ->
    (exists e,
        Endpoint.read_pitch_id w req = inl e
        /\ Endpoint.serve w req db
           = (inr {| Endpoint.status := 500;
                     Endpoint.body := Endpoint.error_body (Endpoint.message_or_default e) |},
              db, []))
    \/ (exists pitch_id,
        Endpoint.read_pitch_id w req = inr pitch_id
        /\ ((truthy pitch_id = false
             /\ Endpoint.serve w req db
                = (inr {| Endpoint.status := 400;
                          Endpoint.body := Endpoint.error_body "pitch_id is required" |},
                   db, []))
            \/ (truthy pitch_id = true
                /\ select_pitch_single (Endpoint.text_of w pitch_id) db = None
                /\ Endpoint.serve w req db
                   = (inr {| Endpoint.status := 404;
                             Endpoint.body := Endpoint.error_body "Pitch not found" |},
                      mark (Endpoint.text_of w pitch_id) (Endpoint.set_processing w) db,
                      [ mark (Endpoint.text_of w pitch_id) (Endpoint.set_processing w) db ]))
            \/ (truthy pitch_id = true
                /\ exists p resp,
                     select_pitch_single (Endpoint.text_of w pitch_id) db = Some p
                     /\ Endpoint.response_of (Endpoint.serve w req db) = inr resp
                     /\ (Endpoint.status resp = 200 \/ Endpoint.status resp = 500)))).
Proof.
  intros w req db Hpost. pose proof (not_options req Hpost) as Hm.
  destruct (Endpoint.read_pitch_id w req) as [e|v] eqn:Hbody.
  - left. exists e. split; [reflexivity|].
    unfold Endpoint.serve. rewrite Hm, Hbody. reflexivity.
  - right. exists v. split; [reflexivity|].
    destruct (truthy v) eqn:Hv.
    + right. destruct (select_pitch_single (Endpoint.text_of w v) db) as [p|] eqn:Hsel.
      * right. split; [reflexivity|]. exists p.
        destruct (analyse_cases w (Endpoint.text_of w v) (Endpoint.set_processing w p)
                    (mark (Endpoint.text_of w v) (Endpoint.set_processing w) db))
          as [[fb [row [Hrun _]]]|[e [j [Hrun _]]]].
        -- eexists. unfold Endpoint.response_of.
           rewrite (serve_success w req db v p Hpost Hbody Hv Hsel _ _ _ Hrun).
           split; [reflexivity|]. split; [reflexivity|now left].
        -- eexists. unfold Endpoint.response_of.
           rewrite (serve_failure w req db v p Hpost Hbody Hv Hsel _ _ _ Hrun).
           split; [reflexivity|]. split; [reflexivity|now right].
      * left. split; [reflexivity|]. split; [reflexivity|].
        rewrite (serve_post w req v db Hpost Hbody).
        apply try_catch_inr. now apply generate_not_found.
    + left. split; [reflexivity|].
      rewrite (serve_post w req v db Hpost Hbody).
      apply try_catch_inr. unfold Endpoint.generate. rewrite Hv. reflexivity.
Qed.

Lemma read_pitch_id_of_body :
  forall w req r,
    Endpoint.read_pitch_id w req = r ->
    match JSON_parse w (Endpoint.text req) with
    | inl msg => r = inl (Error msg)
    | inr body => r = member (Some body) "pitch_id"
    end.
Proof.
  intros w req r <-. unfold Endpoint.read_pitch_id.
  now destruct (JSON_parse w (Endpoint.text req)).
Qed.

(** C9, amended.  A request whose body is JSON other than [null] and has no
    [pitch_id], or a falsy one ([null], the empty string, 0, [false]), is
    answered 400 with "pitch_id is required", and only such a request is;
    a request whose [pitch_id] is the id of no pitch is answered 404 with
    "Pitch not found", and a 404 is given only when the pitch is not found.
    A body that is not JSON, or is [null], is answered 500 with the text of
    the error.  In all these cases the store is left as it was. *)
Theorem C9_missing_id_400_unknown_id_404 :
  forall (w : World) (req : Endpoint.Request) (db : database),
    Endpoint.method req <> "OPTIONS" ->
    (forall body pitch_id,
        JSON_parse w (Endpoint.text req) = inr body ->
        member (Some body) "pitch_id" = inr pitch_id ->
        truthy pitch_id = false ->
        Endpoint.serve w req db
        = (inr {| Endpoint.status := 400;
                  Endpoint.body := Endpoint.error_body "pitch_id is required" |},
           db, []))
    /\ (forall body pitch_id,
        JSON_parse w (Endpoint.text req) = inr body ->
        member (Some body) "pitch_id" = inr pitch_id ->
        truthy pitch_id = true ->
        has_pitch (Endpoint.text_of w pitch_id) db = false ->
        Endpoint.response_of (Endpoint.serve w req db)
        = inr {| Endpoint.status := 404;
                 Endpoint.body := Endpoint.error_body "Pitch not found" |}
        /\ Endpoint.store_of (Endpoint.serve w req db) = db)
    /\ (forall msg,
        JSON_parse w (Endpoint.text req) = inl msg ->
        Endpoint.serve w req db
        = (inr {| Endpoint.status := 500;
                  Endpoint.body :=
                    Endpoint.error_body
                      (if String.eqb msg EmptyString then "Failed to generate feedback"
                       else msg) |},
           db, []))
    /\ (JSON_parse w (Endpoint.text req) = inr JNull ->
        Endpoint.serve w req db
        = (inr {| Endpoint.status := 500;
                  Endpoint.body :=
                    Endpoint.error_body "Cannot read properties of null (reading 'pitch_id')" |},
           db, []))
    /\ (forall resp,
        Endpoint.response_of (Endpoint.serve w req db) = inr resp ->
        Endpoint.status resp = 400 ->
        exists body pitch_id,
          JSON_parse w (Endpoint.text req) = inr body
          /\ member (Some body) "pitch_id" = inr pitch_id
          /\ truthy pitch_id = false)
    /\ (forall resp,
        Endpoint.response_of (Endpoint.serve w req db) = inr resp ->
        Endpoint.status resp = 404 ->
        exists body pitch_id,
          JSON_parse w (Endpoint.text req) = inr body
          /\ member (Some body) "pitch_id" = inr pitch_id
          /\ truthy pitch_id = true
          /\ select_pitch_single (Endpoint.text_of w pitch_id) db = None).
Proof.
  intros w req db Hpost. pose proof (not_options req Hpost) as Hm.
  assert (forall v,
             Endpoint.read_pitch_id w req = inr v ->
             exists body,
               JSON_parse w (Endpoint.text req) = inr body
               /\ member (Some body) "pitch_id" = inr v) as Hread.
  { intros v Hv. apply read_pitch_id_of_body in Hv.
    destruct (JSON_parse w (Endpoint.text req)) as [msg|body]; [discriminate|].
    exists body. split; [reflexivity|]. now symmetry. }
  split; [|split; [|split; [|split; [|split]]]].
  - intros body v Hparse Hmem Hv.
    unfold Endpoint.serve, Endpoint.read_pitch_id. rewrite Hm, Hparse, Hmem.
    unfold Endpoint.try_catch, Endpoint.generate. rewrite Hv. reflexivity.
  - intros body v Hparse Hmem Hv Habs.
    assert (Endpoint.read_pitch_id w req = inr v) as Hbody
      by (unfold Endpoint.read_pitch_id; now rewrite Hparse).
    rewrite (serve_post w req v db Hpost Hbody).
    rewrite (try_catch_inr _ _ db _ _ _
               (generate_not_found w v db Hv (select_absent _ db Habs))).
    unfold Endpoint.response_of, Endpoint.store_of. cbn [fst snd].
    split; [reflexivity|]. unfold mark.
    apply (update_pitches_no_match _ _ db (has_pitch_false _ db Habs)).
  - intros msg Hparse. unfold Endpoint.serve, Endpoint.read_pitch_id.
    rewrite Hm, Hparse. reflexivity.
  - intros Hparse. unfold Endpoint.serve, Endpoint.read_pitch_id.
    rewrite Hm, Hparse. reflexivity.
  - intros resp Hresp Hst.
    destruct (serve_response_cases w req db Hpost)
      as [[e [_ Hs]]|[v [Hv [[Hf Hs]|[[_ [_ Hs]]|[_ [p [r [_ [Hs Hr]]]]]]]]]].
    + rewrite Hs in Hresp. injection Hresp as <-. discriminate.
    + destruct (Hread v Hv) as [body [Hp Hmem]]. now exists body, v.
    + rewrite Hs in Hresp. injection Hresp as <-. discriminate.
    + rewrite Hs in Hresp. injection Hresp as <-. destruct Hr; congruence.
  - intros resp Hresp Hst.
    destruct (serve_response_cases w req db Hpost)
      as [[e [_ Hs]]|[v [Hv [[Hf Hs]|[[Ht [Hsel Hs]]|[_ [p [r [_ [Hs Hr]]]]]]]]]].
    + rewrite Hs in Hresp. injection Hresp as <-. discriminate.
    + rewrite Hs in Hresp. injection Hresp as <-. discriminate.
    + destruct (Hread v Hv) as [body [Hp Hmem]]. now exists body, v.
    + rewrite Hs in Hresp. injection Hresp as <-. destruct Hr; congruence.
Qed.

(** Bodies that are answered 400: no [pitch_id], a [null] one, an empty
    one, 0, [false], and a body that is a number. *)
Example bodies_answered_400 :
  map (fun text =>
         option_map Endpoint.status
           (match Endpoint.response_of
                    (Endpoint.serve Answers.offline (Answers.post text) Sample.fresh) with
            | inr resp => Some resp
            | inl _ => None
            end))
    [ "{}"; Answers.body_of "null"; Answers.body_of (String.append Endpoint.dq Endpoint.dq);
      Answers.body_of "0"; Answers.body_of "false"; "5" ]
  = [ Some 400; Some 400; Some 400; Some 400; Some 400; Some 400 ].
Proof. reflexivity. Qed.

Lemma C9_witness :
  Endpoint.serve Sample.offline
    {| Endpoint.method := "POST"; Endpoint.text := "{}" |} Sample.fresh
  = (inr {| Endpoint.status := 400;
            Endpoint.body := Endpoint.error_body "pitch_id is required" |},
     Sample.fresh, [])
  /\ Endpoint.serve Answers.offline (Answers.post (Answers.body_of "null")) Sample.fresh
     = (inr {| Endpoint.status := 400;
               Endpoint.body := Endpoint.error_body "pitch_id is required" |},
        Sample.fresh, [])
  /\ Endpoint.response_of (Endpoint.serve Sample.offline (Sample.post "p9") Sample.fresh)
     = inr {| Endpoint.status := 404;
              Endpoint.body := Endpoint.error_body "Pitch not found" |}
  /\ Endpoint.serve Sample.offline
       {| Endpoint.method := "POST"; Endpoint.text := "not json" |} Sample.fresh
     = (inr {| Endpoint.status := 500;
               Endpoint.body := Endpoint.error_body "Unexpected token in JSON" |},
        Sample.fresh, []).
Proof.
  split; [|split; [|split]].
  - apply (proj1 (C9_missing_id_400_unknown_id_404 Sample.offline
                    {| Endpoint.method := "POST"; Endpoint.text := "{}" |}
                    Sample.fresh ltac:(discriminate)) (JObj []) None);
      reflexivity.
  - apply (proj1 (C9_missing_id_400_unknown_id_404 Answers.offline
                    (Answers.post (Answers.body_of "null"))
                    Sample.fresh ltac:(discriminate))
             (JObj [ ("pitch_id", JNull) ]) (Some JNull));
      reflexivity.
  - apply (proj1 (proj2 (C9_missing_id_400_unknown_id_404 Sample.offline
                    (Sample.post "p9") Sample.fresh ltac:(discriminate)))
             (JObj [ ("pitch_id", JStr "p9") ]) (Some (JStr "p9")));
      reflexivity.
  - exact (proj1 (proj2 (proj2 (C9_missing_id_400_unknown_id_404 Sample.offline
                    {| Endpoint.method := "POST"; Endpoint.text := "not json" |}
                    Sample.fresh ltac:(discriminate))))
             "Unexpected token in JSON" eq_refl).
Defined.

(** ** C4: a failed run is recorded on the pitch and answered with a 500 *)

(** C4, as first stated, fails: the body of the 500 is not generic.  It
    carries the text of the error that ended the run, so a run ended by a
    503 of the AI service and a run ended by the uniqueness constraint of
    ai_feedback answer with different bodies. *)
Lemma C4_counterexample :
  Endpoint.response_of
    (Endpoint.serve (Sample.world (Some "sk") (fetch_response 503 "busy"))
       (Sample.post "p1") Sample.fresh)
  = inr {| Endpoint.status := 500;
           Endpoint.body := Endpoint.error_body "OpenAI API error: 503 - busy" |}
  /\ Endpoint.response_of
       (Endpoint.serve Sample.offline (Sample.post "p1") Sample.analysed)
     = inr {| Endpoint.status := 500;
              Endpoint.body :=
                Endpoint.error_body
                  (String.append "duplicate key value violates unique constraint "
                     (quoted "ai_feedback_pitch_id_key")) |}
  /\ Endpoint.response_of
       (Endpoint.serve (Sample.world (Some "sk") (fetch_response 503 "busy"))
          (Sample.post "p1") Sample.fresh)
     <> Endpoint.response_of
          (Endpoint.serve Sample.offline (Sample.post "p1") Sample.analysed).
Proof. split; [reflexivity|]. split; [reflexivity|]. discriminate. Qed.

Lemma insert_error_message :
  forall w row db e d,
    insert_ai_feedback w row db = (Some e, d) -> message e <> EmptyString.
Proof.
  intros w row db e d H. unfold insert_ai_feedback in H.
  destruct (score_column w (ins_overall_score row)) as [e'|score] eqn:Hs.
  - assert (e' = e) as <- by congruence. exact (score_column_message w _ e' Hs).
  - destruct (has_feedback (ins_pitch_id row) db).
    + assert (unique_violation "ai_feedback_pitch_id_key" = e) as <- by congruence.
      discriminate.
    + destruct (negb (has_pitch (ins_pitch_id row) db)); [|discriminate].
      assert (foreign_key_violation "ai_feedback" "ai_feedback_pitch_id_fkey" = e) as <-
        by congruence.
      discriminate.
Qed.

(** C4, amended.  When a run fails after the pitch was found, the pitch is
    marked failed, the text of the error - [error.message], or "Failed to
    generate feedback" when that is empty - is recorded in
    [ai_processing_error] with the time in [ai_processing_completed_at], and
    the caller gets a 500 whose body is [{ error }] with that same text: the
    text of the cause, not a generic one.  For a non-2xx answer of the AI
    call the text is "OpenAI API error: <status> - <response text>", for a
    malformed completion it is the parser's message, and for an error of
    the feedback insert it is the store's message. *)
Theorem C4_failure_marks_failed_and_answers_500 :
  forall (w : World) (req : Endpoint.Request) (db : database)
         (pitch_id : jsval) (p : Pitches.row),
    Endpoint.method req <> "OPTIONS" ->
    Endpoint.read_pitch_id w req = inr pitch_id ->
    truthy pitch_id = true ->
    select_pitch_single (Endpoint.text_of w pitch_id) db = Some p ->
    let pid := Endpoint.text_of w pitch_id in
    let started := mark pid (Endpoint.set_processing w) db in
    let pitch := Endpoint.set_processing w p in
    (forall e d j,
        Endpoint.analyse w pid pitch started = (inl e, d, j) ->
        reported_failure w req db pid
          (if String.eqb (message e) EmptyString then "Failed to generate feedback"
           else message e)
        /\ ai_feedback (Endpoint.store_of (Endpoint.serve w req db)) = ai_feedback db)
    /\ (forall key code txt,
        Endpoint.credential w = Some key ->
        fetch_openai w key (Endpoint.prompt (Pitches.content p)) = fetch_response code txt ->
        code < 200 \/ 299 < code ->
        reported_failure w req db pid
          (String.concat EmptyString
             [ "OpenAI API error: "; Endpoint.string_of_nat code; " - "; txt ]))
    /\ (forall key code txt msg,
        Endpoint.credential w = Some key ->
        fetch_openai w key (Endpoint.prompt (Pitches.content p)) = fetch_response code txt ->
        200 <= code <= 299 ->
        malformed w txt msg ->
        msg <> EmptyString ->
        reported_failure w req db pid msg)
    /\ (forall row e d,
        reaches_insert w pid pitch started row ->
        insert_ai_feedback w row started = (Some e, d) ->
        message e <> EmptyString /\ reported_failure w req db pid (message e)).
Proof.
  intros w req db pitch_id p Hpost Hbody Htruthy Hfound pid started pitch.
  assert (forall e d j,
             Endpoint.analyse w pid pitch started = (inl e, d, j) ->
             reported_failure w req db pid (Endpoint.message_or_default e)) as Hgeneral
    by (intros e d j; apply (failed_outcome_reported w req db pitch_id p); assumption).
  assert (forall e d j,
             Endpoint.analyse w pid pitch started = (inl e, d, j) ->
             message e <> EmptyString ->
             reported_failure w req db pid (message e)) as Htext.
  { intros e d j Ha Hne. rewrite <- (message_or_default_nonempty e Hne).
    exact (Hgeneral e d j Ha). }
  split; [|split; [|split]].
  - intros e d j Ha. split; [exact (Hgeneral e d j Ha)|].
    assert (d = started) as ->.
    { destruct (analyse_cases w pid pitch started)
        as [[fb [row [Hs _]]]|[e' [j' [Hs _]]]]; congruence. }
    unfold Endpoint.store_of.
    rewrite (serve_failure w req db pitch_id p Hpost Hbody Htruthy Hfound e started j Ha).
    reflexivity.
  - intros key code txt Hk Hf Hcode.
    apply (Htext (Error (String.concat EmptyString
                           [ "OpenAI API error: "; Endpoint.string_of_nat code; " - "; txt ]))
             started []); [|discriminate].
    unfold Endpoint.analyse. rewrite Hk.
    apply bind_inl. now apply ask_openai_http_error.
  - intros key code txt msg Hk Hf Hcode Hbad Hne.
    apply (Htext (Error msg) started []); [|exact Hne].
    unfold Endpoint.analyse. rewrite Hk.
    apply bind_inl. now apply (ask_openai_malformed w key pitch started code txt msg).
  - intros row e d Hreach Hins.
    pose proof (insert_error_message w row started e d Hins) as Hne.
    split; [exact Hne|].
    apply (Htext e d [d]); [|exact Hne].
    now apply (analyse_insert_error w pid pitch started row).
Qed.

Lemma C4_witness :
  reported_failure (Sample.world (Some "sk") (fetch_response 503 "busy"))
    (Sample.post "p1") Sample.fresh "p1" "OpenAI API error: 503 - busy"
  /\ reported_failure (Sample.world (Some "sk") (fetch_response 200 "garbled completion"))
       (Sample.post "p1") Sample.fresh "p1" "Unexpected token in JSON"
  /\ reported_failure Sample.offline (Sample.post "p1") Sample.analysed "p1"
       (String.append "duplicate key value violates unique constraint "
          (quoted "ai_feedback_pitch_id_key")).
Proof.
  split; [|split].
  - apply (proj1 (proj2 (C4_failure_marks_failed_and_answers_500
             (Sample.world (Some "sk") (fetch_response 503 "busy"))
             (Sample.post "p1") Sample.fresh (Some (JStr "p1")) (Sample.pitch1 pending)
             ltac:(discriminate) eq_refl eq_refl eq_refl)) "sk" 503 "busy");
      [reflexivity|reflexivity|right; repeat constructor].
  - apply (proj1 (proj2 (proj2 (C4_failure_marks_failed_and_answers_500
             (Sample.world (Some "sk") (fetch_response 200 "garbled completion"))
             (Sample.post "p1") Sample.fresh (Some (JStr "p1")) (Sample.pitch1 pending)
             ltac:(discriminate) eq_refl eq_refl eq_refl)))
             "sk" 200 "garbled completion" "Unexpected token in JSON");
      [reflexivity|reflexivity|split; repeat constructor| |discriminate].
    right. exists (Sample.completion (JStr "not json")), (Some (JStr "not json")).
    repeat split.
  - apply (proj2 (proj2 (proj2 (proj2 (C4_failure_marks_failed_and_answers_500
             Sample.offline (Sample.post "p1") Sample.analysed
             (Some (JStr "p1")) (Sample.pitch1 completed)
             ltac:(discriminate) eq_refl eq_refl eq_refl)))
             (Endpoint.mock_insert "p1") (unique_violation "ai_feedback_pitch_id_key")
             (mark "p1" (Endpoint.set_processing Sample.offline) Sample.analysed)
             (or_introl (conj eq_refl eq_refl)) eq_refl)).
Defined.

(** ** C3: the mock feedback when no credential is configured *)

Lemma insert_mock :
  forall w pid db,
    has_feedback pid db = false ->
    has_pitch pid db = true ->
    insert_ai_feedback w (Endpoint.mock_insert pid) db
    = (None, add_feedback (mock_row pid) db).
Proof.
  intros w pid db Hf Hp. unfold insert_ai_feedback. simpl.
  now rewrite Hf, Hp.
Qed.

(** C3, as first stated, fails for a pitch that already has a feedback
    row: with no credential configured, the run for such an existing pitch
    is answered 500, the pitch is marked failed and no mock row is stored. *)
Lemma C3_counterexample :
  credential_absent Sample.offline
  /\ has_pitch "p1" Sample.analysed = true
  /\ Endpoint.response_of
       (Endpoint.serve Sample.offline (Sample.post "p1") Sample.analysed)
     = inr {| Endpoint.status := 500;
              Endpoint.body := Endpoint.error_body
                (message (unique_violation "ai_feedback_pitch_id_key")) |}
  /\ ai_status_of "p1"
       (Endpoint.store_of (Endpoint.serve Sample.offline (Sample.post "p1") Sample.analysed))
     = Some failed
  /\ ai_feedback
       (Endpoint.store_of (Endpoint.serve Sample.offline (Sample.post "p1") Sample.analysed))
     = [ Sample.feedback1 ].
Proof. repeat split. Qed.

(** C3, amended.  When the endpoint is invoked for an existing pitch that has
    no ai_feedback row yet and no AI credential is configured, it stores the
    fixed mock feedback (three strengths, three weaknesses, three
    recommendations, score 7) for that pitch, marks the pitch completed with
    the completion time and a cleared error, and answers 200 with
    [{ success: true, feedback }] carrying the mock feedback. *)
Theorem C3_mock_feedback_for_pitch_without_feedback :
  forall (w : World) (req : Endpoint.Request) (db : database)
         (pitch_id : jsval) (p : Pitches.row),
    Endpoint.method req <> "OPTIONS" ->
    Endpoint.read_pitch_id w req = inr pitch_id ->
    truthy pitch_id = true ->
    select_pitch_single (Endpoint.text_of w pitch_id) db = Some p ->
    credential_absent w ->
    has_feedback (Endpoint.text_of w pitch_id) db = false ->
    let pid := Endpoint.text_of w pitch_id in
    let after := Endpoint.store_of (Endpoint.serve w req db) in
    Endpoint.response_of (Endpoint.serve w req db)
    = inr {| Endpoint.status := 200;
             Endpoint.body := Endpoint.success_body Endpoint.mockFeedback |}
    /\ ai_feedback after = ai_feedback db ++ [ mock_row pid ]
    /\ (exists s k r,
          mock_row pid
          = {| AiFeedback.pitch_id := pid;
               AiFeedback.strengths := JArr s;
               AiFeedback.weaknesses := JArr k;
               AiFeedback.recommendations := JArr r;
               AiFeedback.overall_score := Some 7%Z |}
          /\ List.length s = 3 /\ List.length k = 3 /\ List.length r = 3
          /\ Endpoint.mockFeedback
             = JObj [ ("strengths", JArr s); ("weaknesses", JArr k);
                      ("recommendations", JArr r); ("overall_score", JNum 7) ])
    /\ (exists p',
          select_pitch_single pid after = Some p'
          /\ Pitches.ai_processing_status p' = completed
          /\ Pitches.ai_processing_completed_at p' = Some (now_completed w)
          /\ Pitches.ai_processing_error p' = None).
Proof.
  intros w req db pitch_id p Hpost Hbody Htruthy Hfound Hkey Hnone pid after.
  pose (started := mark pid (Endpoint.set_processing w) db).
  assert (Endpoint.analyse w pid (Endpoint.set_processing w p) started
          = (inr {| Endpoint.status := 200;
                    Endpoint.body := Endpoint.success_body Endpoint.mockFeedback |},
             mark pid (Endpoint.set_completed w) (add_feedback (mock_row pid) started),
             [ add_feedback (mock_row pid) started;
               mark pid (Endpoint.set_completed w) (add_feedback (mock_row pid) started) ]))
    as Hrun.
  { unfold Endpoint.analyse. rewrite Hkey. apply store_feedback_ok. apply insert_mock.
    - exact Hnone.
    - unfold started, mark. rewrite (has_pitch_update _ _ _ db (set_processing_keeps_id w)).
      exact (select_some_has_pitch _ _ _ Hfound). }
  pose proof (serve_success w req db pitch_id p Hpost Hbody Htruthy Hfound _ _ _ Hrun) as Hs.
  unfold after, Endpoint.response_of, Endpoint.store_of. rewrite Hs. simpl fst. simpl snd.
  split; [reflexivity|]. split; [reflexivity|]. split.
  - do 3 eexists. split; [reflexivity|]. repeat split.
  - exists (Endpoint.set_completed w (Endpoint.set_processing w p)).
    split; [|repeat split].
    unfold mark at 1. rewrite (select_update pid _ _ (set_completed_keeps_id w)).
    change (select_pitch_single pid (add_feedback (mock_row pid) started))
      with (select_pitch_single pid started).
    fold pid in Hfound.
    unfold started, mark. rewrite (select_update pid _ db (set_processing_keeps_id w)).
    now rewrite Hfound.
Qed.

Lemma C3_witness :
  Endpoint.response_of (Endpoint.serve Sample.offline (Sample.post "p1") Sample.fresh)
  = inr {| Endpoint.status := 200;
           Endpoint.body := Endpoint.success_body Endpoint.mockFeedback |}
  /\ ai_feedback
       (Endpoint.store_of (Endpoint.serve Sample.offline (Sample.post "p1") Sample.fresh))
     = [ mock_row "p1" ].
Proof.
  pose proof (C3_mock_feedback_for_pitch_without_feedback
                Sample.offline (Sample.post "p1") Sample.fresh
                (Some (JStr "p1")) (Sample.pitch1 pending)
                ltac:(discriminate) eq_refl eq_refl eq_refl eq_refl eq_refl) as H.
  split; [exact (proj1 H)|exact (proj1 (proj2 H))].
Defined.

(** ** C2: the transitions of the AI-processing status *)

(** C2, as first stated, fails: 'completed' is not terminal.  The store
    reached by one submission has the pitch completed, and one more
    invocation of the endpoint for that pitch takes it through 'processing'
    to 'failed'. *)
Lemma C2_counterexample :
  reachable Scenario.after_submit
  /\ ai_status_of "p1" Scenario.after_submit = Some completed
  /\ map (ai_status_of "p1")
       (Endpoint.journal_of
          (Endpoint.serve Sample.offline (Sample.post "p1") Scenario.after_submit))
     = [ Some processing; Some processing; Some failed ]
  /\ ai_status_of "p1" (step Scenario.invoke_again Scenario.after_submit) = Some failed.
Proof.
  split; [exists Scenario.submit_offline; reflexivity|]. repeat split.
Qed.

Lemma ai_status_mark :
  forall pid set db,
    keeps_id set ->
    ai_status_of pid (mark pid set db)
    = option_map (fun p => Pitches.ai_processing_status (set p))
        (select_pitch_single pid db).
Proof.
  intros pid set db Hk. unfold ai_status_of, mark.
  rewrite (select_update pid set db Hk).
  destruct (select_pitch_single pid db); reflexivity.
Qed.

Lemma endpoint_run_statuses :
  forall w req db pitch_id p,
    Endpoint.method req <> "OPTIONS" ->
    Endpoint.read_pitch_id w req = inr pitch_id ->
    truthy pitch_id = true ->
    select_pitch_single (Endpoint.text_of w pitch_id) db = Some p ->
    exists mid final,
      map (ai_status_of (Endpoint.text_of w pitch_id))
        (Endpoint.journal_of (Endpoint.serve w req db))
      = Some processing :: mid ++ [ Some final ]
      /\ Forall (eq (Some processing)) mid
      /\ (final = completed \/ final = failed)
      /\ ai_status_of (Endpoint.text_of w pitch_id)
           (Endpoint.store_of (Endpoint.serve w req db)) = Some final.
Proof.
  intros w req db pitch_id p Hpost Hbody Htruthy Hfound.
  set (pid := Endpoint.text_of w pitch_id) in *.
  set (started := mark pid (Endpoint.set_processing w) db).
  assert (ai_status_of pid started = Some processing) as Hstarted.
  { unfold started. rewrite (ai_status_mark pid _ db (set_processing_keeps_id w)).
    now rewrite Hfound. }
  assert (select_pitch_single pid started = Some (Endpoint.set_processing w p)) as Hsel
    by (apply (started_select w db pitch_id p Hfound)).
  destruct (analyse_cases w pid (Endpoint.set_processing w p) started)
    as [[fb [row [Hrun _]]]|[e [j [Hrun Hj]]]].
  - exists [ Some processing ], completed.
    rewrite (serve_success w req db pitch_id p Hpost Hbody Htruthy Hfound _ _ _ Hrun).
    unfold Endpoint.journal_of, Endpoint.store_of. simpl fst. simpl snd.
    assert (ai_status_of pid (mark pid (Endpoint.set_completed w) (add_feedback row started))
            = Some completed) as Hdone.
    { rewrite (ai_status_mark pid _ _ (set_completed_keeps_id w)).
      change (select_pitch_single pid (add_feedback row started))
        with (select_pitch_single pid started).
      now rewrite Hsel. }
    split; [|split; [repeat constructor|split; [now left|exact Hdone]]].
    cbn [map app].
    change (ai_status_of pid (add_feedback row started)) with (ai_status_of pid started).
    change (mark (Endpoint.text_of w pitch_id) (Endpoint.set_processing w) db) with started.
    now rewrite Hstarted, Hdone.
  - exists (map (ai_status_of pid) j), failed.
    rewrite (serve_failure w req db pitch_id p Hpost Hbody Htruthy Hfound _ _ _ Hrun).
    unfold Endpoint.journal_of, Endpoint.store_of. simpl fst. simpl snd.
    assert (ai_status_of pid (mark pid (Endpoint.set_failed w e) started) = Some failed)
      as Hfail.
    { rewrite (ai_status_mark pid _ _ (set_failed_keeps_id w e)). now rewrite Hsel. }
    split; [|split; [|split; [now right|exact Hfail]]].
    + cbn [map]. rewrite map_app. cbn [map].
      change (mark (Endpoint.text_of w pitch_id) (Endpoint.set_processing w) db) with started.
      change (Endpoint.text_of w pitch_id) with pid.
      now rewrite Hstarted, Hfail.
    + destruct Hj as [->| ->]; cbn [map]; [constructor|].
      rewrite Hstarted. repeat constructor.
Qed.

Lemma client_statement_keeps_statuses :
  forall a db,
    client_statement a ->
    exists extra,
      map id_status (pitches (step a db)) = map id_status (pitches db) ++ extra
      /\ Forall (fun x => snd x = pending) extra.
Proof.
  assert (forall db, exists extra,
             map id_status (pitches db) = map id_status (pitches db) ++ extra
             /\ Forall (fun x => snd x = pending) extra) as Hsame
    by (intros db; exists []; split; [now rewrite app_nil_r|constructor]).
  assert (forall uid d data st db, exists extra,
             map id_status (pitches (update_pitch uid d data st db))
             = map id_status (pitches db) ++ extra
             /\ Forall (fun x => snd x = pending) extra) as Hupd.
  { intros uid d data st db. exists []. split; [|constructor].
    rewrite app_nil_r. unfold update_pitch, update_pitches. simpl.
    rewrite map_map. apply map_ext. intros q. now destruct (_ && _). }
  assert (forall uid nid c owner data st db, exists extra,
             map id_status (pitches (snd (insert_pitch uid nid c owner data st db)))
             = map id_status (pitches db) ++ extra
             /\ Forall (fun x => snd x = pending) extra) as Hins.
  { intros uid nid c owner data st db. unfold insert_pitch.
    destruct (negb _); [apply Hsame|]. destruct (has_pitch nid db); [apply Hsame|].
    simpl. eexists. rewrite map_app. split; [reflexivity|]. repeat constructor. }
  assert (forall uid v db, pitches (snd (insert_vote uid v db)) = pitches db) as Hvote.
  { intros uid v db. unfold insert_vote.
    repeat match goal with |- context [if ?c then _ else _] => destruct c end; reflexivity. }
  intros [uid nid c cur data|uid nid c cur data|w req|user pitch voting pid vt
         |user feed i voting vt|] db Hc; simpl in Hc; try contradiction; simpl.
  - unfold SubmissionForm.saveDraft. destruct cur; [apply Hupd|apply Hins].
  - unfold SubmissionForm.publish. destruct cur; simpl; [apply Hupd|].
    specialize (Hins uid nid c uid data published db).
    destruct (insert_pitch uid nid c uid data published db) as [[e|] d]; exact Hins.
  - unfold PitchDetailView.handleVote.
    destruct user; [|apply Hsame]. destruct pitch; [|apply Hsame].
    destruct (_ || _); [apply Hsame|]. destruct (PitchDetailView.user_vote _).
    + exact (Hsame db).
    + rewrite Hvote. apply Hsame.
  - unfold DiscoverFeed.handleVote.
    destruct user; [|apply Hsame]. destruct (_ || _); [apply Hsame|].
    destruct (nth_error feed i); [|apply Hsame]. rewrite Hvote. apply Hsame.
Qed.

Lemma migration_touches_pending_only :
  forall db,
    exists f,
      pitches (status_migration db) = map f (pitches db)
      /\ forall p, Pitches.ai_processing_status p <> pending -> f p = p.
Proof.
  intros db. unfold status_migration, update_pitches. simpl. rewrite map_map.
  eexists. split; [reflexivity|]. intros p Hp. simpl.
  assert (processing_status_eqb (Pitches.ai_processing_status p) pending = false) as E
    by (destruct (Pitches.ai_processing_status p); try reflexivity; now elim Hp).
  rewrite E, andb_false_r. now rewrite E, andb_false_r.
Qed.

Lemma select_single_row :
  forall pid db p,
    select_pitch_single pid db = Some p -> In p (pitches db) /\ Pitches.id p = pid.
Proof.
  intros pid db p H. unfold select_pitch_single in H.
  destruct (filter (fun q => String.eqb (Pitches.id q) pid) (pitches db))
    as [|q [|q' r]] eqn:E; try discriminate.
  injection H as ->.
  assert (In p (filter (fun q => String.eqb (Pitches.id q) pid) (pitches db))) as Hin
    by (rewrite E; now left).
  apply filter_In in Hin. destruct Hin as [Hin Hid]. split; [exact Hin|].
  now apply String.eqb_eq.
Qed.

Lemma reaches_insert_pid :
  forall w pid pitch db row, reaches_insert w pid pitch db row -> ins_pitch_id row = pid.
Proof.
  intros w pid pitch db row [[_ ->]|[key [fb [_ [_ Hrow]]]]]; [reflexivity|].
  now apply insert_of_pid in Hrow.
Qed.

(** A run for a pitch that has its feedback row: the insert is refused. *)
Lemma run_with_feedback :
  forall w req db pitch_id p,
    Endpoint.method req <> "OPTIONS" ->
    Endpoint.read_pitch_id w req = inr pitch_id ->
    truthy pitch_id = true ->
    select_pitch_single (Endpoint.text_of w pitch_id) db = Some p ->
    has_feedback (Endpoint.text_of w pitch_id) db = true ->
    ai_status_of (Endpoint.text_of w pitch_id)
      (Endpoint.store_of (Endpoint.serve w req db)) = Some failed
    /\ ai_feedback (Endpoint.store_of (Endpoint.serve w req db)) = ai_feedback db
    /\ (forall row score,
          reaches_insert w (Endpoint.text_of w pitch_id) (Endpoint.set_processing w p)
            (mark (Endpoint.text_of w pitch_id) (Endpoint.set_processing w) db) row ->
          score_column w (ins_overall_score row) = inr score ->
          reported_failure w req db (Endpoint.text_of w pitch_id)
            (message (unique_violation "ai_feedback_pitch_id_key"))).
Proof.
  intros w req db v p Hpost Hbody Htruthy Hfound Hfb.
  set (pid := Endpoint.text_of w v) in *.
  set (started := mark pid (Endpoint.set_processing w) db).
  assert (has_feedback pid started = true) as Hfb' by exact Hfb.
  assert (select_pitch_single pid started = Some (Endpoint.set_processing w p)) as Hsel
    by (apply (started_select w db v p Hfound)).
  destruct (analyse_cases w pid (Endpoint.set_processing w p) started)
    as [[fb [row [_ [_ Hnone]]]]|[e [j [Hrun _]]]]; [congruence|].
  split; [|split].
  - unfold Endpoint.store_of.
    rewrite (serve_failure w req db v p Hpost Hbody Htruthy Hfound _ _ _ Hrun).
    cbn [fst snd]. rewrite (ai_status_mark pid _ _ (set_failed_keeps_id w e)).
    fold started. now rewrite Hsel.
  - unfold Endpoint.store_of.
    rewrite (serve_failure w req db v p Hpost Hbody Htruthy Hfound _ _ _ Hrun).
    reflexivity.
  - intros row score Hreach Hscore.
    assert (insert_ai_feedback w row started
            = (Some (unique_violation "ai_feedback_pitch_id_key"), started)) as Hins.
    { unfold insert_ai_feedback.
      rewrite Hscore, (reaches_insert_pid _ _ _ _ _ Hreach), Hfb'. reflexivity. }
    pose proof (analyse_insert_error w pid _ started row _ _ Hreach Hins) as Ha.
    exact (failed_outcome_reported w req db v p _ _ _ Hpost Hbody Htruthy Hfound Ha).
Qed.

(** A run completes a pitch only when the pitch had no feedback row. *)
Lemma completed_run_had_no_feedback :
  forall w req db pitch_id p,
    Endpoint.method req <> "OPTIONS" ->
    Endpoint.read_pitch_id w req = inr pitch_id ->
    truthy pitch_id = true ->
    select_pitch_single (Endpoint.text_of w pitch_id) db = Some p ->
    ai_status_of (Endpoint.text_of w pitch_id)
      (Endpoint.store_of (Endpoint.serve w req db)) = Some completed ->
    has_feedback (Endpoint.text_of w pitch_id) db = false
    /\ has_feedback (Endpoint.text_of w pitch_id)
         (Endpoint.store_of (Endpoint.serve w req db)) = true.
Proof.
  intros w req db v p Hpost Hbody Htruthy Hfound Hdone.
  set (pid := Endpoint.text_of w v) in *.
  set (started := mark pid (Endpoint.set_processing w) db).
  assert (select_pitch_single pid started = Some (Endpoint.set_processing w p)) as Hsel
    by (apply (started_select w db v p Hfound)).
  destruct (analyse_cases w pid (Endpoint.set_processing w p) started)
    as [[fb [row [Hrun [Hrow Hnone]]]]|[e [j [Hrun _]]]].
  - split; [exact Hnone|]. unfold Endpoint.store_of.
    rewrite (serve_success w req db v p Hpost Hbody Htruthy Hfound _ _ _ Hrun).
    cbn [fst snd]. unfold mark. rewrite has_feedback_update, has_feedback_add, Hrow.
    rewrite String.eqb_refl. apply orb_true_r.
  - exfalso. unfold Endpoint.store_of in Hdone.
    rewrite (serve_failure w req db v p Hpost Hbody Htruthy Hfound _ _ _ Hrun) in Hdone.
    cbn [fst snd] in Hdone.
    rewrite (ai_status_mark pid _ _ (set_failed_keeps_id w e)) in Hdone.
    fold started in Hdone. rewrite Hsel in Hdone. discriminate.
Qed.

(** A run leaves the pitches it was not invoked for as they are. *)
Lemma run_leaves_other_pitches :
  forall w req db q,
    In q (pitches db) ->
    ~ requested w req (Pitches.id q) ->
    In q (pitches (Endpoint.store_of (Endpoint.serve w req db))).
Proof.
  intros w req db q Hin Hnot.
  destruct (String.eqb (Endpoint.method req) "OPTIONS") eqn:Hm.
  { unfold Endpoint.serve. rewrite Hm. exact Hin. }
  assert (Endpoint.method req <> "OPTIONS") as Hpost by now apply String.eqb_neq.
  destruct (Endpoint.read_pitch_id w req) as [e|v] eqn:Hbody.
  { unfold Endpoint.serve. rewrite Hm, Hbody. exact Hin. }
  destruct (truthy v) eqn:Hv.
  2:{ unfold Endpoint.serve. rewrite Hm, Hbody.
      unfold Endpoint.try_catch, Endpoint.generate. rewrite Hv. exact Hin. }
  set (pid := Endpoint.text_of w v).
  assert (Pitches.id q <> pid) as Hne
    by (intros Heq; apply Hnot; exists v; auto).
  assert (In q (pitches (mark pid (Endpoint.set_processing w) db))) as Hstarted
    by now apply mark_other_pitches.
  destruct (select_pitch_single pid db) as [p|] eqn:Hsel.
  - destruct (analyse_cases w pid (Endpoint.set_processing w p)
                (mark pid (Endpoint.set_processing w) db))
      as [[fb [row [Hrun _]]]|[e [j [Hrun _]]]]; unfold Endpoint.store_of.
    + rewrite (serve_success w req db v p Hpost Hbody Hv Hsel _ _ _ Hrun). cbn [fst snd].
      apply mark_other_pitches; [exact Hstarted|exact Hne].
    + rewrite (serve_failure w req db v p Hpost Hbody Hv Hsel _ _ _ Hrun). cbn [fst snd].
      apply mark_other_pitches; [exact Hstarted|exact Hne].
  - unfold Endpoint.store_of. rewrite (serve_post w req v db Hpost Hbody).
    rewrite (try_catch_inr _ _ db _ _ _ (generate_not_found w v db Hv Hsel)).
    exact Hstarted.
Qed.

(** C2, amended.  An invocation of the endpoint for an existing pitch first
    writes 'processing', whatever the status was before (pending,
    processing, failed or completed), the status stays 'processing' until
    the last write, and the run ends with 'completed' or 'failed'; it ends
    with 'completed' only for a pitch that had no feedback row, and it
    leaves every pitch it was not invoked for as it is.  The statements the
    components send themselves (saving or publishing a pitch, voting) leave
    the AI-processing status of every existing pitch as it is and create
    pitches as 'pending'; the status migration changes pending pitches
    only.  So a completed pitch stays completed until the endpoint is
    invoked for it again, and that run ends with 'failed' and no new row:
    when it gets as far as the insert, with the message of the uniqueness
    constraint on ai_feedback. *)
Theorem C2_status_transitions :
  (forall (w : World) (req : Endpoint.Request) (db : database)
          (pitch_id : jsval) (p : Pitches.row),
      Endpoint.method req <> "OPTIONS" ->
      Endpoint.read_pitch_id w req = inr pitch_id ->
      truthy pitch_id = true ->
      select_pitch_single (Endpoint.text_of w pitch_id) db = Some p ->
      exists mid final,
        map (ai_status_of (Endpoint.text_of w pitch_id))
          (Endpoint.journal_of (Endpoint.serve w req db))
        = Some processing :: mid ++ [ Some final ]
        /\ Forall (eq (Some processing)) mid
        /\ (final = completed \/ final = failed)
        /\ ai_status_of (Endpoint.text_of w pitch_id)
             (Endpoint.store_of (Endpoint.serve w req db)) = Some final)
  /\ (forall a db,
        client_statement a ->
        exists extra,
          map id_status (pitches (step a db)) = map id_status (pitches db) ++ extra
          /\ Forall (fun x => snd x = pending) extra)
  /\ (forall db,
        exists f,
          pitches (status_migration db) = map f (pitches db)
          /\ forall p, Pitches.ai_processing_status p <> pending -> f p = p)
  /\ (forall (w : World) (req : Endpoint.Request) (db : database)
             (pitch_id : jsval) (p : Pitches.row),
        reachable db ->
        Endpoint.method req <> "OPTIONS" ->
        Endpoint.read_pitch_id w req = inr pitch_id ->
        truthy pitch_id = true ->
        select_pitch_single (Endpoint.text_of w pitch_id) db = Some p ->
        Pitches.ai_processing_status p = completed ->
        ai_status_of (Endpoint.text_of w pitch_id)
          (Endpoint.store_of (Endpoint.serve w req db)) = Some failed
        /\ ai_feedback (Endpoint.store_of (Endpoint.serve w req db)) = ai_feedback db
        /\ (forall row score,
              reaches_insert w (Endpoint.text_of w pitch_id) (Endpoint.set_processing w p)
                (mark (Endpoint.text_of w pitch_id) (Endpoint.set_processing w) db) row ->
              score_column w (ins_overall_score row) = inr score ->
              reported_failure w req db (Endpoint.text_of w pitch_id)
                (String.append "duplicate key value violates unique constraint "
                   (quoted "ai_feedback_pitch_id_key"))))
  /\ (forall (w : World) (req : Endpoint.Request) (db : database)
             (pitch_id : jsval) (p : Pitches.row),
        Endpoint.method req <> "OPTIONS" ->
        Endpoint.read_pitch_id w req = inr pitch_id ->
        truthy pitch_id = true ->
        select_pitch_single (Endpoint.text_of w pitch_id) db = Some p ->
        ai_status_of (Endpoint.text_of w pitch_id)
          (Endpoint.store_of (Endpoint.serve w req db)) = Some completed ->
        has_feedback (Endpoint.text_of w pitch_id) db = false
        /\ has_feedback (Endpoint.text_of w pitch_id)
             (Endpoint.store_of (Endpoint.serve w req db)) = true)
  /\ (forall (w : World) (req : Endpoint.Request) (db : database) (q : Pitches.row),
        In q (pitches db) ->
        ~ requested w req (Pitches.id q) ->
        In q (pitches (Endpoint.store_of (Endpoint.serve w req db)))).
Proof.
  split; [exact endpoint_run_statuses|].
  split; [exact client_statement_keeps_statuses|].
  split; [exact migration_touches_pending_only|].
  split; [|split; [exact completed_run_had_no_feedback|exact run_leaves_other_pitches]].
  intros w req db v p Hreach Hpost Hbody Htruthy Hfound Hdone.
  apply (run_with_feedback w req db v p Hpost Hbody Htruthy Hfound).
  destruct (select_single_row _ db p Hfound) as [Hin Hid].
  destruct (visited_feedback_ok db (or_introl Hreach)) as [_ Hc].
  rewrite <- Hid. now apply Hc.
Qed.

Lemma C2_witness :
  (exists mid final,
      map (ai_status_of "p1")
        (Endpoint.journal_of (Endpoint.serve Sample.offline (Sample.post "p1") Sample.fresh))
      = Some processing :: mid ++ [ Some final ]
      /\ Forall (eq (Some processing)) mid
      /\ (final = completed \/ final = failed)
      /\ ai_status_of "p1"
           (Endpoint.store_of (Endpoint.serve Sample.offline (Sample.post "p1") Sample.fresh))
         = Some final)
  /\ (exists extra,
       map id_status
         (pitches (step (FeedVote (Some "u2") [ Sample.pitch1 completed ] 0 false interesting)
                     Sample.analysed))
       = map id_status (pitches Sample.analysed) ++ extra
       /\ Forall (fun x => snd x = pending) extra)
  /\ reachable Scenario.after_submit
  /\ ai_status_of "p1"
       (Endpoint.store_of
          (Endpoint.serve Sample.offline (Sample.post "p1") Scenario.after_submit))
     = Some failed
  /\ reported_failure Sample.offline (Sample.post "p1") Scenario.after_submit "p1"
       (String.append "duplicate key value violates unique constraint "
          (quoted "ai_feedback_pitch_id_key"))
  /\ has_feedback "p1" Sample.fresh = false
  /\ In (Scenario.pitch_of "a" "u1" 100%Z)
       (pitches (Endpoint.store_of
                   (Endpoint.serve Sample.offline (Sample.post "p1") Scenario.arena))).
Proof.
  assert (reachable Scenario.after_submit) as Hr
    by (exists Scenario.submit_offline; reflexivity).
  pose proof (proj1 (proj2 (proj2 (proj2 C2_status_transitions)))
                Sample.offline (Sample.post "p1") Scenario.after_submit
                (Some (JStr "p1"))
                (Endpoint.set_completed Sample.offline
                   (Endpoint.set_processing Sample.offline (Sample.pitch1 pending)))
                Hr ltac:(discriminate) eq_refl eq_refl eq_refl eq_refl) as Hagain.
  split; [|split; [|split; [exact Hr|split; [exact (proj1 Hagain)|split; [|split]]]]].
  - exact (proj1 C2_status_transitions Sample.offline (Sample.post "p1") Sample.fresh
             (Some (JStr "p1")) (Sample.pitch1 pending)
             ltac:(discriminate) eq_refl eq_refl eq_refl).
  - exact (proj1 (proj2 C2_status_transitions)
             (FeedVote (Some "u2") [ Sample.pitch1 completed ] 0 false interesting)
             Sample.analysed I).
  - exact (proj2 (proj2 Hagain) (Endpoint.mock_insert "p1") (Some 7%Z)
             (or_introl (conj eq_refl eq_refl)) eq_refl).
  - exact (proj1 (proj1 (proj2 (proj2 (proj2 (proj2 C2_status_transitions))))
             Sample.offline (Sample.post "p1") Sample.fresh
             (Some (JStr "p1")) (Sample.pitch1 pending)
             ltac:(discriminate) eq_refl eq_refl eq_refl eq_refl)).
  - apply (proj2 (proj2 (proj2 (proj2 (proj2 C2_status_transitions))))
             Sample.offline (Sample.post "p1") Scenario.arena
             (Scenario.pitch_of "a" "u1" 100%Z)).
    + left. reflexivity.
    + intros [v [Hv [_ Ht]]]. vm_compute in Hv. injection Hv as <-. discriminate.
Defined.

(** ** C7: one vote per pitch and voter, never on an own pitch *)

Lemma votes_ok_empty : votes_ok empty_database.
Proof. split; [constructor|split; intros v []]. Qed.

Lemma votes_ok_frame :
  forall db db',
    votes db' = votes db ->
    map owner_key (pitches db') = map owner_key (pitches db) ->
    votes_ok db -> votes_ok db'.
Proof.
  intros db db' Hv Hp H. unfold votes_ok in *. now rewrite Hv, Hp.
Qed.

Lemma owner_key_update :
  forall cond set db,
    keeps_id set ->
    (forall p, Pitches.user_id (set p) = Pitches.user_id p) ->
    map owner_key (pitches (update_pitches cond set db)) = map owner_key (pitches db).
Proof.
  intros cond set db Hk Hu. unfold update_pitches. simpl. rewrite map_map.
  apply map_ext. intros p. destruct (cond p); [|reflexivity].
  unfold owner_key. now rewrite Hk, Hu.
Qed.

Lemma has_pitch_in :
  forall pid db, has_pitch pid db = true <-> In pid (map fst (map owner_key (pitches db))).
Proof.
  intros pid db. unfold has_pitch. rewrite map_map. simpl. split.
  - intros H. apply existsb_exists in H. destruct H as [p [Hin Hp]].
    apply String.eqb_eq in Hp. apply in_map_iff. exists p. now split.
  - intros H. apply in_map_iff in H. destruct H as [p [Hp Hin]].
    apply existsb_exists. exists p. split; [exact Hin|]. now apply String.eqb_eq.
Qed.

Lemma owns_in :
  forall uid pid db,
    owns uid pid db = true <-> In (pid, uid) (map owner_key (pitches db)).
Proof.
  intros uid pid db. unfold owns. split.
  - intros H. apply existsb_exists in H. destruct H as [p [Hin Hp]].
    apply andb_prop in Hp. destruct Hp as [H1 H2].
    apply String.eqb_eq in H1. apply String.eqb_eq in H2.
    apply in_map_iff. exists p. split; [|exact Hin]. unfold owner_key. now rewrite H1, H2.
  - intros H. apply in_map_iff in H. destruct H as [p [Hp Hin]].
    apply existsb_exists. exists p. split; [exact Hin|].
    unfold owner_key in Hp. injection Hp as -> ->. now rewrite !String.eqb_refl.
Qed.

Lemma has_vote_in :
  forall pid uid db,
    has_vote pid uid db = true <-> In (pid, uid) (map vote_key (votes db)).
Proof.
  intros pid uid db. unfold has_vote, vote_is. split.
  - intros H. apply existsb_exists in H. destruct H as [v [Hin Hv]].
    apply andb_prop in Hv. destruct Hv as [H1 H2].
    apply String.eqb_eq in H1. apply String.eqb_eq in H2.
    apply in_map_iff. exists v. split; [|exact Hin]. unfold vote_key. now rewrite H1, H2.
  - intros H. apply in_map_iff in H. destruct H as [v [Hv Hin]].
    apply existsb_exists. exists v. split; [exact Hin|].
    unfold vote_key in Hv. injection Hv as -> ->. now rewrite !String.eqb_refl.
Qed.

Lemma votes_ok_insert_pitch :
  forall uid new_id created owner data st db,
    votes_ok db -> votes_ok (snd (insert_pitch uid new_id created owner data st db)).
Proof.
  intros uid nid c owner data st db H. unfold insert_pitch.
  destruct (negb _); [exact H|]. destruct (has_pitch nid db) eqn:Hnew; [exact H|]. simpl.
  destruct H as [Hnd [Hself Hfk]]. unfold votes_ok. simpl. rewrite !map_app. simpl.
  split; [exact Hnd|]. split.
  - intros v Hv Hin. apply in_app_or in Hin. destruct Hin as [Hin|[Heq|[]]].
    + exact (Hself v Hv Hin).
    + specialize (Hfk v Hv). apply has_pitch_in in Hfk.
      unfold vote_key in Heq. injection Heq as Hid _. rewrite <- Hid in Hfk. congruence.
  - intros v Hv. apply in_or_app. left. exact (Hfk v Hv).
Qed.

Lemma votes_ok_update_pitch :
  forall uid d data st db, votes_ok db -> votes_ok (update_pitch uid d data st db).
Proof.
  intros uid d data st db H. apply (votes_ok_frame db); [reflexivity| |exact H].
  unfold update_pitch. apply owner_key_update; intros p; reflexivity.
Qed.

Lemma votes_ok_insert_vote :
  forall uid v db, votes_ok db -> votes_ok (snd (insert_vote uid v db)).
Proof.
  intros uid v db H. unfold insert_vote.
  destruct (String.eqb uid (Votes.user_id v)) eqn:Eu; simpl; [|exact H].
  destruct (owns uid (Votes.pitch_id v) db) eqn:Eo; simpl; [exact H|].
  destruct (has_vote (Votes.pitch_id v) (Votes.user_id v) db) eqn:Ev; [exact H|].
  destruct (has_pitch (Votes.pitch_id v) db) eqn:Ep; simpl; [|exact H].
  apply String.eqb_eq in Eu. subst uid.
  destruct H as [Hnd [Hself Hfk]]. unfold votes_ok. simpl. rewrite map_app. simpl.
  split; [|split].
  - apply NoDup_app; [exact Hnd|repeat constructor; intros []|].
    intros k Hk [<-|[]]. apply has_vote_in in Hk. unfold vote_key in Hk. congruence.
  - intros v' Hv'. apply in_app_or in Hv'. destruct Hv' as [Hv'|[<-|[]]].
    + now apply Hself.
    + intros Hin. apply owns_in in Hin. congruence.
  - intros v' Hv'. apply in_app_or in Hv'. destruct Hv' as [Hv'|[<-|[]]].
    + now apply Hfk.
    + now apply has_pitch_in.
Qed.

Lemma update_vote_keys :
  forall uid pid vu vt db,
    map vote_key (votes (update_vote uid pid vu vt db)) = map vote_key (votes db).
Proof.
  intros uid pid vu vt db. unfold update_vote. simpl. rewrite map_map.
  apply map_ext. intros v. now destruct (_ && _).
Qed.

Lemma votes_ok_update_vote :
  forall uid pid vu vt db, votes_ok db -> votes_ok (update_vote uid pid vu vt db).
Proof.
  intros uid pid vu vt db [Hnd [Hself Hfk]]. unfold votes_ok.
  rewrite update_vote_keys. split; [exact Hnd|].
  change (pitches (update_vote uid pid vu vt db)) with (pitches db).
  assert (forall v', In v' (votes (update_vote uid pid vu vt db)) ->
            exists v, In v (votes db) /\ vote_key v' = vote_key v) as Hback.
  { intros v' Hin. unfold update_vote in Hin. simpl in Hin.
    apply in_map_iff in Hin. destruct Hin as [v [Hv Hin]].
    exists v. split; [exact Hin|]. subst v'. now destruct (_ && _). }
  split; intros v' Hv'; destruct (Hback v' Hv') as [v [Hv Hk]].
  - rewrite Hk. now apply Hself.
  - unfold vote_key in Hk. injection Hk as -> _. now apply Hfk.
Qed.

Lemma step_keeps_votes_ok :
  forall a db, votes_ok db -> votes_ok (step a db).
Proof.
  intros [uid nid c cur data|uid nid c cur data|w req|user pitch voting pid vt
         |user feed i voting vt|] db H; simpl.
  - unfold SubmissionForm.saveDraft. destruct cur.
    + now apply votes_ok_update_pitch.
    + now apply votes_ok_insert_pitch.
  - unfold SubmissionForm.publish. destruct cur; simpl.
    + now apply votes_ok_update_pitch.
    + pose proof (votes_ok_insert_pitch uid nid c uid data published db H) as H'.
      destruct (insert_pitch uid nid c uid data published db) as [[e|] db1]; exact H'.
  - apply serve_keeps; [| | |exact H].
    + intros pid set d Hk Hu _ Hd. apply (votes_ok_frame d); [reflexivity| |exact Hd].
      now apply owner_key_update.
    + intros row d _ _ Hd. exact Hd.
    + intros w' pid d _ Hd. apply (votes_ok_frame d); [reflexivity| |exact Hd].
      apply owner_key_update; intros p; reflexivity.
  - unfold PitchDetailView.handleVote.
    destruct user as [u|]; [|exact H]. destruct pitch as [p|]; [|exact H].
    destruct (_ || _); [exact H|]. destruct (PitchDetailView.user_vote p).
    + now apply votes_ok_update_vote.
    + now apply votes_ok_insert_vote.
  - unfold DiscoverFeed.handleVote.
    destruct user as [u|]; [|exact H]. destruct (_ || _); [exact H|].
    destruct (nth_error feed i); [|exact H]. now apply votes_ok_insert_vote.
  - unfold status_migration.
    apply (votes_ok_frame db); [reflexivity| |exact H].
    rewrite owner_key_update; [|intros p; reflexivity|intros p; reflexivity].
    apply owner_key_update; intros p; reflexivity.
Qed.

(** C7.  In every store the code can produce, a pitch and a voter have at
    most one vote row between them, and no vote row has the owner of its
    pitch as the voter. *)
Theorem C7_one_vote_per_pair_and_no_self_vote :
  forall db, reachable db ->
    (forall pid uid, count_vote_rows pid uid db <= 1)
    /\ (forall v p, In v (votes db) -> In p (pitches db) ->
          Pitches.id p = Votes.pitch_id v ->
          Votes.user_id v <> Pitches.user_id p).
Proof.
  intros db [trace ->].
  assert (votes_ok (run trace empty_database)) as [Hnd [Hself _]]
    by (apply run_keeps; [apply step_keeps_votes_ok|apply votes_ok_empty]).
  split.
  - intros pid uid. apply (unique_key_count vote_key _ (pid, uid)); [|exact Hnd].
    intros v Hv. unfold vote_is in Hv. apply andb_prop in Hv. destruct Hv as [H1 H2].
    apply String.eqb_eq in H1. apply String.eqb_eq in H2.
    unfold vote_key. now rewrite H1, H2.
  - intros v p Hv Hp Hid Hu. apply (Hself v Hv).
    apply in_map_iff. exists p. split; [|exact Hp].
    unfold owner_key, vote_key. now rewrite Hid, Hu.
Qed.

Lemma C7_witness :
  reachable Scenario.after_swipe
  /\ count_vote_rows "p1" "u2" Scenario.after_swipe <= 1
  /\ votes Scenario.after_swipe = [ Sample.vote1 interesting ].
Proof.
  assert (reachable Scenario.after_swipe) as Hr
    by (exists Scenario.swipe; reflexivity).
  split; [exact Hr|]. split; [|reflexivity].
  exact (proj1 (C7_one_vote_per_pair_and_no_self_vote Scenario.after_swipe Hr) "p1" "u2").
Defined.

(** ** C8: a vote is inserted or updated, never doubled *)

Lemma count_zero_has_vote :
  forall pid uid db,
    count_vote_rows pid uid db = 0 <-> has_vote pid uid db = false.
Proof.
  intros pid uid db. unfold count_vote_rows, has_vote.
  induction (votes db) as [|v l IH]; simpl; [tauto|].
  destruct (vote_is pid uid v); simpl; [split; discriminate|exact IH].
Qed.

Lemma insert_vote_cases :
  forall uid v db,
    (exists e, insert_vote uid v db = (Some e, db))
    \/ (insert_vote uid v db = (None, add_vote v db)
        /\ uid = Votes.user_id v
        /\ owns uid (Votes.pitch_id v) db = false
        /\ has_vote (Votes.pitch_id v) (Votes.user_id v) db = false
        /\ has_pitch (Votes.pitch_id v) db = true).
Proof.
  intros uid v db. unfold insert_vote.
  destruct (String.eqb uid (Votes.user_id v)) eqn:Eu; simpl; [|left; eauto].
  destruct (owns uid (Votes.pitch_id v) db) eqn:Eo; simpl; [left; eauto|].
  destruct (has_vote (Votes.pitch_id v) (Votes.user_id v) db) eqn:Ev; [left; eauto|].
  destruct (has_pitch (Votes.pitch_id v) db) eqn:Ep; simpl; [|left; eauto].
  right. apply String.eqb_eq in Eu. auto.
Qed.

Lemma insert_vote_first :
  forall u pid vt db,
    owns u pid db = false ->
    has_pitch pid db = true ->
    count_vote_rows pid u db = 0 ->
    votes (snd (insert_vote u
                  {| Votes.pitch_id := pid; Votes.user_id := u; Votes.vote_type := vt |} db))
    = votes db ++ [ {| Votes.pitch_id := pid; Votes.user_id := u; Votes.vote_type := vt |} ].
Proof.
  intros u pid vt db Ho Hp Hc. apply count_zero_has_vote in Hc.
  unfold insert_vote. simpl. now rewrite String.eqb_refl, Ho, Hc, Hp.
Qed.

Lemma insert_vote_again :
  forall u pid vt db,
    count_vote_rows pid u db <> 0 ->
    snd (insert_vote u
           {| Votes.pitch_id := pid; Votes.user_id := u; Votes.vote_type := vt |} db)
    = db.
Proof.
  intros u pid vt db Hc.
  destruct (insert_vote_cases u
              {| Votes.pitch_id := pid; Votes.user_id := u; Votes.vote_type := vt |} db)
    as [[e ->]|[_ [_ [_ [Hv _]]]]]; [reflexivity|].
  simpl in Hv. apply count_zero_has_vote in Hv. contradiction.
Qed.

Lemma count_insert_vote :
  forall uid v db pid u,
    count_vote_rows pid u db <= 1 ->
    count_vote_rows pid u (snd (insert_vote uid v db)) <= 1.
Proof.
  intros uid v db pid u Hle.
  destruct (insert_vote_cases uid v db) as [[e ->]|[-> [_ [_ [Hv _]]]]]; [exact Hle|].
  unfold count_vote_rows, add_vote in *. simpl. rewrite filter_app, length_app. simpl.
  destruct (vote_is pid u v) eqn:E; simpl; [|lia].
  unfold vote_is in E. apply andb_prop in E. destruct E as [E1 E2].
  apply String.eqb_eq in E1. apply String.eqb_eq in E2. rewrite E1, E2 in Hv.
  apply count_zero_has_vote in Hv. unfold count_vote_rows in Hv. lia.
Qed.

Lemma count_update_vote :
  forall uid pid vu vt db p u,
    count_vote_rows p u (update_vote uid pid vu vt db) = count_vote_rows p u db.
Proof.
  intros uid pid vu vt db p u. unfold count_vote_rows, update_vote. simpl.
  induction (votes db) as [|v l IH]; simpl; [reflexivity|].
  assert (vote_is p u
            (if vote_is pid vu v && String.eqb (Votes.user_id v) uid
             then {| Votes.pitch_id := Votes.pitch_id v;
                     Votes.user_id := Votes.user_id v;
                     Votes.vote_type := vt |}
             else v) = vote_is p u v) as -> by now destruct (_ && _).
  destruct (vote_is p u v); simpl; now rewrite IH.
Qed.

Lemma update_vote_retyped :
  forall u pid vt db, votes (update_vote u pid u vt db) = retyped pid u vt db.
Proof.
  intros u pid vt db. unfold update_vote, retyped. simpl. apply map_ext. intros v.
  destruct (vote_is pid u v) eqn:E; simpl; [|reflexivity].
  unfold vote_is in E. apply andb_prop in E. destruct E as [_ E]. now rewrite E.
Qed.

(** What the view has loaded tells about the store it was loaded from. *)
Lemma loaded_view :
  forall u pid db d,
    PitchDetailView.loadPitchDetail u pid db = Some d ->
    Pitches.user_id (PitchDetailView.pitchData d) <> u ->
    owns u pid db = false
    /\ has_pitch pid db = true
    /\ (count_vote_rows pid u db = 0 -> PitchDetailView.user_vote d = None)
    /\ (count_vote_rows pid u db = 1 -> PitchDetailView.user_vote d <> None).
Proof.
  intros u pid db d Hload Hother. unfold PitchDetailView.loadPitchDetail in Hload.
  destruct (filter _ (pitches db)) as [|p [|q r]] eqn:Hf; try discriminate.
  injection Hload as <-. simpl in *.
  assert (forall q, In q (pitches db) ->
            String.eqb (Pitches.id q) pid && can_view u q = true -> q = p) as Honly.
  { intros q Hq Hc.
    assert (In q (filter (fun p0 => String.eqb (Pitches.id p0) pid && can_view u p0) (pitches db)))
      as Hin by (apply filter_In; now split).
    rewrite Hf in Hin. destruct Hin as [<-|[]]. reflexivity. }
  assert (In p (pitches db) /\ String.eqb (Pitches.id p) pid && can_view u p = true) as [Hp Hc].
  { apply (proj1 (filter_In
               (fun p0 => String.eqb (Pitches.id p0) pid && can_view u p0) p (pitches db))).
    rewrite Hf. now left. }
  split; [|split; [|split]].
  - unfold owns. destruct (existsb _ (pitches db)) eqn:E; [|reflexivity].
    apply existsb_exists in E. destruct E as [q [Hq Hqc]].
    apply andb_prop in Hqc. destruct Hqc as [H1 H2].
    assert (q = p) as -> by (apply Honly; [exact Hq|]; unfold can_view; now rewrite H1, H2, orb_true_r).
    apply String.eqb_eq in H2. contradiction.
  - unfold has_pitch. apply existsb_exists. exists p. split; [exact Hp|].
    now apply andb_prop in Hc.
  - unfold count_vote_rows. intros H0.
    destruct (filter (vote_is pid u) (votes db)); [reflexivity|discriminate].
  - unfold count_vote_rows. intros H1.
    destruct (filter (vote_is pid u) (votes db)) as [|v [|v' l]]; discriminate.
Qed.

(** C8, as first stated, fails: the Discover feed never updates.  A voter
    who already has a vote on the pitch keeps it as it was; so does a voter
    whose detail view was loaded before that vote existed. *)
Lemma C8_counterexample :
  count_vote_rows "p1" "u2" Sample.voted = 1
  /\ votes (DiscoverFeed.handleVote (Some "u2") [ Sample.pitch1 pending ] 0 false
              needs_work Sample.voted)
     = [ Sample.vote1 interesting ]
  /\ PitchDetailView.loadPitchDetail "u2" "p1" Sample.fresh
     = Some {| PitchDetailView.pitchData := Sample.pitch1 pending;
               PitchDetailView.vote_counts :=
                 {| VoteCounts.interesting := 0; VoteCounts.needs_work := 0 |};
               PitchDetailView.ai_feedback := None;
               PitchDetailView.user_vote := None |}
  /\ votes (PitchDetailView.handleVote (Some "u2")
              (PitchDetailView.loadPitchDetail "u2" "p1" Sample.fresh)
              false "p1" needs_work Sample.voted)
     = [ Sample.vote1 interesting ].
Proof. repeat split. Qed.

(** C8, amended.  The detail view, deciding on the view it has loaded from
    the store, inserts a vote row when the voter has none on the pitch and
    otherwise sets the vote type of the existing row in place.  The Discover
    feed only inserts: it adds the row when the voter has none, and leaves
    the store as it is when the voter already has one.  Neither operation,
    whatever the view it acts on, leaves a second row for a pitch and a
    voter. *)
Theorem C8_vote_inserted_or_updated_never_doubled :
  (forall u pid vt db d,
      PitchDetailView.loadPitchDetail u pid db = Some d ->
      Pitches.user_id (PitchDetailView.pitchData d) <> u ->
      (count_vote_rows pid u db = 0 ->
       votes (PitchDetailView.handleVote (Some u) (Some d) false pid vt db)
       = votes db ++ [ {| Votes.pitch_id := pid; Votes.user_id := u; Votes.vote_type := vt |} ])
      /\ (count_vote_rows pid u db = 1 ->
          votes (PitchDetailView.handleVote (Some u) (Some d) false pid vt db)
          = retyped pid u vt db))
  /\ (forall u feed i cur vt db,
        nth_error feed i = Some cur ->
        (owns u (Pitches.id cur) db = false ->
         has_pitch (Pitches.id cur) db = true ->
         count_vote_rows (Pitches.id cur) u db = 0 ->
         votes (DiscoverFeed.handleVote (Some u) feed i false vt db)
         = votes db ++ [ {| Votes.pitch_id := Pitches.id cur; Votes.user_id := u;
                            Votes.vote_type := vt |} ])
        /\ (count_vote_rows (Pitches.id cur) u db <> 0 ->
            DiscoverFeed.handleVote (Some u) feed i false vt db = db))
  /\ (forall a db pid u,
        vote_action a ->
        count_vote_rows pid u db <= 1 ->
        count_vote_rows pid u (step a db) <= 1).
Proof.
  split; [|split].
  - intros u pid vt db d Hload Hother.
    destruct (loaded_view u pid db d Hload Hother) as [Ho [Hp [H0 H1]]].
    assert (String.eqb (Pitches.user_id (PitchDetailView.pitchData d)) u = false) as Hne
      by now apply String.eqb_neq.
    unfold PitchDetailView.handleVote. rewrite Hne. simpl. split.
    + intros Hc. rewrite (H0 Hc). now apply insert_vote_first.
    + intros Hc. specialize (H1 Hc).
      destruct (PitchDetailView.user_vote d); [|contradiction].
      apply update_vote_retyped.
  - intros u feed i cur vt db Hnth.
    assert (i < List.length feed) as Hlt by (apply nth_error_Some; congruence).
    assert ((List.length feed <=? i) = false) as Hleb by (apply Nat.leb_gt; exact Hlt).
    unfold DiscoverFeed.handleVote. rewrite Hleb, Hnth. simpl. split.
    + intros Ho Hp Hc. now apply insert_vote_first.
    + intros Hc. now apply insert_vote_again.
  - intros [uid nid c cur data|uid nid c cur data|w req|user pitch voting p vt
           |user feed i voting vt|] db pid u Hv Hle; simpl in Hv; try contradiction; simpl.
    + unfold PitchDetailView.handleVote.
      destruct user as [x|]; [|exact Hle]. destruct pitch as [d|]; [|exact Hle].
      destruct (_ || _); [exact Hle|]. destruct (PitchDetailView.user_vote d).
      * now rewrite count_update_vote.
      * now apply count_insert_vote.
    + unfold DiscoverFeed.handleVote.
      destruct user as [x|]; [|exact Hle]. destruct (_ || _); [exact Hle|].
      destruct (nth_error feed i); [|exact Hle]. now apply count_insert_vote.
Qed.

Lemma C8_witness :
  votes (PitchDetailView.handleVote (Some "u2")
           (PitchDetailView.loadPitchDetail "u2" "p1" Sample.voted)
           false "p1" needs_work Sample.voted)
  = [ Sample.vote1 needs_work ]
  /\ votes (DiscoverFeed.handleVote (Some "u2") [ Sample.pitch1 pending ] 0 false
              interesting Sample.fresh)
     = [ Sample.vote1 interesting ].
Proof.
  split.
  - exact (proj2 (proj1 C8_vote_inserted_or_updated_never_doubled
                    "u2" "p1" needs_work Sample.voted _ eq_refl ltac:(discriminate))
             eq_refl).
  - exact (proj1 (proj1 (proj2 C8_vote_inserted_or_updated_never_doubled)
                    "u2" [ Sample.pitch1 pending ] 0 (Sample.pitch1 pending)
                    interesting Sample.fresh eq_refl)
             eq_refl eq_refl eq_refl).
Defined.

(** ** C5: the leaderboard *)

Lemma sort_insert_perm :
  forall {A : Type} (compare : A -> A -> Z) (x : A) (l : list A),
    Permutation (sort_insert compare x l) (x :: l).
Proof.
  intros A compare x l. induction l as [|y l IH]; simpl; [apply Permutation_refl|].
  destruct (compare x y <=? 0)%Z; [apply Permutation_refl|].
  apply perm_trans with (y :: x :: l); [now apply perm_skip|apply perm_swap].
Qed.

Lemma array_sort_perm :
  forall {A : Type} (compare : A -> A -> Z) (l : list A),
    Permutation (array_sort compare l) l.
Proof.
  intros A compare l. induction l as [|x l IH]; simpl; [apply perm_nil|].
  apply perm_trans with (x :: array_sort compare l);
    [apply sort_insert_perm|now apply perm_skip].
Qed.











Example leaderboard_all_time :
  map (fun e => (Leaderboard.id e, Leaderboard.rank e, interesting_votes e,
                 Leaderboard.percent_positive e))
    (Leaderboard.loadLeaderboard
       (Leaderboard.query Scenario.dates Leaderboard.all Scenario.arena) Scenario.arena)
  = [ ("b", 1, 2, Leaderboard.Integer 67); ("a", 2, 1, Leaderboard.Integer 50);
      ("c", 3, 0, Leaderboard.Integer 0) ].
Proof. vm_compute. reflexivity. Qed.

Example leaderboard_today :
  map (fun e => (Leaderboard.id e, Leaderboard.rank e))
    (Leaderboard.loadLeaderboard
       (Leaderboard.query Scenario.dates Leaderboard.today Scenario.arena) Scenario.arena)
  = [ ("b", 1); ("c", 2) ].
Proof. reflexivity. Qed.

(** 23 interesting votes of 40: the quotient 0.575 times 100 is the double
    57.49999999999999, which rounds to 57, not 58. *)
Example percent_23_of_40 : Leaderboard.percent 23 40 = Leaderboard.Integer 57.
Proof. vm_compute. reflexivity. Qed.




(** ** C10: the share of positive votes never divides by zero *)

(** C10.  The divisor of the "% positive" figure is never zero.  For an
    entry without votes it is the fallback 1, so the figure is the integer
    0: the double 0 / 1 * 100 rounded.  The fallback is what makes it so:
    with the total itself as divisor the same computation gives NaN. *)
Theorem C10_percent_positive_of_unvoted_entry :
  forall (pitch : Leaderboard.LeaderboardPitch),
    1 <= Leaderboard.denominator (Leaderboard.vote_counts pitch)
    /\ (VoteCounts.interesting (Leaderboard.vote_counts pitch)
        + VoteCounts.needs_work (Leaderboard.vote_counts pitch) = 0 ->
        Leaderboard.denominator (Leaderboard.vote_counts pitch) = 1
        /\ Leaderboard.percent_positive pitch = Leaderboard.percent 0 1
        /\ Leaderboard.percent_positive pitch = Leaderboard.Integer 0
        /\ Leaderboard.percent
             (VoteCounts.interesting (Leaderboard.vote_counts pitch))
             (VoteCounts.interesting (Leaderboard.vote_counts pitch)
              + VoteCounts.needs_work (Leaderboard.vote_counts pitch))
           = Leaderboard.NaN).
Proof.
  intros pitch. split.
  - unfold Leaderboard.denominator. destruct (_ + _); lia.
  - intros Hzero. unfold Leaderboard.percent_positive, Leaderboard.denominator.
    rewrite Hzero.
    assert (VoteCounts.interesting (Leaderboard.vote_counts pitch) = 0) as -> by lia.
    repeat split.
Qed.

Lemma C10_witness :
  Leaderboard.percent_positive (Leaderboard.with_data Sample.fresh (Sample.pitch1 pending))
  = Leaderboard.Integer 0.
Proof.
  exact (proj1 (proj2 (proj2 (proj2 (C10_percent_positive_of_unvoted_entry
                                       (Leaderboard.with_data Sample.fresh
                                          (Sample.pitch1 pending)))
                                eq_refl)))).
Defined.

(** ** C6: the word-count gate of the submission form *)

Example split_examples :
  SubmissionForm.split_ws (list_ascii_of_string "a  b")
  = [ list_ascii_of_string "a"; list_ascii_of_string "b" ]
  /\ SubmissionForm.split_ws (list_ascii_of_string " a")
     = [ []; list_ascii_of_string "a" ]
  /\ SubmissionForm.split_ws (list_ascii_of_string "a ")
     = [ list_ascii_of_string "a"; [] ]
  /\ SubmissionForm.split_ws [] = [ [] ]
  /\ SubmissionForm.trim (list_ascii_of_string "  one two  ")
     = list_ascii_of_string "one two".
Proof. repeat split. Qed.

Section Words.
Import SubmissionForm.

Lemma drop_ws_suffix :
  forall s, exists pre, s = pre ++ drop_ws s.
Proof.
  induction s as [|c s [pre IH]]; simpl; [now exists []|].
  destruct (is_ws c); [|now exists []].
  exists (c :: pre). simpl. now rewrite <- IH.
Qed.

Lemma drop_ws_starts :
  forall s, drop_ws s = [] \/ starts_nonws (drop_ws s).
Proof.
  induction s as [|c s IH]; simpl; [now left|].
  destruct (is_ws c) eqn:E; [exact IH|]. right. exact E.
Qed.

Lemma ends_nonws_snoc :
  forall s c, is_ws c = false -> ends_nonws (s ++ [c]).
Proof.
  induction s as [|a s IH]; intros c Hc; simpl; [exact Hc|].
  destruct (s ++ [c]) eqn:E; [now destruct s|]. rewrite <- E. now apply IH.
Qed.

Lemma trim_shape :
  forall s, trim s = [] \/ (starts_nonws (trim s) /\ ends_nonws (trim s)).
Proof.
  intros s. unfold trim.
  destruct (drop_ws_suffix (rev (drop_ws s))) as [pre Hpre].
  destruct (drop_ws_starts (rev (drop_ws s))) as [Hnil|Hst].
  - left. now rewrite Hnil.
  - right. destruct (drop_ws (rev (drop_ws s))) as [|c v] eqn:Ev; [destruct Hst|].
    simpl in Hst. split; [|simpl; now apply ends_nonws_snoc].
    assert (drop_ws s = (rev v ++ [c]) ++ rev pre) as Hu.
    { rewrite <- (rev_involutive (drop_ws s)), Hpre, rev_app_distr. reflexivity. }
    destruct (drop_ws_starts s) as [Hn|Hs].
    + rewrite Hn in Hu. destruct (rev v); discriminate.
    + rewrite Hu in Hs. simpl. destruct (rev v); exact Hs.
Qed.

Lemma split_ws_not_nil : forall s, split_ws s <> [].
Proof.
  induction s as [|c s IH]; simpl; [discriminate|].
  destruct (is_ws c).
  - destruct s as [|c' s']; [discriminate|]. destruct (is_ws c'); [exact IH|discriminate].
  - destruct (split_ws s); discriminate.
Qed.

(** In a text that ends with a word, only the first piece can be empty,
    and it is when the text starts with white space. *)
Lemma split_ws_pieces :
  forall s,
    ends_nonws s ->
    Forall (fun w => nonempty w = true) (tl (split_ws s))
    /\ (starts_nonws s -> Forall (fun w => nonempty w = true) (split_ws s)).
Proof.
  induction s as [|c s IH]; intros Hend; [destruct Hend|].
  destruct s as [|c' s'].
  - simpl in Hend. simpl. rewrite Hend. simpl. split; [constructor|].
    intros _. repeat constructor.
  - specialize (IH Hend). destruct IH as [IHtl IHhd].
    change (split_ws (c :: c' :: s')) with
      (if is_ws c
       then (if is_ws c' then split_ws (c' :: s') else [] :: split_ws (c' :: s'))
       else match split_ws (c' :: s') with
            | piece :: pieces => (c :: piece) :: pieces
            | [] => [[c]]
            end).
    destruct (is_ws c) eqn:Ec.
    + destruct (is_ws c') eqn:Ec'.
      * split; [exact IHtl|]. simpl. congruence.
      * split; [|simpl; congruence]. simpl tl. apply IHhd. exact Ec'.
    + destruct (split_ws (c' :: s')) as [|piece pieces] eqn:Es.
      * now apply split_ws_not_nil in Es.
      * simpl in IHtl. split; [exact IHtl|]. intros _. constructor; [reflexivity|exact IHtl].
Qed.

Lemma filter_all :
  forall {A : Type} (f : A -> bool) (l : list A),
    Forall (fun x => f x = true) l -> filter f l = l.
Proof.
  intros A f l H. induction H as [|x l Hx Hl IH]; simpl; [reflexivity|].
  now rewrite Hx, IH.
Qed.

(** The count the validity check uses is the number of words, except that
    an empty text counts as one piece. *)
Lemma pieces_of_trimmed :
  forall s,
    let pieces := split_ws (trim s) in
    (trim s = [] /\ List.length pieces = 1 /\ List.length (filter nonempty pieces) = 0)
    \/ List.length (filter nonempty pieces) = List.length pieces.
Proof.
  intros s pieces. unfold pieces. destruct (trim_shape s) as [Hnil|[Hst Hend]].
  - left. rewrite Hnil. repeat split.
  - right. now rewrite (filter_all _ _ (proj2 (split_ws_pieces _ Hend) Hst)).
Qed.
End Words.

Lemma handleSubmit_needs_valid_last_step :
  forall s cur data,
    In (SubmissionForm.call_handleSubmit cur data) (fst (SubmissionForm.click s)) ->
    SubmissionForm.step s = 5 /\ SubmissionForm.isStepValid s = true.
Proof.
  intros s cur data Hin.
  unfold SubmissionForm.click, SubmissionForm.button_disabled in Hin.
  destruct (SubmissionForm.isStepValid s) eqn:Ev; simpl in Hin; [|destruct Hin].
  destruct (SubmissionForm.loading s); simpl in Hin; [destruct Hin|].
  split; [|reflexivity].
  unfold SubmissionForm.handleNext, SubmissionForm.totalSteps in Hin.
  destruct (SubmissionForm.step s <? 5) eqn:El.
  - simpl in Hin. destruct Hin as [Hin|[]]. discriminate.
  - apply Nat.ltb_ge in El. unfold SubmissionForm.isStepValid in Ev.
    destruct (SubmissionForm.step s) as [|[|[|[|[|[|n]]]]]];
      try discriminate; try lia; reflexivity.
Qed.

(** C6.  When the elevator pitch has fewer than 250 or more than 500 words
    (as the form itself counts them), the validity check of step 5 is
    false, the button is disabled, and no click, on whatever step the form
    is, starts [handleSubmit]. *)
Theorem C6_word_count_gates_submission :
  forall (s : SubmissionForm.state),
    SubmissionForm.getWordCount s < 250 \/ 500 < SubmissionForm.getWordCount s ->
    (SubmissionForm.step s = 5 ->
     SubmissionForm.isStepValid s = false /\ SubmissionForm.button_disabled s = true)
    /\ (forall cur data,
          ~ In (SubmissionForm.call_handleSubmit cur data) (fst (SubmissionForm.click s))).
Proof.
  intros s Hcount.
  assert (SubmissionForm.step s = 5 -> SubmissionForm.isStepValid s = false) as Hinvalid.
  { intros Hstep. unfold SubmissionForm.isStepValid. rewrite Hstep.
    unfold SubmissionForm.getWordCount in Hcount.
    pose proof (pieces_of_trimmed
                  (list_ascii_of_string (elevator_pitch (SubmissionForm.formData s)))) as Hp.
    cbv zeta in Hp. fold nonempty in Hcount.
    change (fun word : list ascii => 0 <? List.length word) with nonempty in Hcount.
    apply andb_false_iff.
    destruct Hp as [[_ [H1 _]]|Heq].
    - left. rewrite H1. reflexivity.
    - rewrite Heq in Hcount. destruct Hcount as [Hlt|Hgt].
      + left. apply Nat.leb_gt. exact Hlt.
      + right. apply Nat.leb_gt. exact Hgt. }
  split.
  - intros Hstep. unfold SubmissionForm.button_disabled.
    rewrite (Hinvalid Hstep). split; reflexivity.
  - intros cur data Hin.
    destruct (handleSubmit_needs_valid_last_step s cur data Hin) as [Hstep Hvalid].
    rewrite (Hinvalid Hstep) in Hvalid. discriminate.
Qed.

(** The gate opens inside the range: with 250 and with 500 words the click
    starts [handleSubmit], with 249 and with 501 it does not. *)
Example gate_at_the_bounds :
  map (fun n => List.length (fst (SubmissionForm.click (Scenario.form_with_words n))))
    [ 249; 250; 500; 501 ]
  = [ 0; 2; 2; 0 ]
  /\ SubmissionForm.getWordCount (Scenario.form_with_words 250) = 250.
Proof. split; vm_compute; reflexivity. Qed.

Lemma C6_witness :
  SubmissionForm.getWordCount Scenario.short_form = 1
  /\ SubmissionForm.isStepValid Scenario.short_form = false
  /\ fst (SubmissionForm.click Scenario.short_form) = [].
Proof.
  split; [reflexivity|].
  split; [|reflexivity].
  exact (proj1 (proj1 (C6_word_count_gates_submission Scenario.short_form
                         (or_introl (proj1 (Nat.ltb_lt 1 250) eq_refl))) eq_refl)).
Defined.

(* ================================================================== *)
(** * Part III. Further properties of the code *)
(* ================================================================== *)

(** ** The endpoint: requests that write nothing *)


(** X1.  A request whose body is not JSON, or is the JSON [null], is
    answered 500 with the error's text and writes nothing; and whenever the
    handler writes at all, the body has yielded a truthy [pitch_id]. *)
Theorem X1_unusable_body_writes_nothing :
  forall (w : World) (req : Endpoint.Request) (db : database),
    Endpoint.method req <> "OPTIONS" ->
    (forall msg,
        JSON_parse w (Endpoint.text req) = inl msg ->
        Endpoint.serve w req db
        = (inr {| Endpoint.status := 500;
                  Endpoint.body :=
                    Endpoint.error_body (Endpoint.message_or_default (Error msg)) |},
           db, []))
    /\ (JSON_parse w (Endpoint.text req) = inr JNull ->
        Endpoint.serve w req db
        = (inr {| Endpoint.status := 500;
                  Endpoint.body :=
                    Endpoint.error_body "Cannot read properties of null (reading 'pitch_id')" |},
           db, []))
    /\ (Endpoint.journal_of (Endpoint.serve w req db) <> [] ->
        exists pid, requested w req pid).
Proof.
  intros w req db Hm. pose proof (not_options req Hm) as Hm'. split; [|split].
  - intros msg Hp. unfold Endpoint.serve, Endpoint.read_pitch_id.
    rewrite Hm', Hp. reflexivity.
  - intros Hp. unfold Endpoint.serve, Endpoint.read_pitch_id.
    rewrite Hm', Hp. reflexivity.
  - intros Hj. unfold Endpoint.serve in Hj. rewrite Hm' in Hj.
    destruct (Endpoint.read_pitch_id w req) as [e|v] eqn:Hr.
    + exfalso. apply Hj. reflexivity.
    + destruct (truthy v) eqn:Hv.
      * exists (Endpoint.text_of w v), v. auto.
      * exfalso. apply Hj. unfold Endpoint.try_catch, Endpoint.generate.
        rewrite Hv. reflexivity.
Qed.

Lemma X1_witness :
  Endpoint.serve Sample.offline
    {| Endpoint.method := "POST"; Endpoint.text := "not json" |} Sample.fresh
  = (inr {| Endpoint.status := 500;
            Endpoint.body := Endpoint.error_body "Unexpected token in JSON" |},
     Sample.fresh, []).
Proof.
  exact (proj1 (X1_unusable_body_writes_nothing Sample.offline
                  {| Endpoint.method := "POST"; Endpoint.text := "not json" |}
                  Sample.fresh ltac:(discriminate))
           "Unexpected token in JSON" eq_refl).
Defined.

(** ** The endpoint: every outcome of a run *)

Lemma score_column_range :
  forall w v score,
    score_column w v = inr score ->
    match score with
    | None => True
    | Some n => (1 <= n <= 10)%Z
    end.
Proof.
  intros w v score H. unfold score_column in H.
  assert (forall text n,
             score_of_integer text n = inr score ->
             match score with None => True | Some m => (1 <= m <= 10)%Z end) as Hchk.
  { intros text n Hn. unfold score_of_integer in Hn.
    destruct (negb _); [discriminate|].
    destruct ((1 <=? n) && (n <=? 10))%Z eqn:E; [|discriminate].
    injection Hn as <-. apply andb_prop in E. destruct E as [E1 E2].
    apply Z.leb_le in E1. apply Z.leb_le in E2. lia. }
  destruct v as [[| b | n | q | s | l | f]|]; try discriminate.
  - now injection H as <-.
  - destruct (Z.abs n <? 10 ^ 21)%Z; [exact (Hchk _ n H)|discriminate].
  - destruct (int4_in w s) as [n|]; [now apply (Hchk s n)|discriminate].
  - injection H as <-. simpl. lia.
Qed.

Lemma insert_ai_feedback_outcomes :
  forall w r db,
    (exists e, insert_ai_feedback w r db = (Some e, db))
    \/ (exists score,
          insert_ai_feedback w r db = (None, add_feedback (stored_row r score) db)
          /\ score_column w (ins_overall_score r) = inr score
          /\ has_feedback (ins_pitch_id r) db = false
          /\ has_pitch (ins_pitch_id r) db = true).
Proof.
  intros w r db. unfold insert_ai_feedback.
  destruct (score_column w (ins_overall_score r)) as [e|score]; [left; eauto|].
  destruct (has_feedback (ins_pitch_id r) db) eqn:Hf; [left; eauto|].
  destruct (has_pitch (ins_pitch_id r) db) eqn:Hp; simpl; [|left; eauto].
  right. exists score. auto.
Qed.

Lemma insert_source_pid :
  forall w pid pitch db ins fb,
    insert_source w pid pitch db ins fb -> ins_pitch_id ins = pid.
Proof.
  intros w pid pitch db ins fb [[_ [-> _]]|[key [_ [_ H]]]]; [reflexivity|].
  now apply insert_of_pid in H.
Qed.

Lemma analyse_outcomes :
  forall w pid pitch db,
    (exists e j, Endpoint.analyse w pid pitch db = (inl e, db, j))
    \/ (exists fb ins score,
          Endpoint.analyse w pid pitch db
          = (inr {| Endpoint.status := 200; Endpoint.body := Endpoint.success_body fb |},
             mark pid (Endpoint.set_completed w) (add_feedback (stored_row ins score) db),
             [ add_feedback (stored_row ins score) db;
               mark pid (Endpoint.set_completed w) (add_feedback (stored_row ins score) db) ])
          /\ insert_source w pid pitch db ins fb
          /\ score_column w (ins_overall_score ins) = inr score
          /\ has_feedback pid db = false
          /\ has_pitch pid db = true).
Proof.
  intros w pid pitch db.
  assert (forall ins fb,
             insert_source w pid pitch db ins fb ->
             Endpoint.analyse w pid pitch db = Endpoint.store_feedback w pid ins fb db)
    as Hreach.
  { intros ins fb [[Hk [-> ->]]|[key [Hk [Hask Hins]]]]; unfold Endpoint.analyse; rewrite Hk.
    - reflexivity.
    - rewrite (bind_pure _ _ db fb Hask).
      rewrite (bind_pure _ _ db ins); [reflexivity|now rewrite Hins]. }
  assert (forall ins fb,
             insert_source w pid pitch db ins fb ->
             (exists e j, Endpoint.analyse w pid pitch db = (inl e, db, j))
             \/ (exists fb ins score,
                   Endpoint.analyse w pid pitch db
                   = (inr {| Endpoint.status := 200; Endpoint.body := Endpoint.success_body fb |},
                      mark pid (Endpoint.set_completed w) (add_feedback (stored_row ins score) db),
                      [ add_feedback (stored_row ins score) db;
                        mark pid (Endpoint.set_completed w)
                          (add_feedback (stored_row ins score) db) ])
                   /\ insert_source w pid pitch db ins fb
                   /\ score_column w (ins_overall_score ins) = inr score
                   /\ has_feedback pid db = false
                   /\ has_pitch pid db = true)) as Hstore.
  { intros ins fb Hsrc. rewrite (Hreach ins fb Hsrc).
    pose proof (insert_source_pid _ _ _ _ _ _ Hsrc) as Hpid.
    destruct (insert_ai_feedback_outcomes w ins db) as [[e He]|[score [He [Hs [Hf Hp]]]]].
    - left. exists e, [db]. now apply store_feedback_err.
    - right. exists fb, ins, score. rewrite Hpid in *.
      split; [now apply store_feedback_ok|auto]. }
  destruct (credential_dec w) as [[key Hk]|Hk].
  - destruct (ask_openai_pure w key pitch db) as [[e|fb] Hask].
    + left. exists e, []. unfold Endpoint.analyse. rewrite Hk. now apply bind_inl.
    + destruct (Endpoint.insert_of pid fb) as [e|ins] eqn:Hins.
      * left. exists e, []. unfold Endpoint.analyse. rewrite Hk.
        rewrite (bind_pure _ _ db fb Hask). apply bind_inl. now rewrite Hins.
      * apply (Hstore ins fb). right. exists key. auto.
  - apply (Hstore (Endpoint.mock_insert pid) Endpoint.mockFeedback). left. auto.
Qed.

(** The store after a run is the store before it, or the store with the
    requested pitch marked processing and then, when the pitch is found,
    marked failed or given one more feedback row and marked completed. *)
Lemma serve_store_cases :
  forall w req db,
    Endpoint.store_of (Endpoint.serve w req db) = db
    \/ exists pid,
         requested w req pid
         /\ (Endpoint.store_of (Endpoint.serve w req db)
             = mark pid (Endpoint.set_processing w) db
             \/ (exists e,
                   Endpoint.store_of (Endpoint.serve w req db)
                   = mark pid (Endpoint.set_failed w e)
                       (mark pid (Endpoint.set_processing w) db))
             \/ (exists ins score,
                   Endpoint.store_of (Endpoint.serve w req db)
                   = mark pid (Endpoint.set_completed w)
                       (add_feedback (stored_row ins score)
                          (mark pid (Endpoint.set_processing w) db))
                   /\ ins_pitch_id ins = pid
                   /\ score_column w (ins_overall_score ins) = inr score
                   /\ has_feedback pid db = false
                   /\ has_pitch pid db = true)).
Proof.
  intros w req db. unfold Endpoint.serve.
  destruct (String.eqb (Endpoint.method req) "OPTIONS") eqn:Hm; [now left|].
  destruct (Endpoint.read_pitch_id w req) as [e|v] eqn:Hr; [now left|].
  destruct (truthy v) eqn:Hv.
  2:{ left. unfold Endpoint.try_catch, Endpoint.generate. rewrite Hv. reflexivity. }
  right. exists (Endpoint.text_of w v). split; [exists v; auto|].
  set (pid := Endpoint.text_of w v). set (started := mark pid (Endpoint.set_processing w) db).
  destruct (select_pitch_single pid db) as [p|] eqn:Hsel.
  - destruct (analyse_outcomes w pid (Endpoint.set_processing w p) started)
      as [[e [j Ha]]|[fb [ins [score [Ha [Hsrc [Hs [Hf Hp]]]]]]]].
    + right. left. exists e. unfold Endpoint.store_of.
      erewrite try_catch_inl;
        [reflexivity
        |rewrite (generate_found w v db p Hv Hsel); fold pid; fold started;
         rewrite Ha; reflexivity
        |apply on_error_truthy; exact Hv].
    + right. right. exists ins, score. unfold Endpoint.store_of.
      erewrite try_catch_inr;
        [|rewrite (generate_found w v db p Hv Hsel); fold pid; fold started;
          rewrite Ha; reflexivity].
      simpl. split; [reflexivity|].
      split; [exact (insert_source_pid _ _ _ _ _ _ Hsrc)|]. split; [exact Hs|].
      unfold started, mark in Hf, Hp.
      rewrite has_feedback_update in Hf.
      rewrite (has_pitch_update _ _ _ db (set_processing_keeps_id w)) in Hp. auto.
  - left. unfold Endpoint.store_of.
    erewrite try_catch_inr; [|apply generate_not_found; assumption]. reflexivity.
Qed.

(** ** The endpoint: what a run leaves alone *)

Lemma mark_pitch_data :
  forall pid set db,
    ai_columns_only set ->
    map pitch_data (pitches (mark pid set db)) = map pitch_data (pitches db).
Proof.
  intros pid set db Hset. unfold mark, update_pitches. simpl. rewrite map_map.
  apply map_ext. intros p. now destruct (Endpoint.id_is pid p).
Qed.


(** X2.  A run of the handler never changes a vote, never changes the id,
    owner, content, publication status or creation time of a pitch, never
    touches a pitch other than the requested one, and never removes or
    changes a feedback row: it adds at most one, for the requested pitch. *)
Theorem X2_handler_leaves_the_rest_alone :
  forall (w : World) (req : Endpoint.Request) (db : database),
    votes (Endpoint.store_of (Endpoint.serve w req db)) = votes db
    /\ map pitch_data (pitches (Endpoint.store_of (Endpoint.serve w req db)))
       = map pitch_data (pitches db)
    /\ (forall p,
          In p (pitches db) ->
          ~ requested w req (Pitches.id p) ->
          In p (pitches (Endpoint.store_of (Endpoint.serve w req db))))
    /\ exists extra,
         ai_feedback (Endpoint.store_of (Endpoint.serve w req db))
         = ai_feedback db ++ extra
         /\ List.length extra <= 1
         /\ forall r, In r extra -> requested w req (AiFeedback.pitch_id r).
Proof.
  intros w req db.
  assert (forall e, ai_columns_only (Endpoint.set_failed w e)) as Hfail by (intros e p; reflexivity).
  assert (ai_columns_only (Endpoint.set_processing w)) as Hproc by (intros p; reflexivity).
  assert (ai_columns_only (Endpoint.set_completed w)) as Hdone by (intros p; reflexivity).
  destruct (serve_store_cases w req db)
    as [->|[pid [Hreq [->|[[e ->]|[ins [score [-> [Hpid _]]]]]]]]].
  - repeat split; try reflexivity; [tauto|].
    exists []. rewrite app_nil_r. repeat split; [simpl; lia|intros r []].
  - split; [reflexivity|]. split; [now apply mark_pitch_data|]. split.
    + intros p Hin Hnot. apply mark_other_pitches; [exact Hin|].
      intros Heq. apply Hnot. now rewrite Heq.
    + exists []. simpl. rewrite app_nil_r. repeat split; [lia|intros r []].
  - split; [reflexivity|]. split; [now rewrite !mark_pitch_data|]. split.
    + intros p Hin Hnot.
      assert (Pitches.id p <> pid) as Hne by (intros Heq; apply Hnot; now rewrite Heq).
      apply mark_other_pitches; [|exact Hne]. now apply mark_other_pitches.
    + exists []. simpl. rewrite app_nil_r. repeat split; [lia|intros r []].
  - split; [reflexivity|]. split.
    { rewrite mark_pitch_data by exact Hdone.
      change (pitches (add_feedback (stored_row ins score)
                         (mark pid (Endpoint.set_processing w) db)))
        with (pitches (mark pid (Endpoint.set_processing w) db)).
      now apply mark_pitch_data. }
    split.
    + intros p Hin Hnot.
      assert (Pitches.id p <> pid) as Hne by (intros Heq; apply Hnot; now rewrite Heq).
      apply mark_other_pitches; [|exact Hne].
      change (pitches (add_feedback (stored_row ins score)
                         (mark pid (Endpoint.set_processing w) db)))
        with (pitches (mark pid (Endpoint.set_processing w) db)).
      now apply mark_other_pitches.
    + exists [ stored_row ins score ]. split; [reflexivity|]. split; [simpl; lia|].
      intros r [<-|[]]. simpl. now rewrite Hpid.
Qed.

(** ** The endpoint: a pitch that already has its feedback *)

(** X3.  For a pitch that already has a feedback row, every run of the
    handler, with or without a credential and whatever the AI service
    answers, ends with the pitch marked failed and a 500, and leaves the
    feedback rows as they were. *)
Theorem X3_run_on_pitch_with_feedback_fails :
  forall (w : World) (req : Endpoint.Request) (db : database)
         (pitch_id : jsval) (p : Pitches.row),
    Endpoint.method req <> "OPTIONS" ->
    Endpoint.read_pitch_id w req = inr pitch_id ->
    truthy pitch_id = true ->
    select_pitch_single (Endpoint.text_of w pitch_id) db = Some p ->
    has_feedback (Endpoint.text_of w pitch_id) db = true ->
    (exists e, failed_outcome w req db (Endpoint.text_of w pitch_id) e)
    /\ ai_feedback (Endpoint.store_of (Endpoint.serve w req db)) = ai_feedback db.
Proof.
  intros w req db v p Hpost Hbody Htruthy Hfound Hfb.
  set (pid := Endpoint.text_of w v) in *.
  destruct (analyse_outcomes w pid (Endpoint.set_processing w p)
              (mark pid (Endpoint.set_processing w) db))
    as [[e [j Ha]]|[fb [ins [score [_ [_ [_ [Hf _]]]]]]]].
  - split.
    + exists e. exact (failure_is_recorded w req db v p Hpost Hbody Htruthy Hfound e _ j Ha).
    + unfold Endpoint.store_of.
      rewrite (serve_failure w req db v p Hpost Hbody Htruthy Hfound e _ j Ha).
      reflexivity.
  - unfold mark in Hf. rewrite has_feedback_update in Hf. congruence.
Qed.

Lemma X3_witness :
  (exists e, failed_outcome Sample.offline (Sample.post "p1") Sample.analysed "p1" e)
  /\ ai_feedback
       (Endpoint.store_of (Endpoint.serve Sample.offline (Sample.post "p1") Sample.analysed))
     = [ Sample.feedback1 ].
Proof.
  exact (X3_run_on_pitch_with_feedback_fails Sample.offline (Sample.post "p1")
           Sample.analysed (Some (JStr "p1")) (Sample.pitch1 completed)
           ltac:(discriminate) eq_refl eq_refl eq_refl eq_refl).
Defined.

(** ** The endpoint: the run with a credential *)

Lemma ask_openai_gives :
  forall w key pitch db fb,
    completion_gives w key pitch fb ->
    Endpoint.ask_openai w key pitch db = (inr fb, db, []).
Proof.
  intros w key pitch db fb [code [txt [data [content [Hf [Hcode [Hp [Hc Hq]]]]]]]].
  unfold Endpoint.ask_openai. rewrite Hf.
  replace ((200 <=? code) && (code <=? 299)) with true
    by (symmetry; apply andb_true_iff; split; apply Nat.leb_le; lia).
  simpl negb. cbv iota. rewrite Hp.
  unfold Endpoint.bind. rewrite Hc. simpl. rewrite Hq. reflexivity.
Qed.

Lemma completion_gives_started :
  forall w key p fb,
    completion_gives w key p fb ->
    completion_gives w key (Endpoint.set_processing w p) fb.
Proof. intros w key p fb H. exact H. Qed.

Lemma insert_accepts :
  forall w r db score,
    score_column w (ins_overall_score r) = inr score ->
    has_feedback (ins_pitch_id r) db = false ->
    has_pitch (ins_pitch_id r) db = true ->
    insert_ai_feedback w r db = (None, add_feedback (stored_row r score) db).
Proof.
  intros w r db score Hs Hf Hp. unfold insert_ai_feedback.
  now rewrite Hs, Hf, Hp.
Qed.

Lemma completed_select :
  forall w pid row db p,
    select_pitch_single pid db = Some p ->
    select_pitch_single pid
      (mark pid (Endpoint.set_completed w)
         (add_feedback row (mark pid (Endpoint.set_processing w) db)))
    = Some (Endpoint.set_completed w (Endpoint.set_processing w p)).
Proof.
  intros w pid row db p Hsel. unfold mark at 1.
  rewrite (select_update pid _ _ (set_completed_keeps_id w)).
  change (select_pitch_single pid
            (add_feedback row (mark pid (Endpoint.set_processing w) db)))
    with (select_pitch_single pid (mark pid (Endpoint.set_processing w) db)).
  unfold mark. rewrite (select_update pid _ db (set_processing_keeps_id w)).
  now rewrite Hsel.
Qed.

Section RunsThatStore.
Import Endpoint.

Variables (w : World) (req : Request) (db : database)
          (pitch_id : jsval) (p : Pitches.row).
Hypothesis Hpost : method req <> "OPTIONS".
Hypothesis Hbody : read_pitch_id w req = inr pitch_id.
Hypothesis Htruthy : truthy pitch_id = true.
Hypothesis Hfound : select_pitch_single (text_of w pitch_id) db = Some p.
Hypothesis Hnone : has_feedback (text_of w pitch_id) db = false.

Lemma run_stores :
  forall ins fb score,
    insert_source w (text_of w pitch_id) (set_processing w p)
      (mark (text_of w pitch_id) (set_processing w) db) ins fb ->
    score_column w (ins_overall_score ins) = inr score ->
    serve w req db
    = (inr {| status := 200; body := success_body fb |},
       mark (text_of w pitch_id) (set_completed w)
         (add_feedback (stored_row ins score)
            (mark (text_of w pitch_id) (set_processing w) db)),
       [ mark (text_of w pitch_id) (set_processing w) db;
         add_feedback (stored_row ins score)
           (mark (text_of w pitch_id) (set_processing w) db);
         mark (text_of w pitch_id) (set_completed w)
           (add_feedback (stored_row ins score)
              (mark (text_of w pitch_id) (set_processing w) db)) ]).
Proof.
  intros ins fb score Hsrc Hscore.
  apply (serve_success w req db pitch_id p Hpost Hbody Htruthy Hfound).
  pose proof (insert_source_pid _ _ _ _ _ _ Hsrc) as Hpid.
  assert (insert_ai_feedback w ins (mark (text_of w pitch_id) (set_processing w) db)
          = (None, add_feedback (stored_row ins score)
                     (mark (text_of w pitch_id) (set_processing w) db))) as Hins.
  { apply insert_accepts; [exact Hscore| |]; rewrite Hpid; unfold mark.
    - now rewrite has_feedback_update.
    - rewrite (has_pitch_update _ _ _ db (set_processing_keeps_id w)).
      exact (select_some_has_pitch _ _ _ Hfound). }
  unfold analyse.
  destruct Hsrc as [[Hk [-> ->]]|[key [Hk [Hask Hrow]]]]; rewrite Hk.
  - now apply store_feedback_ok.
  - rewrite (bind_pure _ _ _ fb Hask).
    rewrite (bind_pure _ _ _ ins); [|now rewrite Hrow].
    now apply store_feedback_ok.
Qed.
End RunsThatStore.



(** X5.  A completion that parses to an object with none of the four
    fields is not an error: the insert takes the column defaults, so the
    pitch gets a feedback row with three empty lists and the score 5, and
    is marked completed. *)
Theorem X5_empty_feedback_object_stores_defaults :
  forall (w : World) (req : Endpoint.Request) (db : database)
         (pitch_id : jsval) (p : Pitches.row) (key : string)
         (fields : list (string * json)),
    Endpoint.method req <> "OPTIONS" ->
    Endpoint.read_pitch_id w req = inr pitch_id ->
    truthy pitch_id = true ->
    select_pitch_single (Endpoint.text_of w pitch_id) db = Some p ->
    has_feedback (Endpoint.text_of w pitch_id) db = false ->
    Endpoint.credential w = Some key ->
    completion_gives w key p (JObj fields) ->
    assoc "strengths" fields = None ->
    assoc "weaknesses" fields = None ->
    assoc "recommendations" fields = None ->
    assoc "overall_score" fields = None ->
    Endpoint.response_of (Endpoint.serve w req db)
    = inr {| Endpoint.status := 200;
             Endpoint.body := Endpoint.success_body (JObj fields) |}
    /\ ai_feedback (Endpoint.store_of (Endpoint.serve w req db))
       = ai_feedback db
         ++ [ {| AiFeedback.pitch_id := Endpoint.text_of w pitch_id;
                 AiFeedback.strengths := JArr [];
                 AiFeedback.weaknesses := JArr [];
                 AiFeedback.recommendations := JArr [];
                 AiFeedback.overall_score := Some 5%Z |} ]
    /\ ai_status_of (Endpoint.text_of w pitch_id)
         (Endpoint.store_of (Endpoint.serve w req db))
       = Some completed.
Proof.
  intros w req db v p key fields Hpost Hbody Htruthy Hfound Hnone Hk Hgives Hs Hw Hr Ho.
  set (pid := Endpoint.text_of w v) in *.
  set (ins := {| ins_pitch_id := pid; ins_strengths := None; ins_weaknesses := None;
                 ins_recommendations := None; ins_overall_score := None |}).
  assert (Endpoint.insert_of pid (JObj fields) = inr ins) as Hins
    by (unfold Endpoint.insert_of; simpl; now rewrite Hs, Hw, Hr, Ho).
  assert (insert_source w pid (Endpoint.set_processing w p)
            (mark pid (Endpoint.set_processing w) db) ins (JObj fields)) as Hsrc.
  { right. exists key. split; [exact Hk|]. split; [|exact Hins].
    apply ask_openai_gives. now apply completion_gives_started. }
  pose proof (run_stores w req db v p Hpost Hbody Htruthy Hfound Hnone ins (JObj fields)
                (Some 5%Z) Hsrc eq_refl) as Hrun.
  unfold Endpoint.response_of, Endpoint.store_of, ai_status_of. rewrite Hrun. simpl fst. simpl snd.
  split; [reflexivity|]. split; [reflexivity|].
  fold pid. now rewrite (completed_select w pid _ db p Hfound).
Qed.


(** X6.  A completion whose [overall_score] the integer column refuses
    fails the run: no row is stored, the pitch is marked failed with
    PostgreSQL's message, and the caller gets a 500 with the same message.
    The message is that of the check constraint for an integer outside
    1..10, "out of range for type integer" for one that does not fit the
    column's type, and "invalid input syntax for type integer" for a number
    that is not an integer. *)
Theorem X6_score_out_of_range_fails_the_run :
  forall (w : World) (req : Endpoint.Request) (db : database)
         (pitch_id : jsval) (p : Pitches.row) (key : string)
         (feedback : json) (ins : FeedbackInsert) (e : exn),
    Endpoint.method req <> "OPTIONS" ->
    Endpoint.read_pitch_id w req = inr pitch_id ->
    truthy pitch_id = true ->
    select_pitch_single (Endpoint.text_of w pitch_id) db = Some p ->
    Endpoint.credential w = Some key ->
    completion_gives w key p feedback ->
    Endpoint.insert_of (Endpoint.text_of w pitch_id) feedback = inr ins ->
    score_column w (ins_overall_score ins) = inl e ->
    reported_failure w req db (Endpoint.text_of w pitch_id) (message e)
    /\ ai_feedback (Endpoint.store_of (Endpoint.serve w req db)) = ai_feedback db
    /\ (forall n,
          ins_overall_score ins = Some (JNum n) ->
          (int4_min <= n <= int4_max)%Z ->
          (n < 1 \/ 10 < n)%Z ->
          e = check_violation "ai_feedback" "ai_feedback_overall_score_check")
    /\ (forall n,
          ins_overall_score ins = Some (JNum n) ->
          (Z.abs n < 10 ^ 21)%Z ->
          (n < int4_min \/ int4_max < n)%Z ->
          e = integer_out_of_range (string_of_Z n))
    /\ (forall q,
          ins_overall_score ins = Some (JFrac q) ->
          e = invalid_integer (JSON_stringify w (JFrac q))).
Proof.
  intros w req db v p key fb ins e Hpost Hbody Htruthy Hfound Hk Hgives Hins Hscore.
  set (pid := Endpoint.text_of w v) in *.
  set (started := mark pid (Endpoint.set_processing w) db).
  assert (insert_ai_feedback w ins started = (Some e, started)) as Hrej
    by (unfold insert_ai_feedback; now rewrite Hscore).
  assert (Endpoint.analyse w pid (Endpoint.set_processing w p) started
          = (inl e, started, [started])) as Ha.
  { apply (analyse_insert_error w pid _ started ins); [|exact Hrej].
    right. exists key, fb. split; [exact Hk|]. split; [|exact Hins].
    apply ask_openai_gives. now apply completion_gives_started. }
  split; [|split; [|split; [|split]]].
  - rewrite <- (message_or_default_nonempty e (score_column_message w _ e Hscore)).
    exact (failed_outcome_reported w req db v p e _ _ Hpost Hbody Htruthy Hfound Ha).
  - unfold Endpoint.store_of.
    rewrite (serve_failure w req db v p Hpost Hbody Htruthy Hfound _ _ _ Ha). reflexivity.
  - intros n Hn Hfit Hout. rewrite Hn in Hscore. unfold score_column in Hscore.
    assert ((Z.abs n <? 10 ^ 21)%Z = true) as Hsmall
      by (apply Z.ltb_lt; unfold int4_min, int4_max in Hfit; lia).
    rewrite Hsmall in Hscore. unfold score_of_integer in Hscore.
    assert (((int4_min <=? n) && (n <=? int4_max))%Z = true) as Hin
      by (apply andb_true_iff; split; apply Z.leb_le; lia).
    rewrite Hin in Hscore. cbn [negb] in Hscore.
    assert (((1 <=? n) && (n <=? 10))%Z = false) as Hno
      by (apply andb_false_iff; destruct Hout; [left|right]; apply Z.leb_gt; lia).
    rewrite Hno in Hscore. now injection Hscore as <-.
  - intros n Hn Hsmall Hout. rewrite Hn in Hscore. unfold score_column in Hscore.
    rewrite (proj2 (Z.ltb_lt _ _) Hsmall) in Hscore. unfold score_of_integer in Hscore.
    assert (((int4_min <=? n) && (n <=? int4_max))%Z = false) as Hin
      by (apply andb_false_iff; destruct Hout; [left|right]; apply Z.leb_gt; lia).
    rewrite Hin in Hscore. cbn [negb] in Hscore. now injection Hscore as <-.
  - intros q Hq. rewrite Hq in Hscore. cbn [score_column] in Hscore.
    now injection Hscore as <-.
Qed.

Lemma X5_witness :
  ai_feedback
    (Endpoint.store_of
       (Endpoint.serve (Answers.world (Some "sk") (fetch_response 200 "empty completion"))
          (Sample.post "p1") Sample.fresh))
  = [ {| AiFeedback.pitch_id := "p1";
         AiFeedback.strengths := JArr [];
         AiFeedback.weaknesses := JArr [];
         AiFeedback.recommendations := JArr [];
         AiFeedback.overall_score := Some 5%Z |} ]
  /\ ai_status_of "p1"
       (Endpoint.store_of
          (Endpoint.serve (Answers.world (Some "sk") (fetch_response 200 "empty completion"))
             (Sample.post "p1") Sample.fresh))
     = Some completed.
Proof.
  assert (completion_gives (Answers.world (Some "sk") (fetch_response 200 "empty completion"))
            "sk" (Sample.pitch1 pending) (JObj [])) as Hgives.
  { exists 200, "empty completion", (Sample.completion (JStr "{}")), (Some (JStr "{}")).
    repeat split; repeat constructor. }
  exact (proj2 (X5_empty_feedback_object_stores_defaults
                  (Answers.world (Some "sk") (fetch_response 200 "empty completion"))
                  (Sample.post "p1") Sample.fresh (Some (JStr "p1")) (Sample.pitch1 pending)
                  "sk" [] ltac:(discriminate) eq_refl eq_refl eq_refl eq_refl eq_refl Hgives
                  eq_refl eq_refl eq_refl eq_refl)).
Defined.

Lemma X6_witness :
  reported_failure (Answers.world (Some "sk") (fetch_response 200 "eleven completion"))
    (Sample.post "p1") Sample.fresh "p1"
    (message (check_violation "ai_feedback" "ai_feedback_overall_score_check"))
  /\ ai_feedback
       (Endpoint.store_of
          (Endpoint.serve (Answers.world (Some "sk") (fetch_response 200 "eleven completion"))
             (Sample.post "p1") Sample.fresh))
     = [].
Proof.
  assert (completion_gives (Answers.world (Some "sk") (fetch_response 200 "eleven completion"))
            "sk" (Sample.pitch1 pending) (JObj [ ("overall_score", JNum 11) ])) as Hgives.
  { exists 200, "eleven completion", (Sample.completion (JStr "eleven")), (Some (JStr "eleven")).
    repeat split; repeat constructor. }
  pose proof (X6_score_out_of_range_fails_the_run
                (Answers.world (Some "sk") (fetch_response 200 "eleven completion"))
                (Sample.post "p1") Sample.fresh (Some (JStr "p1")) (Sample.pitch1 pending)
                "sk" (JObj [ ("overall_score", JNum 11) ]) _
                (check_violation "ai_feedback" "ai_feedback_overall_score_check")
                ltac:(discriminate) eq_refl eq_refl eq_refl eq_refl Hgives eq_refl eq_refl)
    as H.
  split; [exact (proj1 H)|exact (proj1 (proj2 H))].
Defined.

(** The two other refusals, on the sample values 4294967303 and 7.5. *)
Example sample_score_too_large :
  Endpoint.response_of
    (Endpoint.serve (Answers.world (Some "sk") (fetch_response 200 "large completion"))
       (Sample.post "p1") Sample.fresh)
  = inr {| Endpoint.status := 500;
           Endpoint.body :=
             Endpoint.error_body
               (String.concat EmptyString
                  [ "value "; quoted "4294967303"; " is out of range for type integer" ]) |}.
Proof. reflexivity. Qed.

Example sample_score_not_an_integer :
  Endpoint.response_of
    (Endpoint.serve (Answers.world (Some "sk") (fetch_response 200 "half completion"))
       (Sample.post "p1") Sample.fresh)
  = inr {| Endpoint.status := 500;
           Endpoint.body :=
             Endpoint.error_body
               (String.append "invalid input syntax for type integer: " (quoted "7.5")) |}.
Proof. reflexivity. Qed.

(** ** The endpoint: a retry after a failed run *)

(** X7.  A failed run stores no feedback row, so the pitch can be retried:
    when a run for a pitch without feedback fails and the endpoint is then
    invoked for the same pitch with no credential configured, the second
    run stores the mock feedback as the pitch's only row, marks the pitch
    completed and answers 200. *)
Theorem X7_retry_after_failure_completes :
  forall (w1 w2 : World) (req : Endpoint.Request) (db : database)
         (pid : uuid) (p : Pitches.row) (e : exn) (d : database) (j : list database),
    Endpoint.method req <> "OPTIONS" ->
    Endpoint.read_pitch_id w1 req = inr (Some (JStr pid)) ->
    Endpoint.read_pitch_id w2 req = inr (Some (JStr pid)) ->
    pid <> EmptyString ->
    select_pitch_single pid db = Some p ->
    has_feedback pid db = false ->
    Endpoint.analyse w1 pid (Endpoint.set_processing w1 p)
      (mark pid (Endpoint.set_processing w1) db) = (inl e, d, j) ->
    credential_absent w2 ->
    let failed_store := Endpoint.store_of (Endpoint.serve w1 req db) in
    ai_status_of pid failed_store = Some failed
    /\ ai_feedback failed_store = ai_feedback db
    /\ Endpoint.response_of (Endpoint.serve w2 req failed_store)
       = inr {| Endpoint.status := 200;
                Endpoint.body := Endpoint.success_body Endpoint.mockFeedback |}
    /\ ai_status_of pid (Endpoint.store_of (Endpoint.serve w2 req failed_store))
       = Some completed
    /\ ai_feedback (Endpoint.store_of (Endpoint.serve w2 req failed_store))
       = ai_feedback db ++ [ mock_row pid ].
Proof.
  intros w1 w2 req db pid p e d j Hpost Hb1 Hb2 Hne Hfound Hnone Ha Hkey failed_store.
  assert (truthy (Some (JStr pid)) = true) as Htruthy
    by (simpl; now rewrite (proj2 (String.eqb_neq _ _) Hne)).
  set (started := mark pid (Endpoint.set_processing w1) db) in *.
  assert (d = started) as ->.
  { destruct (analyse_cases w1 pid (Endpoint.set_processing w1 p) started)
      as [[fb [row [Hs _]]]|[e' [j' [Hs _]]]]; congruence. }
  assert (failed_store = mark pid (Endpoint.set_failed w1 e) started) as Hstore.
  { unfold failed_store, Endpoint.store_of.
    rewrite (serve_failure w1 req db (Some (JStr pid)) p Hpost Hb1 Htruthy Hfound e _ j Ha).
    reflexivity. }
  assert (select_pitch_single pid failed_store
          = Some (Endpoint.set_failed w1 e (Endpoint.set_processing w1 p))) as Hsel.
  { rewrite Hstore. unfold mark at 1.
    rewrite (select_update pid _ started (set_failed_keeps_id w1 e)).
    unfold started, mark. rewrite (select_update pid _ db (set_processing_keeps_id w1)).
    now rewrite Hfound. }
  assert (has_feedback pid failed_store = false) as Hnone'
    by (rewrite Hstore; exact Hnone).
  assert (insert_source w2 pid
            (Endpoint.set_processing w2 (Endpoint.set_failed w1 e (Endpoint.set_processing w1 p)))
            (mark pid (Endpoint.set_processing w2) failed_store)
            (Endpoint.mock_insert pid) Endpoint.mockFeedback) as Hsrc
    by (left; auto).
  pose proof (run_stores w2 req failed_store (Some (JStr pid)) _ Hpost Hb2 Htruthy Hsel Hnone'
                _ _ (Some 7%Z) Hsrc eq_refl) as Hrun.
  split; [unfold ai_status_of; now rewrite Hsel|].
  split; [now rewrite Hstore|].
  unfold Endpoint.response_of, Endpoint.store_of, ai_status_of.
  rewrite Hrun. simpl fst. simpl snd.
  split; [reflexivity|]. split.
  - change (Endpoint.text_of w2 (Some (JStr pid))) with pid.
    now rewrite (completed_select w2 pid _ failed_store _ Hsel).
  - simpl. now rewrite Hstore.
Qed.

Lemma X7_witness :
  ai_status_of "p1"
    (Endpoint.store_of
       (Endpoint.serve (Sample.world (Some "sk") (fetch_response 503 "busy"))
          (Sample.post "p1") Sample.fresh))
  = Some failed
  /\ ai_status_of "p1"
       (Endpoint.store_of
          (Endpoint.serve Sample.offline (Sample.post "p1")
             (Endpoint.store_of
                (Endpoint.serve (Sample.world (Some "sk") (fetch_response 503 "busy"))
                   (Sample.post "p1") Sample.fresh))))
     = Some completed.
Proof.
  pose proof (X7_retry_after_failure_completes
                (Sample.world (Some "sk") (fetch_response 503 "busy")) Sample.offline
                (Sample.post "p1") Sample.fresh "p1" (Sample.pitch1 pending)
                (Error "OpenAI API error: 503 - busy") _ []
                ltac:(discriminate) eq_refl eq_refl ltac:(discriminate)
                eq_refl eq_refl eq_refl eq_refl) as H.
  split; [exact (proj1 H)|exact (proj1 (proj2 (proj2 (proj2 H))))].
Defined.

(** ** The store: keys and checks that hold in every reachable store *)

Lemma update_pitches_ids :
  forall cond set db,
    keeps_id set ->
    map Pitches.id (pitches (update_pitches cond set db)) = map Pitches.id (pitches db).
Proof.
  intros cond set db Hk. unfold update_pitches. simpl. rewrite map_map.
  apply map_ext. intros p. destruct (cond p); [apply Hk|reflexivity].
Qed.

Lemma has_pitch_ids :
  forall pid db, has_pitch pid db = true <-> In pid (map Pitches.id (pitches db)).
Proof.
  intros pid db. rewrite has_pitch_in, map_map. reflexivity.
Qed.

Lemma insert_pitch_cases :
  forall uid new_id created owner data st db,
    snd (insert_pitch uid new_id created owner data st db) = db
    \/ (has_pitch new_id db = false
        /\ exists p,
             Pitches.id p = new_id
             /\ Pitches.ai_processing_status p = pending
             /\ pitches (snd (insert_pitch uid new_id created owner data st db))
                = pitches db ++ [p]
             /\ ai_feedback (snd (insert_pitch uid new_id created owner data st db))
                = ai_feedback db
             /\ votes (snd (insert_pitch uid new_id created owner data st db)) = votes db).
Proof.
  intros uid nid c owner data st db. unfold insert_pitch.
  destruct (negb _); [now left|]. destruct (has_pitch nid db) eqn:E; [now left|].
  right. split; [reflexivity|].
  exists {| Pitches.id := nid;
            Pitches.user_id := owner;
            Pitches.content := data;
            Pitches.status := st;
            Pitches.created_at := c;
            Pitches.ai_processing_status := pending;
            Pitches.ai_processing_started_at := None;
            Pitches.ai_processing_completed_at := None;
            Pitches.ai_processing_error := None |}.
  repeat split.
Qed.

Lemma insert_vote_keeps_tables :
  forall uid v db,
    pitches (snd (insert_vote uid v db)) = pitches db
    /\ ai_feedback (snd (insert_vote uid v db)) = ai_feedback db.
Proof.
  intros uid v db. unfold insert_vote.
  repeat match goal with |- context [if ?c then _ else _] => destruct c end;
    split; reflexivity.
Qed.

(** Every statement of the client leaves pitches and feedback rows as they
    were, changes pitches by an update that keeps ids, or appends one pitch
    with a fresh id. *)
Lemma client_step_shape :
  forall a db,
    client_statement a ->
    ai_feedback (step a db) = ai_feedback db
    /\ (map Pitches.id (pitches (step a db)) = map Pitches.id (pitches db)
        \/ exists new_id,
             has_pitch new_id db = false
             /\ map Pitches.id (pitches (step a db))
                = map Pitches.id (pitches db) ++ [new_id]).
Proof.
  assert (forall uid nid c owner data st db,
             ai_feedback (snd (insert_pitch uid nid c owner data st db)) = ai_feedback db
             /\ (map Pitches.id (pitches (snd (insert_pitch uid nid c owner data st db)))
                 = map Pitches.id (pitches db)
                 \/ exists new_id,
                      has_pitch new_id db = false
                      /\ map Pitches.id (pitches (snd (insert_pitch uid nid c owner data st db)))
                         = map Pitches.id (pitches db) ++ [new_id])) as Hins.
  { intros uid nid c owner data st db.
    destruct (insert_pitch_cases uid nid c owner data st db)
      as [->|[Hnew [p [Hid [_ [Hp [Hf _]]]]]]]; [split; [reflexivity|now left]|].
    split; [exact Hf|]. right. exists nid. split; [exact Hnew|].
    rewrite Hp, map_app. simpl. now rewrite Hid. }
  assert (forall uid d data st db,
             ai_feedback (update_pitch uid d data st db) = ai_feedback db
             /\ (map Pitches.id (pitches (update_pitch uid d data st db))
                 = map Pitches.id (pitches db)
                 \/ exists new_id,
                      has_pitch new_id db = false
                      /\ map Pitches.id (pitches (update_pitch uid d data st db))
                         = map Pitches.id (pitches db) ++ [new_id])) as Hupd.
  { intros uid d data st db. split; [reflexivity|]. left.
    unfold update_pitch. apply update_pitches_ids. intros p. reflexivity. }
  intros [uid nid c cur data|uid nid c cur data|w req|user pitch voting pid vt
         |user feed i voting vt|] db Hc; simpl in Hc; try contradiction; simpl.
  - unfold SubmissionForm.saveDraft. destruct cur; [apply Hupd|apply Hins].
  - unfold SubmissionForm.publish. destruct cur; simpl; [apply Hupd|].
    specialize (Hins uid nid c uid data published db).
    destruct (insert_pitch uid nid c uid data published db) as [[e|] d]; exact Hins.
  - unfold PitchDetailView.handleVote.
    destruct user; [|now split; [|left]]. destruct pitch; [|now split; [|left]].
    destruct (_ || _); [now split; [|left]|]. destruct (PitchDetailView.user_vote _).
    + now split; [|left].
    + destruct (insert_vote_keeps_tables u {| Votes.pitch_id := pid; Votes.user_id := u;
                                              Votes.vote_type := vt |} db) as [Hp Hf].
      rewrite Hp, Hf. now split; [|left].
  - unfold DiscoverFeed.handleVote.
    destruct user; [|now split; [|left]]. destruct (_ || _); [now split; [|left]|].
    destruct (nth_error feed i) as [cur|]; [|now split; [|left]].
    destruct (insert_vote_keeps_tables u {| Votes.pitch_id := Pitches.id cur; Votes.user_id := u;
                                              Votes.vote_type := vt |} db) as [Hp Hf].
    rewrite Hp, Hf. now split; [|left].
Qed.

Lemma mark_ids :
  forall pid set db,
    keeps_id set ->
    map Pitches.id (pitches (mark pid set db)) = map Pitches.id (pitches db).
Proof. intros pid set db Hk. unfold mark. now apply update_pitches_ids. Qed.

Lemma serve_pitch_ids :
  forall w req db,
    map Pitches.id (pitches (Endpoint.store_of (Endpoint.serve w req db)))
    = map Pitches.id (pitches db).
Proof.
  intros w req db.
  destruct (serve_store_cases w req db)
    as [->|[pid [_ [->|[[e ->]|[ins [score [-> _]]]]]]]].
  - reflexivity.
  - apply mark_ids, set_processing_keeps_id.
  - rewrite (mark_ids _ _ _ (set_failed_keeps_id w e)).
    apply mark_ids, set_processing_keeps_id.
  - rewrite (mark_ids _ _ _ (set_completed_keeps_id w)).
    change (pitches (add_feedback (stored_row ins score)
                       (mark pid (Endpoint.set_processing w) db)))
      with (pitches (mark pid (Endpoint.set_processing w) db)).
    apply mark_ids, set_processing_keeps_id.
Qed.

Lemma step_ids :
  forall a db,
    map Pitches.id (pitches (step a db)) = map Pitches.id (pitches db)
    \/ exists new_id,
         has_pitch new_id db = false
         /\ map Pitches.id (pitches (step a db)) = map Pitches.id (pitches db) ++ [new_id].
Proof.
  intros a db. destruct a as [uid nid c cur data|uid nid c cur data|w req| | |] eqn:Ea;
    try (rewrite <- Ea; apply client_step_shape; rewrite Ea; exact I).
  - left. simpl. apply serve_pitch_ids.
  - left. change (step StatusMigration db) with (status_migration db).
    unfold status_migration. cbv zeta.
    rewrite update_pitches_ids by (intros p; reflexivity).
    apply update_pitches_ids. intros p. reflexivity.
Qed.

Lemma step_keeps_unique_ids :
  forall a db, pitch_ids_unique db -> pitch_ids_unique (step a db).
Proof.
  intros a db H. unfold pitch_ids_unique in *.
  destruct (step_ids a db) as [->|[new_id [Hnew ->]]]; [exact H|].
  apply NoDup_app; [exact H|repeat constructor; intros []|].
  intros x Hx [<-|[]]. apply has_pitch_ids in Hx. congruence.
Qed.

(** X8.  The primary key holds in every store the code can produce: no two
    pitches have the same id. *)
Theorem X8_pitch_ids_are_unique :
  forall db, reachable db -> pitch_ids_unique db.
Proof.
  intros db [trace ->]. apply run_keeps.
  - exact step_keeps_unique_ids.
  - constructor.
Qed.

Lemma X8_witness :
  reachable Scenario.after_swipe /\ pitch_ids_unique Scenario.after_swipe.
Proof.
  assert (reachable Scenario.after_swipe) as Hr by (exists Scenario.swipe; reflexivity).
  split; [exact Hr|exact (X8_pitch_ids_are_unique Scenario.after_swipe Hr)].
Defined.

Lemma serve_feedback_rows :
  forall w req db,
    ai_feedback (Endpoint.store_of (Endpoint.serve w req db)) = ai_feedback db
    \/ exists row,
         ai_feedback (Endpoint.store_of (Endpoint.serve w req db)) = ai_feedback db ++ [row]
         /\ score_in_range row
         /\ has_pitch (AiFeedback.pitch_id row) db = true.
Proof.
  intros w req db.
  destruct (serve_store_cases w req db)
    as [->|[pid [_ [->|[[e ->]|[ins [score [-> [Hpid [Hs [_ Hp]]]]]]]]]]];
    try (left; reflexivity).
  right. exists (stored_row ins score). split; [reflexivity|]. split.
  - unfold score_in_range. simpl. exact (score_column_range w _ score Hs).
  - simpl. now rewrite Hpid.
Qed.

Lemma has_pitch_step :
  forall a db pid, has_pitch pid db = true -> has_pitch pid (step a db) = true.
Proof.
  intros a db pid H. apply has_pitch_ids. apply has_pitch_ids in H.
  destruct (step_ids a db) as [->|[new_id [_ ->]]]; [exact H|].
  apply in_or_app. now left.
Qed.

Lemma step_feedback_rows :
  forall a db,
    ai_feedback (step a db) = ai_feedback db
    \/ exists row,
         ai_feedback (step a db) = ai_feedback db ++ [row]
         /\ score_in_range row
         /\ has_pitch (AiFeedback.pitch_id row) db = true.
Proof.
  intros a db. destruct a as [uid nid c cur data|uid nid c cur data|w req| | |] eqn:Ea;
    try (left; rewrite <- Ea; apply client_step_shape; rewrite Ea; exact I).
  - apply serve_feedback_rows.
  - left. reflexivity.
Qed.

Lemma step_keeps_feedback_rows :
  forall a db, feedback_rows_ok db -> feedback_rows_ok (step a db).
Proof.
  intros a db H r Hr.
  destruct (step_feedback_rows a db) as [Heq|[row [Heq [Hrange Hp]]]]; rewrite Heq in Hr.
  - destruct (H r Hr) as [H1 H2]. split; [exact H1|now apply has_pitch_step].
  - apply in_app_or in Hr. destruct Hr as [Hr|[<-|[]]].
    + destruct (H r Hr) as [H1 H2]. split; [exact H1|now apply has_pitch_step].
    + split; [exact Hrange|now apply has_pitch_step].
Qed.

(** X9.  In every store the code can produce, each feedback row belongs to
    an existing pitch and its score is NULL or an integer from 1 to 10. *)
Theorem X9_feedback_rows_are_checked :
  forall db, reachable db ->
    forall r, In r (ai_feedback db) ->
      has_pitch (AiFeedback.pitch_id r) db = true
      /\ match AiFeedback.overall_score r with
         | None => True
         | Some n => (1 <= n <= 10)%Z
         end.
Proof.
  intros db [trace ->] r Hr.
  assert (feedback_rows_ok (run trace empty_database)) as H.
  { apply run_keeps; [exact step_keeps_feedback_rows|]. intros x []. }
  destruct (H r Hr) as [H1 H2]. split; [exact H2|exact H1].
Qed.

Lemma X9_witness :
  reachable Scenario.after_submit
  /\ has_pitch "p1" Scenario.after_submit = true.
Proof.
  assert (reachable Scenario.after_submit) as Hr
    by (exists Scenario.submit_offline; reflexivity).
  split; [exact Hr|].
  exact (proj1 (X9_feedback_rows_are_checked Scenario.after_submit Hr (mock_row "p1")
                  (or_introl eq_refl))).
Defined.

(* ------------------------------------------------------------------ *)
(** ** The status migration *)
(* ------------------------------------------------------------------ *)

Lemma Forall2_map_r :
  forall (A B : Type) (R : A -> B -> Prop) (f : A -> B) (l : list A),
    (forall a, R a (f a)) -> Forall2 R l (map f l).
Proof.
  intros A B R f l H. induction l as [|a l IH]; simpl; constructor; auto.
Qed.

Lemma migration_rows :
  forall db, Forall2 (migrated db) (pitches db) (pitches (status_migration db)).
Proof.
  intros db. unfold status_migration, update_pitches. cbn [pitches ai_feedback votes].
  rewrite map_map. apply Forall2_map_r. intros p. unfold migrated, awaiting, has_feedback.
  cbn [ai_feedback].
  destruct (pitch_status_eqb (Pitches.status p) published) eqn:Es;
    destruct (processing_status_eqb (Pitches.ai_processing_status p) pending) eqn:Ea;
    cbn [andb]; rewrite ?andb_false_r; cbn [andb]; rewrite ?Es, ?Ea; cbn [andb];
    rewrite ?andb_false_r; try reflexivity.
  destruct (existsb _ (ai_feedback db)) eqn:Ef; cbn [andb negb Pitches.status
    Pitches.ai_processing_status Pitches.id]; rewrite ?Es, ?Ef; cbn [andb negb];
    rewrite ?Ea; unfold pitch_data; simpl; repeat split; reflexivity.
Qed.

Lemma migrated_not_awaiting :
  forall db p q, migrated db p q -> awaiting q = false.
Proof.
  intros db p q H. unfold migrated in H. destruct (awaiting p) eqn:Ea.
  - destruct H as [_ [_ H]]. unfold awaiting.
    destruct (has_feedback (Pitches.id p) db); destruct H as [-> _];
      simpl; apply andb_false_r.
  - now subst q.
Qed.

(** X10.  The status migration rewrites exactly the published pitches whose
    AI-processing status is pending: one with a feedback row becomes
    completed at its creation time, one without becomes failed with the
    retry message; every other row and both other tables stay as they
    were.  Afterwards no published pitch is pending, so running the
    migration a second time changes nothing. *)
Theorem X10_status_migration :
  forall db,
    Forall2 (migrated db) (pitches db) (pitches (status_migration db))
    /\ ai_feedback (status_migration db) = ai_feedback db
    /\ votes (status_migration db) = votes db
    /\ (forall q, In q (pitches (status_migration db)) ->
          Pitches.status q = published ->
          Pitches.ai_processing_status q <> pending)
    /\ status_migration (status_migration db) = status_migration db.
Proof.
  intros db.
  assert (forall q, In q (pitches (status_migration db)) -> awaiting q = false) as Hq.
  { intros q Hin. pose proof (migration_rows db) as HF.
    induction HF as [|p q' ps qs Hpq HF IH]; [destruct Hin|].
    destruct Hin as [<-|Hin]; [exact (migrated_not_awaiting db p q' Hpq)|now apply IH]. }
  split; [apply migration_rows|]. split; [reflexivity|]. split; [reflexivity|]. split.
  - intros q Hin Hs Ha. specialize (Hq q Hin). unfold awaiting in Hq.
    rewrite Hs, Ha in Hq. discriminate.
  - set (db' := status_migration db) in *. unfold status_migration at 1. cbv zeta.
    rewrite (update_pitches_no_match _ _ db').
    + apply update_pitches_no_match. intros p Hp. specialize (Hq p Hp).
      unfold awaiting in Hq.
      destruct (pitch_status_eqb (Pitches.status p) published); [|reflexivity].
      simpl in Hq. rewrite Hq. apply andb_false_r.
    + intros p Hp. specialize (Hq p Hp). unfold awaiting in Hq.
      destruct (pitch_status_eqb (Pitches.status p) published); [|reflexivity].
      simpl in Hq. rewrite Hq. apply andb_false_r.
Qed.

(* ------------------------------------------------------------------ *)
(** ** PitchDetailView: voting and reloading *)
(* ------------------------------------------------------------------ *)

Lemma reachable_votes_ok : forall db, reachable db -> votes_ok db.
Proof.
  intros db [trace ->]. apply run_keeps; [exact step_keeps_votes_ok|exact votes_ok_empty].
Qed.

Lemma count_of_count_votes :
  forall t pid db,
    count_of t (count_votes pid db)
    = List.length
        (filter (fun v => vote_type_eqb (Votes.vote_type v) t)
           (filter (fun v => String.eqb (Votes.pitch_id v) pid) (votes db))).
Proof. intros [] pid db; reflexivity. Qed.

Lemma vote_type_eqb_sym : forall a b, vote_type_eqb a b = vote_type_eqb b a.
Proof. intros [] []; reflexivity. Qed.

Lemma count_after_insert :
  forall t pid u vt db,
    count_of t
      (count_votes pid
         (add_vote {| Votes.pitch_id := pid; Votes.user_id := u; Votes.vote_type := vt |} db))
    = count_of t (count_votes pid db) + one_if t vt.
Proof.
  intros t pid u vt db. rewrite !count_of_count_votes. unfold add_vote. cbn [votes].
  rewrite filter_app. cbn [filter Votes.pitch_id]. rewrite String.eqb_refl.
  rewrite filter_app, length_app. cbn [filter Votes.vote_type]. unfold one_if.
  rewrite (vote_type_eqb_sym vt t). now destruct (vote_type_eqb t vt).
Qed.

Lemma count_after_update :
  forall t pid u vt l,
    List.length
      (filter (fun v => vote_type_eqb (Votes.vote_type v) t)
         (filter (fun v => String.eqb (Votes.pitch_id v) pid)
            (map (fun v =>
                    if vote_is pid u v && String.eqb (Votes.user_id v) u
                    then {| Votes.pitch_id := Votes.pitch_id v;
                            Votes.user_id := Votes.user_id v;
                            Votes.vote_type := vt |}
                    else v) l)))
    + List.length
        (filter (fun v => vote_type_eqb (Votes.vote_type v) t) (filter (vote_is pid u) l))
    = List.length
        (filter (fun v => vote_type_eqb (Votes.vote_type v) t)
           (filter (fun v => String.eqb (Votes.pitch_id v) pid) l))
      + one_if t vt * List.length (filter (vote_is pid u) l).
Proof.
  intros t pid u vt l. induction l as [|v l IH]; [simpl; lia|].
  cbn [map filter].
  assert (vote_is pid u v
          = String.eqb (Votes.pitch_id v) pid && String.eqb (Votes.user_id v) u) as Hv
    by reflexivity.
  rewrite !Hv.
  destruct (String.eqb (Votes.pitch_id v) pid) eqn:Ep;
    destruct (String.eqb (Votes.user_id v) u) eqn:Eu; cbn [andb Votes.pitch_id];
    rewrite ?Ep; cbn [filter Votes.vote_type]; unfold one_if in *;
    rewrite ?(vote_type_eqb_sym vt t);
    destruct (vote_type_eqb (Votes.vote_type v) t);
    destruct (vote_type_eqb t vt); cbn [List.length]; lia.
Qed.

Lemma own_vote_after_update :
  forall pid u vt l,
    filter (vote_is pid u)
      (map (fun v =>
              if vote_is pid u v && String.eqb (Votes.user_id v) u
              then {| Votes.pitch_id := Votes.pitch_id v;
                      Votes.user_id := Votes.user_id v;
                      Votes.vote_type := vt |}
              else v) l)
    = map (fun v => {| Votes.pitch_id := Votes.pitch_id v;
                       Votes.user_id := Votes.user_id v;
                       Votes.vote_type := vt |})
        (filter (vote_is pid u) l).
Proof.
  intros pid u vt l. induction l as [|v l IH]; [reflexivity|].
  cbn [map filter]. destruct (vote_is pid u v) eqn:Ev.
  - pose proof Ev as Ev'. unfold vote_is in Ev'. apply andb_prop in Ev'.
    destruct Ev' as [E1 E2]. rewrite E2. cbn [andb].
    unfold vote_is at 1. cbn [Votes.pitch_id Votes.user_id]. rewrite E1, E2. cbn [andb map].
    now rewrite IH.
  - cbn [andb]. rewrite Ev. exact IH.
Qed.

(** X11.  Voting in the detail view and the reload that follows.  In a
    store the code can produce, a user who has loaded a pitch of someone
    else and votes on it sees, after the reload, the same pitch with their
    own vote set to the chosen type.  A first vote raises the figure of the
    chosen type by one; a changed vote moves one vote from the old type to
    the new one, so the two figures keep their sum. *)
Theorem X11_vote_then_reload :
  forall db u pid d vt,
    reachable db ->
    PitchDetailView.loadPitchDetail u pid db = Some d ->
    Pitches.user_id (PitchDetailView.pitchData d) <> u ->
    exists d',
      PitchDetailView.loadPitchDetail u pid
        (PitchDetailView.handleVote (Some u) (Some d) false pid vt db) = Some d'
      /\ PitchDetailView.pitchData d' = PitchDetailView.pitchData d
      /\ PitchDetailView.ai_feedback d' = PitchDetailView.ai_feedback d
      /\ PitchDetailView.user_vote d' = Some vt
      /\ forall t,
           count_of t (PitchDetailView.vote_counts d')
           + match PitchDetailView.user_vote d with
             | Some old => one_if t old
             | None => 0
             end
           = count_of t (PitchDetailView.vote_counts d) + one_if t vt.
Proof.
  intros db u pid d vt Hr Hload Hother.
  destruct (loaded_view u pid db d Hload Hother) as [Hown [Hpitch [_ Hone]]].
  destruct (reachable_votes_ok db Hr) as [Hnd _].
  assert (List.length (filter (vote_is pid u) (votes db)) <= 1) as Hle.
  { apply (unique_key_count vote_key (vote_is pid u) (pid, u)); [|exact Hnd].
    intros v Hv. unfold vote_is in Hv. apply andb_prop in Hv. destruct Hv as [H1 H2].
    apply String.eqb_eq in H1. apply String.eqb_eq in H2. unfold vote_key. now rewrite H1, H2. }
  unfold PitchDetailView.handleVote.
  assert (String.eqb (Pitches.user_id (PitchDetailView.pitchData d)) u = false) as ->
    by now apply String.eqb_neq.
  cbn [orb].
  unfold PitchDetailView.loadPitchDetail in Hload |- *.
  destruct (filter (fun p => String.eqb (Pitches.id p) pid && can_view u p) (pitches db))
    as [|p [|q r]] eqn:Hf; try discriminate.
  injection Hload as <-. cbn [PitchDetailView.user_vote PitchDetailView.pitchData
    PitchDetailView.ai_feedback PitchDetailView.vote_counts] in *.
  destruct (filter (vote_is pid u) (votes db)) as [|v0 [|v1 rest]] eqn:Hv;
    [| |simpl in Hle; lia]; cbn [maybeSingle option_map].
  - assert (snd (insert_vote u
                   {| Votes.pitch_id := pid; Votes.user_id := u; Votes.vote_type := vt |} db)
            = add_vote {| Votes.pitch_id := pid; Votes.user_id := u; Votes.vote_type := vt |} db)
      as ->.
    { unfold insert_vote. cbn [Votes.pitch_id Votes.user_id].
      rewrite String.eqb_refl, Hown, Hpitch.
      assert (has_vote pid u db = false) as ->.
      { apply count_zero_has_vote. unfold count_vote_rows. now rewrite Hv. }
      reflexivity. }
    set (v := {| Votes.pitch_id := pid; Votes.user_id := u; Votes.vote_type := vt |}).
    change (pitches (add_vote v db)) with (pitches db).
    change (votes (add_vote v db)) with (votes db ++ [v]).
    rewrite Hf. eexists. split; [reflexivity|].
    cbn [PitchDetailView.user_vote PitchDetailView.pitchData
         PitchDetailView.ai_feedback PitchDetailView.vote_counts].
    split; [reflexivity|]. split; [reflexivity|]. split.
    + rewrite filter_app, Hv. cbn [filter app].
      unfold vote_is, v. cbn [Votes.pitch_id Votes.user_id]. rewrite !String.eqb_refl.
      reflexivity.
    + intros t. rewrite Nat.add_0_r.
      exact (count_after_insert t pid u vt db).
  - set (db' := update_vote u pid u vt db).
    change (pitches db') with (pitches db). rewrite Hf.
    eexists. split; [reflexivity|].
    cbn [PitchDetailView.user_vote PitchDetailView.pitchData
         PitchDetailView.ai_feedback PitchDetailView.vote_counts].
    split; [reflexivity|]. split; [reflexivity|]. split.
    + unfold db', update_vote. cbn [votes]. rewrite own_vote_after_update, Hv. reflexivity.
    + intros t. rewrite !count_of_count_votes. unfold db', update_vote. cbn [votes].
      pose proof (count_after_update t pid u vt (votes db)) as Hc.
      rewrite Hv in Hc. cbn [filter List.length] in Hc.
      unfold one_if at 1. rewrite (vote_type_eqb_sym t (Votes.vote_type v0)).
      destruct (vote_type_eqb (Votes.vote_type v0) t); cbn [List.length] in Hc; lia.
Qed.

Lemma X11_witness :
  exists d d',
    PitchDetailView.loadPitchDetail "u2" "p1" Scenario.after_swipe = Some d
    /\ PitchDetailView.loadPitchDetail "u2" "p1"
         (PitchDetailView.handleVote (Some "u2") (Some d) false "p1" needs_work
            Scenario.after_swipe) = Some d'
    /\ PitchDetailView.user_vote d' = Some needs_work.
Proof.
  assert (reachable Scenario.after_swipe) as Hr by (exists Scenario.swipe; reflexivity).
  destruct (PitchDetailView.loadPitchDetail "u2" "p1" Scenario.after_swipe) as [d|] eqn:Hd;
    [|vm_compute in Hd; discriminate].
  assert (Pitches.user_id (PitchDetailView.pitchData d) <> "u2") as Hne.
  { vm_compute in Hd. injection Hd as <-. simpl. discriminate. }
  destruct (X11_vote_then_reload Scenario.after_swipe "u2" "p1" d needs_work Hr Hd Hne)
    as [d' [H1 [_ [_ [H2 _]]]]].
  exists d, d'. repeat split; assumption.
Defined.

(* ------------------------------------------------------------------ *)
(** ** PitchDetailView: what a load shows *)
(* ------------------------------------------------------------------ *)


Lemma reachable_unique_ids : forall db, reachable db -> pitch_ids_unique db.
Proof.
  intros db [trace ->]. apply run_keeps; [exact step_keeps_unique_ids|constructor].
Qed.

Lemma single_of_unique :
  forall {A K : Type} (key : A -> K) (test : A -> bool) (l : list A) (x : A),
    NoDup (map key l) ->
    In x l ->
    test x = true ->
    (forall y, In y l -> test y = true -> key y = key x) ->
    filter test l = [x].
Proof.
  intros A K key test l x. induction l as [|a l IH]; intros Hnd Hin Hx Hkey; [destruct Hin|].
  inversion Hnd as [|k ks Hnotin Hnd' Heq]; subst. cbn [filter].
  assert (forall y, In y l -> test y = true -> key y = key x) as Hkey'
    by (intros y Hy; apply Hkey; now right).
  destruct Hin as [->|Hin].
  - rewrite Hx. f_equal.
    destruct (filter test l) as [|y r] eqn:Hf; [reflexivity|exfalso].
    assert (In y (filter test l)) as Hy by (rewrite Hf; now left).
    apply filter_In in Hy. destruct Hy as [Hy Hty].
    apply Hnotin. rewrite <- (Hkey' y Hy Hty). now apply in_map.
  - destruct (test a) eqn:Ha; [exfalso|now apply IH].
    apply Hnotin. rewrite (Hkey a (or_introl eq_refl) Ha). now apply in_map.
Qed.




(* ------------------------------------------------------------------ *)
(** ** DiscoverFeed: the loaded feed and swiping through it *)
(* ------------------------------------------------------------------ *)


Lemma In_firstn :
  forall {A : Type} (n : nat) (l : list A) (x : A), In x (firstn n l) -> In x l.
Proof.
  intros A n l x H. rewrite <- (firstn_skipn n l). apply in_or_app. now left.
Qed.

Lemma NoDup_map_filter :
  forall {A K : Type} (key : A -> K) (f : A -> bool) (l : list A),
    NoDup (map key l) -> NoDup (map key (filter f l)).
Proof.
  intros A K key f l. induction l as [|x l IH]; intros H; simpl; [constructor|].
  inversion H as [|k ks Hnotin Hnd]; subst.
  destruct (f x); [|now apply IH]. simpl. constructor; [|now apply IH].
  intros Hin. apply Hnotin. apply in_map_iff in Hin. destruct Hin as [y [Hy Hin]].
  apply filter_In in Hin. rewrite <- Hy. apply in_map. tauto.
Qed.

Lemma NoDup_firstn :
  forall {A : Type} (n : nat) (l : list A), NoDup l -> NoDup (firstn n l).
Proof.
  intros A n. induction n as [|n IH]; intros [|x l] H; simpl; try constructor.
  - inversion H; subst. intros Hin. apply In_firstn in Hin. contradiction.
  - inversion H; subst. now apply IH.
Qed.



Lemma includes_votedIds :
  forall u pid db, Feed.includes (Feed.votedIds u db) pid = has_vote pid u db.
Proof.
  intros u pid db. unfold Feed.includes, Feed.votedIds, has_vote.
  induction (votes db) as [|v l IH]; [reflexivity|]. cbn [filter existsb].
  unfold vote_is at 1.
  destruct (String.eqb (Votes.user_id v) u); cbn [map existsb].
  - rewrite IH. now rewrite andb_true_r.
  - rewrite IH. now rewrite andb_false_r.
Qed.

Lemma by_created_at_sorted :
  forall l, StronglySorted Feed.newest_first (array_sort Feed.by_created_at l).
Proof.
  induction l as [|x l IH]; simpl; [constructor|].
  revert IH. generalize (array_sort Feed.by_created_at l). clear l.
  intros l. induction l as [|y l IH]; intros Hs; simpl.
  - repeat constructor.
  - inversion Hs as [|y' l' Hl Hy]; subst.
    destruct (Feed.by_created_at x y <=? 0)%Z eqn:E.
    + apply Z.leb_le in E. constructor; [exact Hs|]. constructor.
      * unfold Feed.newest_first, Feed.by_created_at in *. lia.
      * rewrite Forall_forall in *. intros z Hz. specialize (Hy z Hz).
        unfold Feed.newest_first, Feed.by_created_at in *. lia.
    + apply Z.leb_gt in E. constructor; [now apply IH|].
      rewrite Forall_forall in *. intros z Hz.
      apply (Permutation_in _ (sort_insert_perm Feed.by_created_at x l)) in Hz.
      destruct Hz as [<-|Hz]; [|now apply Hy].
      unfold Feed.newest_first, Feed.by_created_at in *. lia.
Qed.

Lemma query_is_answer :
  forall u db, Feed.query_answer u db (Feed.query u db).
Proof.
  intros u db. exists (array_sort Feed.by_created_at (filter (Feed.candidate u) (pitches db))).
  split; [apply array_sort_perm|]. split; [apply by_created_at_sorted|reflexivity].
Qed.

Lemma answer_rows :
  forall u db rows,
    Feed.query_answer u db rows ->
    forall p, In p rows -> In p (pitches db) /\ Feed.candidate u p = true.
Proof.
  intros u db rows [ordered [Hperm [_ ->]]] p Hp. apply In_firstn in Hp.
  apply (Permutation_in _ Hperm) in Hp. now apply filter_In in Hp.
Qed.




Lemma swipes_past_the_end :
  forall u feed choices i db,
    List.length feed <= i ->
    Feed.swipes u feed i choices db = (i, db).
Proof.
  intros u feed choices. induction choices as [|vt rest IH]; intros i db Hi; [reflexivity|].
  cbn [Feed.swipes]. unfold Feed.next_index, DiscoverFeed.handleVote.
  rewrite (proj2 (Nat.leb_le _ _) Hi). cbn [orb]. now apply IH.
Qed.

Lemma has_vote_add :
  forall pid u v db,
    has_vote pid u (add_vote v db) = has_vote pid u db || vote_is pid u v.
Proof.
  intros pid u v db. unfold has_vote, add_vote. cbn [votes].
  rewrite existsb_app. cbn [existsb]. now rewrite orb_false_r.
Qed.

Lemma swipes_on_unvoted :
  forall u choices shown rest db,
    NoDup (map Pitches.id (shown ++ rest)) ->
    (forall p, In p rest ->
       owns u (Pitches.id p) db = false
       /\ has_vote (Pitches.id p) u db = false
       /\ has_pitch (Pitches.id p) db = true) ->
    Feed.swipes u (shown ++ rest) (List.length shown) choices db
    = (List.length shown + Nat.min (List.length rest) (List.length choices),
       {| pitches := pitches db;
          ai_feedback := ai_feedback db;
          votes :=
            votes db
            ++ map (fun c => {| Votes.pitch_id := Pitches.id (fst c);
                                Votes.user_id := u;
                                Votes.vote_type := snd c |})
                 (combine rest choices) |}).
Proof.
  intros u choices. induction choices as [|vt choices IH]; intros shown rest db Hnd Hrest.
  - cbn [Feed.swipes]. rewrite Nat.min_0_r, Nat.add_0_r.
    replace (combine rest []) with (@nil (Pitches.row * vote_type_t)) by now destruct rest.
    cbn [map]. rewrite app_nil_r. now destruct db.
  - destruct rest as [|p rest].
    + rewrite swipes_past_the_end by (rewrite app_nil_r; lia).
      cbn [List.length Nat.min combine map]. rewrite Nat.add_0_r, app_nil_r. now destruct db.
    + cbn [Feed.swipes]. unfold Feed.next_index, DiscoverFeed.handleVote.
      assert ((List.length (shown ++ p :: rest) <=? List.length shown) = false) as ->.
      { apply Nat.leb_gt. rewrite length_app. simpl. lia. }
      cbn [orb].
      assert (nth_error (shown ++ p :: rest) (List.length shown) = Some p) as ->.
      { rewrite nth_error_app2 by lia. now rewrite Nat.sub_diag. }
      destruct (Hrest p (or_introl eq_refl)) as [Hown [Hvote Hpitch]].
      set (v := {| Votes.pitch_id := Pitches.id p; Votes.user_id := u; Votes.vote_type := vt |}).
      assert (insert_vote u v db = (None, add_vote v db)) as ->.
      { unfold insert_vote, v. cbn [Votes.pitch_id Votes.user_id].
        rewrite String.eqb_refl, Hown, Hvote, Hpitch. reflexivity. }
      cbn [fst snd].
      replace (shown ++ p :: rest) with ((shown ++ [p]) ++ rest) in *
        by (rewrite <- app_assoc; reflexivity).
      replace (List.length shown + 1) with (List.length (shown ++ [p]))
        by (rewrite length_app; reflexivity).
      rewrite IH.
      * rewrite length_app. cbn [List.length Nat.min combine map fst snd add_vote
          pitches ai_feedback votes]. rewrite <- app_assoc. cbn [app].
        f_equal. lia.
      * exact Hnd.
      * intros q Hq. destruct (Hrest q (or_intror Hq)) as [Ho [Hv Hp]].
        split; [exact Ho|]. split; [|exact Hp].
        rewrite has_vote_add, Hv. cbn [orb]. unfold vote_is, v.
        cbn [Votes.pitch_id Votes.user_id].
        destruct (String.eqb (Pitches.id p) (Pitches.id q)) eqn:E; [|reflexivity].
        exfalso. apply String.eqb_eq in E.
        rewrite <- app_assoc, map_app in Hnd. apply NoDup_app_remove_l in Hnd.
        cbn [app map] in Hnd. inversion Hnd as [|k ks Hnotin _]; subst.
        apply Hnotin. rewrite E. now apply in_map.
Qed.

(** X14.  Swiping through a freshly loaded feed.  With the feed
    [loadPitches] has just built from a store the code can produce, and no
    other change to the store in between, every swipe is accepted: after
    one swipe per entry of [choices] the store holds, behind the votes it
    had, one vote of the user for each card swiped, in feed order and of
    the chosen type, pitches and feedback are untouched, and the view shows
    the card after the last one voted on. *)
Theorem X14_swipes_on_a_fresh_feed_are_stored :
  forall db u rows old choices,
    reachable db ->
    Feed.query_answer u db rows ->
    let feed := map Feed.pitchData (Feed.loadPitches (Some u) rows db old) in
    Feed.swipes u feed 0 choices db
    = (Nat.min (List.length feed) (List.length choices),
       {| pitches := pitches db;
          ai_feedback := ai_feedback db;
          votes :=
            votes db
            ++ map (fun c => {| Votes.pitch_id := Pitches.id (fst c);
                                Votes.user_id := u;
                                Votes.vote_type := snd c |})
                 (combine feed choices) |}).
Proof.
  intros db u rows old choices Hr Hq feed.
  pose proof (reachable_unique_ids db Hr) as Hids.
  pose proof (answer_rows u db rows Hq) as Hrows.
  assert (feed = filter (fun p => negb (Feed.includes (Feed.votedIds u db) (Pitches.id p))) rows)
    as Hfeed.
  { unfold feed, Feed.loadPitches. cbv zeta. rewrite map_map.
    cbn [Feed.with_data Feed.pitchData]. apply map_id. }
  assert (NoDup (map Pitches.id feed)) as Hnd.
  { rewrite Hfeed. apply NoDup_map_filter.
    destruct Hq as [ordered [Hperm [_ ->]]]. rewrite <- firstn_map. apply NoDup_firstn.
    apply (Permutation_NoDup (l := map Pitches.id (filter (Feed.candidate u) (pitches db)))).
    - apply Permutation_map. now apply Permutation_sym.
    - now apply NoDup_map_filter. }
  apply (swipes_on_unvoted u choices [] feed db Hnd).
  intros p Hp. rewrite Hfeed in Hp. apply filter_In in Hp. destruct Hp as [Hp Hun].
  destruct (Hrows p Hp) as [Hin Hc]. unfold Feed.candidate in Hc.
  apply andb_prop in Hc. destruct Hc as [_ Huser]. split; [|split].
  - destruct (owns u (Pitches.id p) db) eqn:Ho; [exfalso|reflexivity].
    unfold owns in Ho. apply existsb_exists in Ho. destruct Ho as [q [Hq' Hc]].
    apply andb_prop in Hc. destruct Hc as [Hid Hu]. apply String.eqb_eq in Hid.
    assert (filter (fun x => String.eqb (Pitches.id x) (Pitches.id p)) (pitches db) = [p]) as H1.
    { apply (single_of_unique Pitches.id); [exact Hids|exact Hin|apply String.eqb_refl|].
      intros y _ Hy. now apply String.eqb_eq in Hy. }
    assert (In q (filter (fun x => String.eqb (Pitches.id x) (Pitches.id p)) (pitches db)))
      as H2 by (apply filter_In; split; [exact Hq'|now apply String.eqb_eq]).
    rewrite H1 in H2. destruct H2 as [<-|[]]. rewrite Hu in Huser. discriminate.
  - rewrite includes_votedIds in Hun. now destruct (has_vote (Pitches.id p) u db).
  - apply has_pitch_ids. now apply in_map.
Qed.

Lemma X14_witness :
  votes (snd (Feed.swipes "u2"
                (map Feed.pitchData
                   (Feed.loadPitches (Some "u2") (Feed.query "u2" Scenario.after_submit)
                      Scenario.after_submit []))
                0 [needs_work] Scenario.after_submit))
  = [ {| Votes.pitch_id := "p1"; Votes.user_id := "u2"; Votes.vote_type := needs_work |} ].
Proof.
  assert (reachable Scenario.after_submit) as Hr
    by (exists Scenario.submit_offline; reflexivity).
  exact (f_equal (fun r => votes (snd r))
           (X14_swipes_on_a_fresh_feed_are_stored Scenario.after_submit "u2"
              (Feed.query "u2" Scenario.after_submit) [] [needs_work] Hr
              (query_is_answer "u2" Scenario.after_submit))).
Defined.

(* ------------------------------------------------------------------ *)
(** ** PitchSubmissionForm: a whole session *)
(* ------------------------------------------------------------------ *)

Lemma isStepValid_valid_at :
  forall s,
    SubmissionForm.isStepValid s
    = PitchSubmissionForm.valid_at (SubmissionForm.step s) (SubmissionForm.formData s).
Proof. intros s. reflexivity. Qed.

Lemma change_keeps_form_inv :
  forall value s,
    form_inv s -> form_inv (snd (PitchSubmissionForm.handle (PitchSubmissionForm.Change value) s)).
Proof.
  intros value [st ld dr fd] [Hb H]. cbn [SubmissionForm.step SubmissionForm.formData] in *.
  unfold form_inv. cbn [PitchSubmissionForm.handle SubmissionForm.step].
  destruct st as [|[|[|[|[|[|n]]]]]]; try lia;
    cbn [PitchSubmissionForm.shown snd PitchSubmissionForm.updateField
         SubmissionForm.step SubmissionForm.formData];
    (split; [lia|]); intros k Hk1 Hk2;
    destruct k as [|[|[|[|[|k]]]]]; try lia;
    exact (H _ Hk1 Hk2).
Qed.

Lemma handle_keeps_form_inv :
  forall e s,
    form_inv s ->
    form_inv (snd (PitchSubmissionForm.handle e s))
    /\ submits_complete (fst (PitchSubmissionForm.handle e s)).
Proof.
  intros e s Hinv. destruct e as [value| | |id|].
  - split; [now apply change_keeps_form_inv|].
    intros cur data Hin. cbn [PitchSubmissionForm.handle] in Hin.
    destruct (PitchSubmissionForm.shown (SubmissionForm.step s)); destruct Hin.
  - destruct Hinv as [Hb H]. cbn [PitchSubmissionForm.handle].
    unfold SubmissionForm.click, SubmissionForm.button_disabled.
    destruct (SubmissionForm.isStepValid s) eqn:Ev; cbn [negb orb];
      [|split; [now split|intros cur data []]].
    destruct (SubmissionForm.loading s); [split; [now split|intros cur data []]|].
    rewrite isStepValid_valid_at in Ev.
    unfold SubmissionForm.handleNext, SubmissionForm.totalSteps.
    destruct (SubmissionForm.step s <? 5) eqn:El.
    + apply Nat.ltb_lt in El. split.
      * split; cbn [snd SubmissionForm.step SubmissionForm.formData]; [lia|].
        intros k Hk1 Hk2.
        destruct (Nat.eq_dec k (SubmissionForm.step s)) as [->|Hne]; [exact Ev|].
        apply H; lia.
      * intros cur data [Hin|[]]. discriminate.
    + apply Nat.ltb_ge in El. split.
      * split; cbn [snd SubmissionForm.step SubmissionForm.formData]; [lia|exact H].
      * intros cur data [Hin|[Hin|[]]]; [discriminate|]. injection Hin as _ <-.
        intros k Hk. destruct (Nat.eq_dec k (SubmissionForm.step s)) as [->|Hne]; [exact Ev|].
        apply H; lia.
  - destruct Hinv as [Hb H]. cbn [PitchSubmissionForm.handle].
    destruct (SubmissionForm.step s =? 1) eqn:E1; [split; [now split|intros cur data []]|].
    apply Nat.eqb_neq in E1. unfold PitchSubmissionForm.handleBack.
    assert ((1 <? SubmissionForm.step s) = true) as -> by (apply Nat.ltb_lt; lia).
    split.
    + split; cbn [snd SubmissionForm.step SubmissionForm.formData]; [lia|].
      intros k Hk1 Hk2. apply H; lia.
    + intros cur data [Hin|[]]. discriminate.
  - split; [exact Hinv|intros cur data []].
  - split; [exact Hinv|intros cur data []].
Qed.

Lemma session_keeps_form_inv :
  forall events s,
    form_inv s ->
    form_inv (snd (PitchSubmissionForm.session events s))
    /\ submits_complete (fst (PitchSubmissionForm.session events s)).
Proof.
  induction events as [|e events IH]; intros s Hinv.
  - split; [exact Hinv|intros cur data []].
  - cbn [PitchSubmissionForm.session].
    destruct (handle_keeps_form_inv e s Hinv) as [H1 H2].
    destruct (PitchSubmissionForm.handle e s) as [started s1].
    destruct (IH s1 H1) as [H3 H4].
    destruct (PitchSubmissionForm.session events s1) as [later s2].
    split; [exact H3|]. intros cur data Hin k Hk.
    apply in_app_or in Hin. destruct Hin as [Hin|Hin]; [now apply (H2 cur data)|now apply (H4 cur data)].
Qed.

(** X15.  Whatever the user does with a form that starts at its first
    step (typing into the input shown, Continue, Back, in any order, with
    the completions of [saveDraft] and [handleSubmit] in between): the form
    stays on one of its five steps, and every call of [handleSubmit] carries
    form data that passes the check of all five steps, so no submitted
    pitch has a blank title, audience, pain point or description, or a
    pitch text outside the word limits. *)
Theorem X15_only_complete_pitches_are_submitted :
  forall s events,
    SubmissionForm.step s = 1 ->
    1 <= SubmissionForm.step (snd (PitchSubmissionForm.session events s)) <= 5
    /\ forall cur data,
         In (SubmissionForm.call_handleSubmit cur data)
            (fst (PitchSubmissionForm.session events s)) ->
         forall k, 1 <= k <= 5 -> PitchSubmissionForm.valid_at k data = true.
Proof.
  intros s events Hs.
  assert (form_inv s) as Hinv by (split; [lia|intros k Hk1 Hk2; lia]).
  destruct (session_keeps_form_inv events s Hinv) as [[Hb _] Hsub].
  split; [exact Hb|exact Hsub].
Qed.

Lemma X15_witness :
  In (SubmissionForm.call_handleSubmit None
        (SubmissionForm.formData (Scenario.form_with_words 250)))
     (fst (PitchSubmissionForm.session (whole_session 250) PitchSubmissionForm.mounted))
  /\ PitchSubmissionForm.valid_at 5
       (SubmissionForm.formData (Scenario.form_with_words 250)) = true.
Proof.
  assert (In (SubmissionForm.call_handleSubmit None
                (SubmissionForm.formData (Scenario.form_with_words 250)))
             (fst (PitchSubmissionForm.session (whole_session 250)
                     PitchSubmissionForm.mounted))) as Hin.
  { vm_compute. repeat (first [left; reflexivity|right]). }
  split; [exact Hin|].
  exact (proj2 (X15_only_complete_pitches_are_submitted PitchSubmissionForm.mounted
                  (whole_session 250) eq_refl)
           None (SubmissionForm.formData (Scenario.form_with_words 250)) Hin
           5 (conj (proj1 (Nat.leb_le 1 5) eq_refl) (le_n 5))).
Defined.

(* ------------------------------------------------------------------ *)
(** ** Row level security: a user changes only rows of their own *)
(* ------------------------------------------------------------------ *)

Lemma filter_map_unselected :
  forall {A : Type} (keep cond : A -> bool) (set : A -> A) (l : list A),
    (forall x, cond x = true -> keep x = false /\ keep (set x) = false) ->
    filter keep (map (fun x => if cond x then set x else x) l) = filter keep l.
Proof.
  intros A keep cond set l H. induction l as [|x l IH]; [reflexivity|].
  cbn [map filter]. destruct (cond x) eqn:E.
  - destruct (H x E) as [-> ->]. exact IH.
  - now rewrite IH.
Qed.

Lemma update_pitch_others :
  forall u d data st db,
    filter (pitch_of_other u) (pitches (update_pitch u d data st db))
    = filter (pitch_of_other u) (pitches db)
    /\ votes (update_pitch u d data st db) = votes db
    /\ ai_feedback (update_pitch u d data st db) = ai_feedback db.
Proof.
  intros u d data st db. split; [|split; reflexivity].
  unfold update_pitch, update_pitches. cbn [pitches].
  apply filter_map_unselected. intros p Hc. apply andb_prop in Hc. destruct Hc as [_ Hu].
  unfold pitch_of_other. cbn [set_content Pitches.user_id]. now rewrite Hu.
Qed.

Lemma insert_pitch_others :
  forall u nid c data st db,
    filter (pitch_of_other u) (pitches (snd (insert_pitch u nid c u data st db)))
    = filter (pitch_of_other u) (pitches db)
    /\ votes (snd (insert_pitch u nid c u data st db)) = votes db
    /\ ai_feedback (snd (insert_pitch u nid c u data st db)) = ai_feedback db.
Proof.
  intros u nid c data st db. unfold insert_pitch.
  destruct (negb (String.eqb u u)); [repeat split|].
  destruct (has_pitch nid db); [repeat split|]. cbn [snd pitches votes ai_feedback].
  split; [|split; reflexivity]. rewrite filter_app. cbn [filter].
  unfold pitch_of_other at 2. cbn [Pitches.user_id]. rewrite String.eqb_refl. cbn [negb].
  apply app_nil_r.
Qed.

Lemma insert_vote_others :
  forall u pid vt db,
    let v := {| Votes.pitch_id := pid; Votes.user_id := u; Votes.vote_type := vt |} in
    pitches (snd (insert_vote u v db)) = pitches db
    /\ filter (vote_of_other u) (votes (snd (insert_vote u v db)))
       = filter (vote_of_other u) (votes db)
    /\ ai_feedback (snd (insert_vote u v db)) = ai_feedback db.
Proof.
  intros u pid vt db v.
  destruct (insert_vote_cases u v db) as [[e ->]|[-> _]]; [repeat split|].
  unfold add_vote. cbn [snd pitches votes ai_feedback]. split; [reflexivity|].
  split; [|reflexivity]. rewrite filter_app. cbn [filter].
  unfold vote_of_other at 2, v. cbn [Votes.user_id]. rewrite String.eqb_refl. cbn [negb].
  apply app_nil_r.
Qed.

Lemma update_vote_others :
  forall u pid vt db,
    filter (vote_of_other u) (votes (update_vote u pid u vt db))
    = filter (vote_of_other u) (votes db).
Proof.
  intros u pid vt db. unfold update_vote. cbn [votes].
  apply filter_map_unselected. intros v Hc. apply andb_prop in Hc. destruct Hc as [_ Hu].
  unfold vote_of_other. cbn [Votes.user_id]. now rewrite Hu.
Qed.

(** X16.  A statement sent with the session of a user never touches a row
    of anybody else: after a draft save, a publish or a vote by [u], the
    pitches of the other users and the votes of the other users are the
    rows they were, in the same order, and the feedback table is as it
    was. *)
Theorem X16_a_user_changes_only_own_rows :
  forall a db u,
    signed_in_as u a ->
    filter (pitch_of_other u) (pitches (step a db)) = filter (pitch_of_other u) (pitches db)
    /\ filter (vote_of_other u) (votes (step a db)) = filter (vote_of_other u) (votes db)
    /\ ai_feedback (step a db) = ai_feedback db.
Proof.
  intros a db u Hu.
  destruct a as [uid nid c cur data|uid nid c cur data|w req|user pitch voting pid vt
                |user feed i voting vt|]; cbn [signed_in_as] in Hu; try contradiction;
    subst; cbn [step].
  - unfold SubmissionForm.saveDraft. destruct cur as [d|].
    + destruct (update_pitch_others u d data draft db) as [H1 [H2 H3]].
      now rewrite H1, H2, H3.
    + destruct (insert_pitch_others u nid c data draft db) as [H1 [H2 H3]].
      now rewrite H1, H2, H3.
  - unfold SubmissionForm.publish. destruct cur as [d|].
    + cbn [snd]. destruct (update_pitch_others u d data published db) as [H1 [H2 H3]].
      now rewrite H1, H2, H3.
    + destruct (insert_pitch_others u nid c data published db) as [H1 [H2 H3]].
      destruct (insert_pitch u nid c u data published db) as [[e|] db1];
        cbn [snd] in *; now rewrite H1, H2, H3.
  - unfold PitchDetailView.handleVote. destruct pitch as [p|]; [|repeat split].
    destruct (String.eqb (Pitches.user_id (PitchDetailView.pitchData p)) u || voting);
      [repeat split|].
    destruct (PitchDetailView.user_vote p).
    + split; [reflexivity|]. split; [apply update_vote_others|reflexivity].
    + destruct (insert_vote_others u pid vt db) as [H1 [H2 H3]]. cbv zeta in *.
      now rewrite H1, H2, H3.
  - unfold DiscoverFeed.handleVote.
    destruct ((List.length feed <=? i) || voting); [repeat split|].
    destruct (nth_error feed i) as [p|]; [|repeat split].
    destruct (insert_vote_others u (Pitches.id p) vt db) as [H1 [H2 H3]]. cbv zeta in *.
    now rewrite H1, H2, H3.
Qed.

Lemma X16_witness :
  filter (pitch_of_other "u2") (pitches Scenario.after_swipe)
  = filter (pitch_of_other "u2") (pitches Scenario.after_submit).
Proof.
  exact (proj1 (X16_a_user_changes_only_own_rows
                  (FeedVote (Some "u2") [ Sample.pitch1 completed ] 0 false interesting)
                  Scenario.after_submit "u2" eq_refl)).
Defined.

(* ------------------------------------------------------------------ *)
(** ** PitchSubmissionForm: the two calls of the last click *)
(* ------------------------------------------------------------------ *)




(* ------------------------------------------------------------------ *)
(** ** EntrepreneurDashboard: the figures against the store *)
(* ------------------------------------------------------------------ *)

Lemma reachable_feedback_rows : forall db, reachable db -> feedback_rows_ok db.
Proof.
  intros db [trace ->]. apply run_keeps; [exact step_keeps_feedback_rows|intros x []].
Qed.

Lemma count_votes_total :
  forall pid db,
    VoteCounts.interesting (count_votes pid db) + VoteCounts.needs_work (count_votes pid db)
    = List.length (filter (fun v => String.eqb (Votes.pitch_id v) pid) (votes db)).
Proof.
  intros pid db. unfold count_votes. cbn [VoteCounts.interesting VoteCounts.needs_work].
  induction (filter (fun v => String.eqb (Votes.pitch_id v) pid) (votes db)) as [|v l IH];
    [reflexivity|].
  cbn [filter]. destruct (Votes.vote_type v); cbn [vote_type_eqb List.length]; lia.
Qed.

Lemma fold_left_sum :
  forall {A : Type} (f : A -> nat) (l : list A) (a : nat),
    fold_left (fun sum x => sum + f x) l a = a + list_sum (map f l).
Proof.
  intros A f l. induction l as [|x l IH]; intros a; simpl; [lia|].
  rewrite IH. lia.
Qed.

Lemma filter_either :
  forall {A : Type} (f g : A -> bool) (l : list A),
    (forall x, f x = true -> g x = false) ->
    List.length (filter (fun x => f x || g x) l)
    = List.length (filter f l) + List.length (filter g l).
Proof.
  intros A f g l H. induction l as [|x l IH]; [reflexivity|]. cbn [filter].
  destruct (f x) eqn:Ef; cbn [orb].
  - rewrite (H x Ef). cbn [List.length]. lia.
  - destruct (g x); cbn [List.length]; lia.
Qed.

Lemma votes_of_unique_pitches :
  forall (rows : list Pitches.row) (vs : list Votes.row),
    NoDup (map Pitches.id rows) ->
    list_sum
      (map (fun p => List.length (filter (fun v => String.eqb (Votes.pitch_id v) (Pitches.id p)) vs))
         rows)
    = List.length
        (filter (fun v => existsb (fun p => String.eqb (Votes.pitch_id v) (Pitches.id p)) rows) vs).
Proof.
  intros rows vs. induction rows as [|p rows IH]; intros Hnd.
  - simpl. induction vs as [|v vs IHv]; [reflexivity|exact IHv].
  - inversion Hnd as [|k ks Hnotin Hnd']; subst. cbn [map existsb].
    change (list_sum ?l) with (fold_right Nat.add 0 l) in *. cbn [fold_right].
    rewrite (IH Hnd'). symmetry. apply filter_either.
    intros v Hv. apply String.eqb_eq in Hv.
    destruct (existsb _ rows) eqn:E; [exfalso|reflexivity].
    apply existsb_exists in E. destruct E as [q [Hq Hqv]]. apply String.eqb_eq in Hqv.
    apply Hnotin. rewrite <- Hv, Hqv. now apply in_map.
Qed.

Lemma filter_length_perm :
  forall {A : Type} (f : A -> bool) (l l' : list A),
    Permutation l l' -> List.length (filter f l) = List.length (filter f l').
Proof.
  intros A f l l' H. induction H as [|x l l' H IH|x y l|l l' l'' H1 IH1 H2 IH2];
    cbn [filter]; try reflexivity.
  - destruct (f x); cbn [List.length]; now rewrite IH.
  - destruct (f x); destruct (f y); reflexivity.
  - now rewrite IH1.
Qed.

Lemma score_sum_bounds :
  forall (l : list EntrepreneurDashboard.Pitch) (a : Z),
    (forall p, In p l -> (0 <= EntrepreneurDashboard.score_or_0 p <= 10)%Z) ->
    (a <= fold_left (fun sum p => (sum + EntrepreneurDashboard.score_or_0 p)%Z) l a
       <= a + 10 * Z.of_nat (List.length l))%Z.
Proof.
  induction l as [|p l IH]; intros a H; cbn [fold_left List.length]; [lia|].
  pose proof (H p (or_introl eq_refl)) as Hp.
  pose proof (IH (a + EntrepreneurDashboard.score_or_0 p)%Z
                (fun q Hq => H q (or_intror Hq))) as Hl.
  lia.
Qed.

(** X18.  The figures of the dashboard against a store the code can
    produce: "Total Pitches" is the number of the user's published
    pitches, "Total Votes" is the number of vote rows on pitches of the
    user, and the sum of scores behind "Avg AI Score" lies between 0 and 10
    times the number of pitches with feedback, so the average is at most
    10. *)
Theorem X18_dashboard_figures :
  forall db u rows,
    reachable db ->
    EntrepreneurDashboard.query_answer u db rows ->
    let pitchesWithData := EntrepreneurDashboard.loadPitches u rows db in
    EntrepreneurDashboard.totalPitches pitchesWithData
    = List.length
        (filter (fun p => pitch_status_eqb (Pitches.status p) published)
           (filter (fun p => String.eqb (Pitches.user_id p) u) (pitches db)))
    /\ EntrepreneurDashboard.totalVotes pitchesWithData
       = List.length (filter (on_pitch_of u db) (votes db))
    /\ (0 <= EntrepreneurDashboard.score_sum pitchesWithData
          <= 10 * Z.of_nat
                    (List.length (EntrepreneurDashboard.scoresWithFeedback pitchesWithData)))%Z.
Proof.
  intros db u rows Hr [Hperm _] ps.
  pose proof (reachable_unique_ids db Hr) as Hids.
  pose proof (reachable_feedback_rows db Hr) as Hrows.
  unfold ps, EntrepreneurDashboard.loadPitches. split; [|split].
  - unfold EntrepreneurDashboard.totalPitches.
    rewrite <- (filter_length_perm _ _ _ Hperm). clear Hperm.
    induction rows as [|p rows IH]; [reflexivity|]. cbn [map filter].
    cbn [EntrepreneurDashboard.with_data EntrepreneurDashboard.pitchData] in *.
    destruct (pitch_status_eqb (Pitches.status p) published); cbn [List.length];
      now rewrite IH.
  - unfold EntrepreneurDashboard.totalVotes.
    assert (forall (l : list EntrepreneurDashboard.Pitch) a,
              fold_left
                (fun sum p =>
                   sum + VoteCounts.interesting (EntrepreneurDashboard.vote_counts p)
                   + VoteCounts.needs_work (EntrepreneurDashboard.vote_counts p)) l a
              = fold_left
                  (fun sum p =>
                     sum + (VoteCounts.interesting (EntrepreneurDashboard.vote_counts p)
                            + VoteCounts.needs_work (EntrepreneurDashboard.vote_counts p)))
                  l a) as ->.
    { induction l as [|x l IH]; intros a; cbn [fold_left]; [reflexivity|].
      rewrite IH. f_equal. lia. }
    rewrite fold_left_sum, map_map. cbn [EntrepreneurDashboard.with_data
      EntrepreneurDashboard.vote_counts Nat.add].
    rewrite (map_ext _ (fun p => List.length
               (filter (fun v => String.eqb (Votes.pitch_id v) (Pitches.id p)) (votes db))))
      by (intros p; apply count_votes_total).
    rewrite votes_of_unique_pitches.
    + f_equal. apply filter_ext. intros v. unfold on_pitch_of, owns.
      apply eq_iff_eq_true. rewrite !existsb_exists. split.
      * intros [p [Hp Hv]]. apply (Permutation_in _ Hperm) in Hp.
        apply filter_In in Hp. destruct Hp as [Hp Hown]. exists p. split; [exact Hp|].
        apply String.eqb_eq in Hv. now rewrite Hv, String.eqb_refl, Hown.
      * intros [p [Hp Hc]]. apply andb_prop in Hc. destruct Hc as [Hid Hown].
        exists p. split.
        -- apply (Permutation_in _ (Permutation_sym Hperm)). apply filter_In. now split.
        -- apply String.eqb_eq in Hid. rewrite Hid. apply String.eqb_refl.
    + apply (Permutation_NoDup
               (l := map Pitches.id
                       (filter (fun p => String.eqb (Pitches.user_id p) u) (pitches db)))).
      * apply Permutation_map. now apply Permutation_sym.
      * now apply NoDup_map_filter.
  - unfold EntrepreneurDashboard.score_sum.
    apply (score_sum_bounds _ 0%Z). intros e He.
    unfold EntrepreneurDashboard.scoresWithFeedback in He. apply filter_In in He.
    destruct He as [He _]. apply in_map_iff in He. destruct He as [p [<- _]].
    unfold EntrepreneurDashboard.score_or_0.
    cbn [EntrepreneurDashboard.with_data EntrepreneurDashboard.ai_feedback].
    unfold select_feedback.
    destruct (filter _ (ai_feedback db)) as [|f [|g r]] eqn:Hf; cbn [maybeSingle option_map];
      try lia.
    assert (In f (ai_feedback db)) as Hin.
    { assert (In f (f :: nil)) as H0 by now left. rewrite <- Hf in H0.
      now apply filter_In in H0. }
    destruct (Hrows f Hin) as [Hscore _]. unfold score_in_range in Hscore.
    destruct (AiFeedback.overall_score f); lia.
Qed.

Lemma dashboard_query_is_answer :
  forall u db, EntrepreneurDashboard.query_answer u db (EntrepreneurDashboard.query u db).
Proof.
  intros u db. split; [apply array_sort_perm|apply by_created_at_sorted].
Qed.

Lemma X18_witness :
  EntrepreneurDashboard.totalVotes
    (EntrepreneurDashboard.loadPitches "u1"
       (EntrepreneurDashboard.query "u1" Scenario.after_swipe) Scenario.after_swipe)
  = 1.
Proof.
  assert (reachable Scenario.after_swipe) as Hr by (exists Scenario.swipe; reflexivity).
  exact (proj1 (proj2 (X18_dashboard_figures Scenario.after_swipe "u1"
                         (EntrepreneurDashboard.query "u1" Scenario.after_swipe) Hr
                         (dashboard_query_is_answer "u1" Scenario.after_swipe)))).
Defined.

(* ------------------------------------------------------------------ *)
(** ** Leaderboard: ties *)
(* ------------------------------------------------------------------ *)

Lemma sort_insert_stable :
  forall n x l,
    filter (has_votes n) (sort_insert Leaderboard.by_interesting x l)
    = filter (has_votes n) (x :: l).
Proof.
  intros n x l. induction l as [|y l IH]; [reflexivity|]. cbn [sort_insert].
  destruct (Leaderboard.by_interesting x y <=? 0)%Z eqn:E; [reflexivity|].
  apply Z.leb_gt in E. unfold Leaderboard.by_interesting in E.
  cbn [filter] in *. rewrite IH.
  destruct (has_votes n x) eqn:Ex; [|reflexivity].
  assert (has_votes n y = false) as ->; [|reflexivity].
  unfold has_votes, interesting_votes in *. apply Nat.eqb_eq in Ex. apply Nat.eqb_neq. lia.
Qed.

Lemma array_sort_stable :
  forall n l,
    filter (has_votes n) (array_sort Leaderboard.by_interesting l) = filter (has_votes n) l.
Proof.
  intros n l. induction l as [|x l IH]; [reflexivity|].
  cbn [array_sort fold_right]. rewrite sort_insert_stable. cbn [filter].
  fold (array_sort Leaderboard.by_interesting l). now rewrite IH.
Qed.

Lemma filter_firstn_prefix :
  forall {A : Type} (f : A -> bool) (n : nat) (l : list A),
    filter f (firstn n l)
    = firstn (List.length (filter f (firstn n l))) (filter f l).
Proof.
  intros A f n. induction n as [|n IH]; intros [|x l]; try reflexivity.
  cbn [firstn filter]. destruct (f x); cbn [List.length firstn]; [f_equal|]; apply IH.
Qed.

Lemma with_ranks_filter_ids :
  forall n l index,
    map Leaderboard.id (filter (has_votes n) (Leaderboard.with_ranks index l))
    = map Leaderboard.id (filter (has_votes n) l).
Proof.
  intros n l. induction l as [|e l IH]; intros index; [reflexivity|].
  cbn [Leaderboard.with_ranks filter].
  change (has_votes n {| Leaderboard.id := Leaderboard.id e;
                         Leaderboard.title := Leaderboard.title e;
                         Leaderboard.product_description := Leaderboard.product_description e;
                         Leaderboard.vote_counts := Leaderboard.vote_counts e;
                         Leaderboard.ai_score := Leaderboard.ai_score e;
                         Leaderboard.rank := index + 1 |})
    with (has_votes n e).
  destruct (has_votes n e); cbn [map Leaderboard.id]; now rewrite IH.
Qed.

Lemma with_ranks_firstn :
  forall k l index,
    firstn k (Leaderboard.with_ranks index l) = Leaderboard.with_ranks index (firstn k l).
Proof.
  induction k as [|k IH]; intros [|e l] index; try reflexivity.
  cbn [Leaderboard.with_ranks firstn]. now rewrite IH.
Qed.

(** Two answers of the same query over the same store, and the two boards
    they give. *)
Example leaderboard_ties_follow_the_answer :
  let first := [ Scenario.pitch_of "a" "u1" 100%Z; Scenario.pitch_of "b" "u2" 900%Z;
                 Scenario.pitch_of "c" "u3" 950%Z ] in
  let second := [ Scenario.pitch_of "c" "u3" 950%Z; Scenario.pitch_of "a" "u1" 100%Z;
                  Scenario.pitch_of "b" "u2" 900%Z ] in
  Leaderboard.query_answer Scenario.dates Leaderboard.all Scenario.quiet first
  /\ Leaderboard.query_answer Scenario.dates Leaderboard.all Scenario.quiet second
  /\ map Leaderboard.id (Leaderboard.loadLeaderboard first Scenario.quiet) = [ "a"; "b"; "c" ]
  /\ map Leaderboard.id (Leaderboard.loadLeaderboard second Scenario.quiet) = [ "c"; "a"; "b" ].
Proof.
  cbv zeta. split; [apply Permutation_refl|]. split; [|split; reflexivity].
  unfold Leaderboard.query_answer.
  change (filter (Leaderboard.passes Scenario.dates Leaderboard.all)
            (pitches Scenario.quiet))
    with [ Scenario.pitch_of "a" "u1" 100%Z; Scenario.pitch_of "b" "u2" 900%Z;
           Scenario.pitch_of "c" "u3" 950%Z ].
  apply (Permutation_cons_app [ Scenario.pitch_of "a" "u1" 100%Z;
                                Scenario.pitch_of "b" "u2" 900%Z ] []).
  apply Permutation_refl.
Qed.

(** X19.  Ties on the leaderboard.  The sort is stable and the board is cut
    after it: for every number n, the entries of the board with n
    interesting votes are, in the board's order, the first pitches with n
    interesting votes of the query's answer, in the answer's order.  Among
    tied pitches the ones the query returned earlier get the better ranks
    and the places in the top 20. *)
Theorem X19_leaderboard_ties_keep_query_order :
  forall (pitchData : list Pitches.row) (db : database) (n : nat),
    let tied :=
      filter (fun p => VoteCounts.interesting (count_votes (Pitches.id p) db) =? n)
        pitchData in
    let on_board := filter (has_votes n) (Leaderboard.loadLeaderboard pitchData db) in
    map Leaderboard.id on_board = firstn (List.length on_board) (map Pitches.id tied).
Proof.
  intros pitchData db n tied on_board.
  set (sorted := array_sort Leaderboard.by_interesting
                   (map (Leaderboard.with_data db) pitchData)).
  assert (map Leaderboard.id on_board
          = map Leaderboard.id (filter (has_votes n) (firstn 20 sorted))) as Hboard.
  { unfold on_board, Leaderboard.loadLeaderboard. cbv zeta. fold sorted.
    rewrite with_ranks_firstn. apply with_ranks_filter_ids. }
  assert (List.length on_board = List.length (filter (has_votes n) (firstn 20 sorted)))
    as Hlen by (rewrite <- (length_map Leaderboard.id), Hboard; apply length_map).
  assert (map Leaderboard.id (filter (has_votes n) sorted) = map Pitches.id tied) as Htied.
  { unfold sorted. rewrite array_sort_stable. unfold tied. clear.
    induction pitchData as [|p l IH]; [reflexivity|]. cbn [map filter].
    change (has_votes n (Leaderboard.with_data db p))
      with (VoteCounts.interesting (count_votes (Pitches.id p) db) =? n).
    destruct (VoteCounts.interesting (count_votes (Pitches.id p) db) =? n);
      cbn [map]; now rewrite IH. }
  rewrite Hboard, Hlen. clear Hboard Hlen.
  set (kept := filter (has_votes n) (firstn 20 sorted)).
  assert (kept = firstn (List.length kept) (filter (has_votes n) sorted)) as Hkept
    by apply filter_firstn_prefix.
  rewrite Hkept at 1. now rewrite <- firstn_map, Htied.
Qed.

(* ------------------------------------------------------------------ *)
(** ** PitchSubmissionForm: counting the words of a text *)
(* ------------------------------------------------------------------ *)

Section WordCount.
Import SubmissionForm.

Lemma drop_ws_lead :
  forall lead t,
    blank lead -> (t = [] \/ starts_nonws t) -> drop_ws (lead ++ t) = t.
Proof.
  intros lead t Hlead Ht. induction Hlead as [|c lead Hc _ IH]; cbn [app drop_ws].
  - destruct Ht as [->|Ht]; [reflexivity|]. destruct t as [|c t]; [destruct Ht|].
    cbn [drop_ws]. simpl in Ht. now rewrite Ht.
  - now rewrite Hc.
Qed.

Lemma split_ws_word :
  forall w, Forall (fun c => is_ws c = false) w -> split_ws w = [w].
Proof.
  intros w H. induction H as [|c w Hc _ IH]; [reflexivity|].
  cbn [split_ws]. now rewrite Hc, IH.
Qed.

Lemma split_ws_gap :
  forall g r, gap g -> starts_nonws r -> split_ws (g ++ r) = [] :: split_ws r.
Proof.
  intros g r [Hne Hg] Hr. induction Hg as [|c g Hc Hg IH]; [now elim Hne|].
  destruct r as [|c' r]; [destruct Hr|]. simpl in Hr.
  destruct g as [|c2 g].
  - cbn [app]. change (split_ws (c :: c' :: r))
      with (if is_ws c then (if is_ws c' then split_ws (c' :: r) else [] :: split_ws (c' :: r))
            else match split_ws (c' :: r) with
                 | piece :: pieces => (c :: piece) :: pieces
                 | [] => [[c]]
                 end).
    now rewrite Hc, Hr.
  - cbn [app]. change (split_ws (c :: c2 :: g ++ c' :: r))
      with (if is_ws c
            then (if is_ws c2 then split_ws (c2 :: g ++ c' :: r)
                  else [] :: split_ws (c2 :: g ++ c' :: r))
            else match split_ws (c2 :: g ++ c' :: r) with
                 | piece :: pieces => (c :: piece) :: pieces
                 | [] => [[c]]
                 end).
    rewrite Hc. inversion Hg as [|x y Hc2 Hg']; subst. rewrite Hc2.
    apply IH. discriminate.
Qed.

Lemma split_ws_word_gap :
  forall w g r,
    Forall (fun c => is_ws c = false) w -> gap g -> starts_nonws r ->
    split_ws (w ++ g ++ r) = w :: split_ws r.
Proof.
  intros w g r Hw Hg Hr. induction Hw as [|c w Hc _ IH]; cbn [app].
  - now apply split_ws_gap.
  - cbn [split_ws]. rewrite Hc.
    change ((fix split_ws (s : list ascii) : list (list ascii) :=
               match s with
               | [] => [[]]
               | c0 :: rest =>
                   if is_ws c0
                   then match rest with
                        | [] => [] :: split_ws rest
                        | c' :: _ => if is_ws c' then split_ws rest else [] :: split_ws rest
                        end
                   else match split_ws rest with
                        | [] => [[c0]]
                        | piece :: pieces => (c0 :: piece) :: pieces
                        end
               end) (w ++ g ++ r)) with (split_ws (w ++ g ++ r)).
    now rewrite IH.
Qed.

Lemma words_start :
  forall w t, word w -> starts_nonws (w ++ t).
Proof.
  intros w t [Hne Hw]. destruct Hw as [|c w Hc _]; [now elim Hne|exact Hc].
Qed.

Lemma split_ws_words :
  forall rest w,
    word w ->
    Forall (fun gw => gap (fst gw) /\ word (snd gw)) rest ->
    split_ws (w ++ flat_map (fun gw => fst gw ++ snd gw) rest) = w :: map snd rest.
Proof.
  induction rest as [|[g x] rest IH]; intros w Hw Hrest.
  - cbn [flat_map map]. rewrite app_nil_r. apply split_ws_word. exact (proj2 Hw).
  - inversion Hrest as [|y l [Hg Hx] Hrest']; subst. cbn [fst snd] in *.
    cbn [flat_map map fst snd]. rewrite <- app_assoc.
    rewrite split_ws_word_gap; [|exact (proj2 Hw)|exact Hg|now apply words_start].
    now rewrite IH.
Qed.

Lemma words_end :
  forall rest w,
    word w ->
    Forall (fun gw => gap (fst gw) /\ word (snd gw)) rest ->
    exists body c,
      w ++ flat_map (fun gw => fst gw ++ snd gw) rest = body ++ [c] /\ is_ws c = false.
Proof.
  induction rest as [|[g x] rest IH]; intros w Hw Hrest.
  - cbn [flat_map]. rewrite app_nil_r. destruct Hw as [Hne Hw].
    destruct (exists_last Hne) as [body [c ->]]. exists body, c. split; [reflexivity|].
    rewrite Forall_forall in Hw. apply Hw. apply in_or_app. right. now left.
  - inversion Hrest as [|y l [Hg Hx] Hrest']; subst. cbn [fst snd] in *.
    destruct (IH x Hx Hrest') as [body [c [Hbody Hc]]].
    exists (w ++ g ++ body), c. split; [|exact Hc].
    cbn [flat_map fst snd]. rewrite <- !app_assoc. now rewrite Hbody.
Qed.

Lemma trim_of_words :
  forall lead w rest trail,
    blank lead -> word w ->
    Forall (fun gw => gap (fst gw) /\ word (snd gw)) rest ->
    blank trail ->
    trim (text_of_words lead w rest trail)
    = w ++ flat_map (fun gw => fst gw ++ snd gw) rest.
Proof.
  intros lead w rest trail Hlead Hw Hrest Htrail. unfold trim, text_of_words.
  destruct (words_end rest w Hw Hrest) as [body [c [Hbody Hc]]].
  rewrite (drop_ws_lead lead _ Hlead).
  - rewrite rev_app_distr. rewrite (drop_ws_lead (rev trail)).
    + apply rev_involutive.
    + unfold blank in *. rewrite Forall_forall in *. intros x Hx. apply Htrail.
      now apply in_rev.
    + right. rewrite Hbody, rev_app_distr. exact Hc.
  - right. rewrite <- app_assoc. now apply words_start.
Qed.

End WordCount.

(** X20.  Counting words.  For a pitch text made of n words (runs of
    characters that are not white space) with any white space between
    them, before the first and after the last, [getWordCount] is n, and
    the check of the last step passes exactly when n is between 250 and
    500. *)
Theorem X20_word_count_of_a_text :
  forall s lead w rest trail,
    SubmissionForm.step s = 5 ->
    elevator_pitch (SubmissionForm.formData s)
    = string_of_list_ascii (text_of_words lead w rest trail) ->
    blank lead -> word w ->
    Forall (fun gw => gap (fst gw) /\ word (snd gw)) rest ->
    blank trail ->
    SubmissionForm.getWordCount s = S (List.length rest)
    /\ (SubmissionForm.isStepValid s = true <-> 250 <= S (List.length rest) <= 500).
Proof.
  intros s lead w rest trail Hstep Htext Hlead Hw Hrest Htrail.
  pose proof (trim_of_words lead w rest trail Hlead Hw Hrest Htrail) as Htrim.
  pose proof (split_ws_words rest w Hw Hrest) as Hsplit.
  unfold SubmissionForm.getWordCount, SubmissionForm.isStepValid.
  rewrite Hstep, Htext.
  rewrite list_ascii_of_string_of_list_ascii, Htrim, Hsplit. split.
  - rewrite filter_all; [cbn [List.length]; now rewrite length_map|].
    constructor.
    + destruct Hw as [Hne _]. destruct w; [now elim Hne|reflexivity].
    + rewrite Forall_forall in *. intros x Hx. apply in_map_iff in Hx.
      destruct Hx as [[g y] [<- Hin]]. destruct (Hrest _ Hin) as [_ [Hne _]].
      cbn [snd] in *. destruct y; [now elim Hne|reflexivity].
  - cbn [List.length]. rewrite length_map.
    rewrite andb_true_iff, !Nat.leb_le. reflexivity.
Qed.

Lemma X20_witness :
  SubmissionForm.getWordCount
    (last_step_with
       (text_of_words (list_ascii_of_string "  ") (list_ascii_of_string "one")
          [ (list_ascii_of_string " ", list_ascii_of_string "two") ]
          (list_ascii_of_string " ")))
  = 2.
Proof.
  refine (proj1 (X20_word_count_of_a_text
                   (last_step_with
                      (text_of_words (list_ascii_of_string "  ") (list_ascii_of_string "one")
                         [ (list_ascii_of_string " ", list_ascii_of_string "two") ]
                         (list_ascii_of_string " ")))
                   (list_ascii_of_string "  ") (list_ascii_of_string "one")
                   [ (list_ascii_of_string " ", list_ascii_of_string "two") ]
                   (list_ascii_of_string " ") eq_refl eq_refl _ _ _ _)).
  - repeat constructor.
  - split; [discriminate|repeat constructor].
  - repeat constructor; discriminate.
  - repeat constructor.
Defined.

(* ------------------------------------------------------------------ *)
(** ** PitchSubmissionForm: blank inputs *)
(* ------------------------------------------------------------------ *)

Section BlankInputs.
Import SubmissionForm.

Lemma drop_ws_nil : forall s, drop_ws s = [] <-> blank s.
Proof.
  intros s. unfold blank. induction s as [|c s IH]; cbn [drop_ws].
  - split; [constructor|reflexivity].
  - destruct (is_ws c) eqn:E.
    + rewrite IH. split; [now constructor|]. intros H. now inversion H.
    + split; [discriminate|]. intros H. inversion H; congruence.
Qed.

Lemma trim_nil : forall s, trim s = [] <-> blank s.
Proof.
  intros s. unfold trim. split.
  - intros H. apply drop_ws_nil.
    assert (drop_ws (rev (drop_ws s)) = []) as H1.
    { rewrite <- (rev_involutive (drop_ws (rev (drop_ws s)))), H. reflexivity. }
    apply drop_ws_nil in H1.
    destruct (drop_ws_starts s) as [Hnil|Hst]; [exact Hnil|].
    destruct (drop_ws s) as [|c t]; [reflexivity|]. simpl in Hst.
    unfold blank in H1. rewrite Forall_forall in H1.
    specialize (H1 c). rewrite Hst in H1. discriminate H1.
    apply -> in_rev. now left.
  - intros H. apply drop_ws_nil in H. now rewrite H.
Qed.

End BlankInputs.

(** X21.  At each of the first four steps the button at the bottom is
    disabled exactly when the input shown holds nothing but white space
    (it may be empty) or a submission is under way. *)
Theorem X21_blank_input_disables_continue :
  forall s field,
    SubmissionForm.step s < 5 ->
    PitchSubmissionForm.shown (SubmissionForm.step s) = Some field ->
    SubmissionForm.button_disabled s = true
    <-> blank (list_ascii_of_string (field_value field (SubmissionForm.formData s)))
        \/ SubmissionForm.loading s = true.
Proof.
  intros s field Hstep Hshown.
  assert (SubmissionForm.isStepValid s
          = SubmissionForm.filled (field_value field (SubmissionForm.formData s))) as Hvalid.
  { unfold SubmissionForm.isStepValid.
    destruct (SubmissionForm.step s) as [|[|[|[|[|n]]]]]; try discriminate; try lia;
      injection Hshown as <-; reflexivity. }
  unfold SubmissionForm.button_disabled. rewrite Hvalid, orb_true_iff, negb_true_iff.
  unfold SubmissionForm.filled. rewrite Nat.ltb_ge, <- trim_nil.
  split; (intros [H|H]; [left|now right]).
  - destruct (SubmissionForm.trim _); [reflexivity|simpl in H; lia].
  - rewrite H. simpl. lia.
Qed.

Lemma X21_witness :
  SubmissionForm.button_disabled PitchSubmissionForm.mounted = true.
Proof.
  apply (proj2 (X21_blank_input_disables_continue PitchSubmissionForm.mounted Field.title
                  (proj1 (Nat.ltb_lt 1 5) eq_refl) eq_refl)).
  left. constructor.
Defined.

(* ------------------------------------------------------------------ *)
(** ** SubmissionSuccessScreen: the poll after a run of the endpoint *)
(* ------------------------------------------------------------------ *)

Lemma serve_pitch_data :
  forall w req db,
    map pitch_data (pitches (Endpoint.store_of (Endpoint.serve w req db)))
    = map pitch_data (pitches db).
Proof.
  intros w req db.
  assert (forall e, ai_columns_only (Endpoint.set_failed w e)) as Hfail by (intros e p; reflexivity).
  assert (ai_columns_only (Endpoint.set_processing w)) as Hproc by (intros p; reflexivity).
  assert (ai_columns_only (Endpoint.set_completed w)) as Hdone by (intros p; reflexivity).
  destruct (serve_store_cases w req db)
    as [->|[pid [_ [->|[[e ->]|[ins [score [-> _]]]]]]]].
  - reflexivity.
  - now apply mark_pitch_data.
  - now rewrite !mark_pitch_data.
  - rewrite mark_pitch_data by exact Hdone.
    change (pitches (add_feedback (stored_row ins score)
                       (mark pid (Endpoint.set_processing w) db)))
      with (pitches (mark pid (Endpoint.set_processing w) db)).
    now apply mark_pitch_data.
Qed.

Lemma filter_by_id_data :
  forall pid (l l' : list Pitches.row),
    map pitch_data l' = map pitch_data l ->
    map pitch_data (filter (fun p => String.eqb (Pitches.id p) pid) l')
    = map pitch_data (filter (fun p => String.eqb (Pitches.id p) pid) l).
Proof.
  intros pid l. induction l as [|p l IH]; intros [|p' l'] H; try discriminate; [reflexivity|].
  cbn [map] in H.
  assert (pitch_data p' = pitch_data p) as Hp by congruence.
  assert (map pitch_data l' = map pitch_data l) as Hl by congruence.
  cbn [filter].
  assert (Pitches.id p' = Pitches.id p) as -> by (unfold pitch_data in Hp; congruence).
  destruct (String.eqb (Pitches.id p) pid); cbn [map]; [rewrite Hp; f_equal|]; now apply IH.
Qed.

Lemma filter_and :
  forall {A : Type} (f g : A -> bool) (l : list A),
    filter (fun x => f x && g x) l = filter g (filter f l).
Proof.
  intros A f g l. induction l as [|x l IH]; [reflexivity|]. cbn [filter].
  destruct (f x); cbn [andb filter]; [destruct (g x)|]; now rewrite IH.
Qed.

(** X22.  The success screen after the analysis.  Once a run of the
    endpoint for a stored pitch the user may see has ended, the next poll
    of the screen reads a final status, completed or failed, and shows no
    stage as active or pending: all four completed, or the three analysis
    stages failed.  The poll itself is never stopped by [checkAIStatus]:
    the calls the effect makes see [pollingInterval] as null, so no call
    of them, on whatever store, clears the interval, although the same
    function called with the interval's id would clear it here. *)
Theorem X22_poll_after_a_run_is_final :
  forall w req db pitch_id p user,
    Endpoint.method req <> "OPTIONS" ->
    Endpoint.read_pitch_id w req = inr pitch_id ->
    truthy pitch_id = true ->
    select_pitch_single (Endpoint.text_of w pitch_id) db = Some p ->
    can_view user p = true ->
    let after := Endpoint.store_of (Endpoint.serve w req db) in
    (exists final,
        SubmissionSuccessScreen.poll user (Endpoint.text_of w pitch_id) after
        = Some {| SubmissionSuccessScreen.aiStatus := final;
                  SubmissionSuccessScreen.stages :=
                    SubmissionSuccessScreen.updateStages final;
                  SubmissionSuccessScreen.cleared := None |}
        /\ (final = completed \/ final = failed)
        /\ (map SubmissionSuccessScreen.status (SubmissionSuccessScreen.updateStages final)
            = [ Stage.completed; Stage.completed; Stage.completed; Stage.completed ]
            \/ map SubmissionSuccessScreen.status (SubmissionSuccessScreen.updateStages final)
               = [ Stage.completed; Stage.failed; Stage.failed; Stage.failed ])
        /\ forall interval,
             option_map SubmissionSuccessScreen.cleared
               (SubmissionSuccessScreen.checkAIStatus (Some interval) user
                  (Endpoint.text_of w pitch_id) after)
             = Some (Some interval))
    /\ forall (anyone pitchId : uuid) (store : database) (c : SubmissionSuccessScreen.Checked),
         SubmissionSuccessScreen.poll anyone pitchId store = Some c ->
         SubmissionSuccessScreen.cleared c = None.
Proof.
  intros w req db pitch_id p user Hpost Hbody Htruthy Hfound Hview after. split.
  - destruct (endpoint_run_statuses w req db pitch_id p Hpost Hbody Htruthy Hfound)
      as [mid [final [_ [_ [Hfinal Hstatus]]]]].
    set (pid := Endpoint.text_of w pitch_id) in *.
    fold after in Hstatus.
    exists final.
    assert (filter (fun q => String.eqb (Pitches.id q) pid && can_view user q) (pitches after)
            = filter (can_view user)
                (filter (fun q => String.eqb (Pitches.id q) pid) (pitches after))) as Hsplit
      by apply (filter_and (fun q => String.eqb (Pitches.id q) pid) (can_view user)).
    unfold ai_status_of, select_pitch_single in Hstatus, Hfound.
    pose proof (filter_by_id_data pid (pitches db) (pitches after)
                  (serve_pitch_data w req db)) as Hdata.
    destruct (filter (fun q => String.eqb (Pitches.id q) pid) (pitches after))
      as [|p' [|q r]] eqn:Hf'; try discriminate.
    destruct (filter (fun q => String.eqb (Pitches.id q) pid) (pitches db))
      as [|p0 [|q r]] eqn:Hf; try discriminate.
    injection Hfound as ->. cbn [option_map] in Hstatus. injection Hstatus as Hst.
    cbn [map] in Hdata.
    assert (pitch_data p' = pitch_data p) as Hsame by congruence.
    assert (can_view user p' = true) as Hview'.
    { unfold can_view in *. unfold pitch_data in Hsame.
      replace (Pitches.status p') with (Pitches.status p) by congruence.
      replace (Pitches.user_id p') with (Pitches.user_id p) by congruence.
      exact Hview. }
    cbn [filter] in Hsplit. rewrite Hview' in Hsplit.
    unfold SubmissionSuccessScreen.poll, SubmissionSuccessScreen.checkAIStatus.
    rewrite Hsplit. cbv zeta. rewrite Hst.
    split; [|split; [exact Hfinal|split]].
    + destruct Hfinal as [->| ->]; reflexivity.
    + destruct Hfinal as [->| ->]; [left|right]; reflexivity.
    + intros interval. destruct Hfinal as [->| ->]; reflexivity.
  - intros anyone pitchId store c Hc.
    unfold SubmissionSuccessScreen.poll, SubmissionSuccessScreen.checkAIStatus in Hc.
    destruct (filter _ (pitches store)) as [|q [|q' r]]; try discriminate.
    injection Hc as <-. cbn [SubmissionSuccessScreen.cleared].
    now destruct (_ || _).
Qed.

Lemma X22_witness :
  exists final,
    SubmissionSuccessScreen.poll "u1" "p1"
      (Endpoint.store_of
         (Endpoint.serve Sample.offline (Sample.post "p1") Scenario.after_submit))
    = Some {| SubmissionSuccessScreen.aiStatus := final;
              SubmissionSuccessScreen.stages := SubmissionSuccessScreen.updateStages final;
              SubmissionSuccessScreen.cleared := None |}
    /\ (final = completed \/ final = failed).
Proof.
  destruct (select_pitch_single "p1" Scenario.after_submit) as [p|] eqn:Hp;
    [|vm_compute in Hp; discriminate].
  assert (can_view "u1" p = true) as Hview.
  { vm_compute in Hp. injection Hp as <-. reflexivity. }
  assert (Endpoint.method (Sample.post "p1") <> "OPTIONS") as Hpost by discriminate.
  destruct (proj1 (X22_poll_after_a_run_is_final Sample.offline (Sample.post "p1")
                     Scenario.after_submit _ p "u1" Hpost eq_refl eq_refl Hp Hview))
    as [final [H1 [H2 _]]].
  exists final. split; assumption.
Defined.

(* ------------------------------------------------------------------ *)
(** ** The AI-processing status between two runs *)
(* ------------------------------------------------------------------ *)

Lemma reachable_step : forall a db, reachable db -> reachable (step a db).
Proof.
  intros a db [trace ->]. exists (trace ++ [a]). unfold run. now rewrite fold_left_app.
Qed.

Lemma reachable_induction :
  forall (P : database -> Prop),
    P empty_database ->
    (forall a db, reachable db -> P db -> P (step a db)) ->
    forall db, reachable db -> P db.
Proof.
  intros P H0 Hstep db [trace ->]. induction trace as [|a trace IH] using rev_ind.
  - exact H0.
  - unfold run. rewrite fold_left_app. cbn [fold_left].
    apply Hstep; [now exists trace|exact IH].
Qed.

Lemma serve_final_cases :
  forall w req db,
    Endpoint.store_of (Endpoint.serve w req db) = db
    \/ exists pid,
         (select_pitch_single pid db = None
          /\ Endpoint.store_of (Endpoint.serve w req db)
             = mark pid (Endpoint.set_processing w) db)
         \/ (exists e,
               Endpoint.store_of (Endpoint.serve w req db)
               = mark pid (Endpoint.set_failed w e)
                   (mark pid (Endpoint.set_processing w) db))
         \/ (exists row,
               Endpoint.store_of (Endpoint.serve w req db)
               = mark pid (Endpoint.set_completed w)
                   (add_feedback row (mark pid (Endpoint.set_processing w) db))
               /\ AiFeedback.pitch_id row = pid).
Proof.
  intros w req db. unfold Endpoint.serve.
  destruct (String.eqb (Endpoint.method req) "OPTIONS") eqn:Hm; [now left|].
  destruct (Endpoint.read_pitch_id w req) as [e|v] eqn:Hr; [now left|].
  destruct (truthy v) eqn:Hv.
  2:{ left. unfold Endpoint.try_catch, Endpoint.generate. rewrite Hv. reflexivity. }
  right. exists (Endpoint.text_of w v).
  set (pid := Endpoint.text_of w v). set (started := mark pid (Endpoint.set_processing w) db).
  destruct (select_pitch_single pid db) as [p|] eqn:Hsel.
  - destruct (analyse_outcomes w pid (Endpoint.set_processing w p) started)
      as [[e [j Ha]]|[fb [ins [score [Ha [Hsrc _]]]]]].
    + right. left. exists e. unfold Endpoint.store_of.
      erewrite try_catch_inl;
        [reflexivity
        |rewrite (generate_found w v db p Hv Hsel); fold pid; fold started;
         rewrite Ha; reflexivity
        |apply on_error_truthy; exact Hv].
    + right. right. exists (stored_row ins score). unfold Endpoint.store_of.
      erewrite try_catch_inr;
        [|rewrite (generate_found w v db p Hv Hsel); fold pid; fold started;
          rewrite Ha; reflexivity].
      simpl. split; [reflexivity|exact (insert_source_pid _ _ _ _ _ _ Hsrc)].
  - left. split; [reflexivity|]. unfold Endpoint.store_of.
    erewrite try_catch_inr; [|apply generate_not_found; assumption]. reflexivity.
Qed.

Lemma mark_rows :
  forall pid set db q,
    In q (pitches (mark pid set db)) ->
    exists p,
      In p (pitches db)
      /\ ((Pitches.id p = pid /\ q = set p) \/ (Pitches.id p <> pid /\ q = p)).
Proof.
  intros pid set db q Hq. unfold mark, update_pitches in Hq. cbn [pitches] in Hq.
  apply in_map_iff in Hq. destruct Hq as [p [Hq Hp]]. exists p. split; [exact Hp|].
  unfold Endpoint.id_is in Hq. destruct (String.eqb (Pitches.id p) pid) eqn:E.
  - left. apply String.eqb_eq in E. now split.
  - right. apply String.eqb_neq in E. now split.
Qed.

Lemma select_none_no_row :
  forall pid db,
    pitch_ids_unique db ->
    select_pitch_single pid db = None ->
    forall p, In p (pitches db) -> Pitches.id p <> pid.
Proof.
  intros pid db Hids Hsel p Hp Hid.
  unfold select_pitch_single in Hsel.
  rewrite (single_of_unique Pitches.id _ (pitches db) p Hids Hp) in Hsel.
  - discriminate.
  - now apply String.eqb_eq.
  - intros y _ Hy. apply String.eqb_eq in Hy. congruence.
Qed.

Lemma status_settled_frame :
  forall db db',
    (forall q, In q (pitches db') ->
       exists p, In p (pitches db)
                 /\ Pitches.id q = Pitches.id p
                 /\ Pitches.ai_processing_status q = Pitches.ai_processing_status p) ->
    ai_feedback db' = ai_feedback db ->
    status_settled db -> status_settled db'.
Proof.
  intros db db' Hrows Hf H q Hq. destruct (Hrows q Hq) as [p [Hp [Hid Hst]]].
  destruct (H p Hp) as [H1 H2]. rewrite Hst, Hid. unfold has_feedback in *. rewrite Hf.
  now split.
Qed.

Lemma status_settled_update_pitch :
  forall u d data st db, status_settled db -> status_settled (update_pitch u d data st db).
Proof.
  intros u d data st db. apply status_settled_frame; [|reflexivity].
  intros q Hq. unfold update_pitch, update_pitches in Hq. cbn [pitches] in Hq.
  apply in_map_iff in Hq. destruct Hq as [p [<- Hp]]. exists p. split; [exact Hp|].
  now destruct (_ && _).
Qed.

Lemma status_settled_insert_pitch :
  forall u nid c owner data st db,
    feedback_rows_ok db ->
    status_settled db -> status_settled (snd (insert_pitch u nid c owner data st db)).
Proof.
  intros u nid c owner data st db Hfk H.
  destruct (insert_pitch_cases u nid c owner data st db)
    as [->|[Hnew [p [Hid [Hst [Hp [Hf _]]]]]]]; [exact H|].
  intros q Hq. rewrite Hp in Hq. unfold has_feedback. rewrite Hf.
  apply in_app_or in Hq. destruct Hq as [Hq|[<-|[]]]; [exact (H q Hq)|].
  rewrite Hst. split; [discriminate|]. intros _.
  destruct (existsb _ (ai_feedback db)) eqn:E; [exfalso|reflexivity].
  apply existsb_exists in E. destruct E as [r [Hr Hrid]]. apply String.eqb_eq in Hrid.
  destruct (Hfk r Hr) as [_ Hhas]. congruence.
Qed.

Lemma Forall2_in_r :
  forall {A B : Type} (R : A -> B -> Prop) (l : list A) (l' : list B) (y : B),
    Forall2 R l l' -> In y l' -> exists x, In x l /\ R x y.
Proof.
  intros A B R l l' y H. induction H as [|a b l l' Hab _ IH]; intros Hy; [destruct Hy|].
  destruct Hy as [<-|Hy].
  - exists a. split; [now left|exact Hab].
  - destruct (IH Hy) as [x [Hx Hxy]]. exists x. split; [now right|exact Hxy].
Qed.

Lemma step_keeps_status_settled :
  forall a db, reachable db -> status_settled db -> status_settled (step a db).
Proof.
  intros a db Hr H.
  pose proof (reachable_unique_ids db Hr) as Hids.
  pose proof (reachable_feedback_rows db Hr) as Hfk.
  destruct a as [u nid c cur data|u nid c cur data|w req|user pitch voting pid vt
                |user feed i voting vt|]; cbn [step].
  - unfold SubmissionForm.saveDraft. destruct cur.
    + now apply status_settled_update_pitch.
    + now apply status_settled_insert_pitch.
  - unfold SubmissionForm.publish. destruct cur.
    + now apply status_settled_update_pitch.
    + pose proof (status_settled_insert_pitch u nid c u data published db Hfk H) as H1.
      now destruct (insert_pitch u nid c u data published db) as [[e|] db1].
  - destruct (serve_final_cases w req db)
      as [->|[pid [[Hsel ->]|[[e ->]|[row [-> Hrow]]]]]]; [exact H| | |].
    + unfold mark. rewrite update_pitches_no_match; [exact H|].
      intros p Hp. unfold Endpoint.id_is. apply String.eqb_neq.
      now apply (select_none_no_row pid db Hids Hsel).
    + intros q Hq. apply mark_rows in Hq. destruct Hq as [p1 [Hp1 Hq]].
      apply mark_rows in Hp1. destruct Hp1 as [p [Hp Hp1]].
      change (has_feedback (Pitches.id q)
                (mark pid (Endpoint.set_failed w e) (mark pid (Endpoint.set_processing w) db)))
        with (has_feedback (Pitches.id q) db).
      destruct Hq as [[Hid ->]|[Hid ->]].
      * split; discriminate.
      * destruct Hp1 as [[Hid1 ->]|[_ ->]]; [now elim Hid|exact (H p Hp)].
    + intros q Hq. apply mark_rows in Hq. destruct Hq as [p1 [Hp1 Hq]].
      change (pitches (add_feedback row (mark pid (Endpoint.set_processing w) db)))
        with (pitches (mark pid (Endpoint.set_processing w) db)) in Hp1.
      apply mark_rows in Hp1. destruct Hp1 as [p [Hp Hp1]].
      destruct Hq as [[Hid ->]|[Hid ->]].
      * split; discriminate.
      * destruct Hp1 as [[Hid1 ->]|[Hne ->]]; [now elim Hid|].
        destruct (H p Hp) as [H1 H2]. split; [exact H1|]. intros Hpend.
        unfold has_feedback, mark, update_pitches, add_feedback. cbn [ai_feedback].
        rewrite existsb_app. cbn [existsb]. rewrite Hrow.
        rewrite (proj2 (String.eqb_neq pid (Pitches.id p))) by congruence.
        rewrite orb_false_r. exact (H2 Hpend).
  - unfold PitchDetailView.handleVote. destruct user as [u|]; [|exact H].
    destruct pitch as [d|]; [|exact H].
    destruct (String.eqb (Pitches.user_id (PitchDetailView.pitchData d)) u || voting);
      [exact H|].
    destruct (PitchDetailView.user_vote d); [exact H|].
    destruct (insert_vote_cases u {| Votes.pitch_id := pid; Votes.user_id := u;
                                     Votes.vote_type := vt |} db) as [[e ->]|[-> _]];
      exact H.
  - unfold DiscoverFeed.handleVote. destruct user as [u|]; [|exact H].
    destruct ((List.length feed <=? i) || voting); [exact H|].
    destruct (nth_error feed i) as [cur|]; [|exact H].
    destruct (insert_vote_cases u {| Votes.pitch_id := Pitches.id cur; Votes.user_id := u;
                                     Votes.vote_type := vt |} db) as [[e ->]|[-> _]];
      exact H.
  - intros q Hq.
    destruct (Forall2_in_r _ _ _ q (migration_rows db) Hq) as [p [Hp Hm]].
    change (has_feedback (Pitches.id q) (status_migration db))
      with (has_feedback (Pitches.id q) db).
    unfold migrated in Hm. destruct (awaiting p).
    + destruct Hm as [_ [_ Hm]].
      destruct (has_feedback (Pitches.id p) db); destruct Hm as [-> _]; split; discriminate.
    + subst q. exact (H p Hp).
Qed.

(** X23.  Between two handler runs the AI-processing status is settled:
    in every store the code can produce no pitch is in [processing] (a run
    always ends in completed or failed, and a run for an unknown id marks
    nothing), and a pitch that has a feedback row is completed or failed,
    never pending. *)
Theorem X23_no_pitch_is_left_processing :
  forall db, reachable db ->
    forall p, In p (pitches db) ->
      Pitches.ai_processing_status p <> processing
      /\ (has_feedback (Pitches.id p) db = true ->
          Pitches.ai_processing_status p = completed
          \/ Pitches.ai_processing_status p = failed).
Proof.
  intros db Hr p Hp.
  assert (status_settled db) as H.
  { apply (reachable_induction status_settled); [intros q []| |exact Hr].
    exact step_keeps_status_settled. }
  destruct (H p Hp) as [H1 H2]. split; [exact H1|]. intros Hf.
  destruct (Pitches.ai_processing_status p); auto.
  - rewrite (H2 eq_refl) in Hf. discriminate.
  - now elim H1.
Qed.

Lemma X23_witness :
  exists p,
    In p (pitches Scenario.after_swipe)
    /\ Pitches.ai_processing_status p <> processing.
Proof.
  assert (reachable Scenario.after_swipe) as Hr by (exists Scenario.swipe; reflexivity).
  destruct (pitches Scenario.after_swipe) as [|p l] eqn:Hp; [vm_compute in Hp; discriminate|].
  assert (In p (pitches Scenario.after_swipe)) as Hin by (rewrite Hp; now left).
  exists p. rewrite <- Hp. split; [exact Hin|].
  exact (proj1 (X23_no_pitch_is_left_processing Scenario.after_swipe Hr p Hin)).
Defined.
